(** * Hydro contest model: scoring rules, ranking and lifecycle

    A shallow embedding of [packages/hydrooj/src/model/contest.ts].

    Conventions of the embedding
    - a [Date] is its [getTime()] value, an integer number of milliseconds;
      every [new Date()] / [Date.now()] read is the explicit argument [now];
    - an [ObjectId] is the pair of its embedded creation second and the rest of
      its bytes;
    - scores and status codes are integers; the quantities the source obtains
      with fractional arithmetic (contest duration in hours, Ledo decay
      coefficients, homework penalty coefficients) are doubles: a double is
      the rational number it denotes, a decimal literal or stored number [q]
      is [double q], and a product the source computes is rounded to the
      nearest double ([fmul]);
    - a JavaScript object used as a dictionary keyed by problem id is a
      [gmap Z _]; an absent key is [None];
    - a thrown exception is the [Throw] case of [Result]. *)

From stdpp Require Import gmap strings list fin_maps.
From Stdlib Require Import ZArith QArith Qround Qpower Lia Lqa.
Close Scope Q_scope.
Local Open Scope Z_scope.

(** ** Double-precision numbers *)

(** A JavaScript number that is not an integer of the model is an IEEE 754
    binary64 value, kept as the rational it denotes.  [double q] is the
    double nearest to [q], a tie going to the neighbour whose 53-bit
    significand is even.  The exponent is not bounded: the numbers of the
    model file (hours, coefficients between 0 and 1, scores times
    coefficients) are far from both ends of the binary64 range. *)

Definition pow2 (k : Z) : Q := (2 ^ k)%Q.

(** The exponent [e] with [2^e ≤ q < 2^(e+1)], for a positive [q]. *)
Definition binade (q : Q) : Z :=
  let e := Z.log2 (Qnum q) - Z.log2 (Z.pos (Qden q)) in
  if Qle_bool (pow2 e) q then e else e - 1.

(** The nearest integer, a tie going to the even one. *)
Definition roundHalfEven (t : Q) : Z :=
  let f := Qfloor t in
  match (t - inject_Z f ?= 1 # 2)%Q with
  | Lt => f
  | Gt => f + 1
  | Eq => if Z.even f then f else f + 1
  end.

(** The nearest multiple of [2^(binade q - 52)], for a positive [q]. *)
Definition nearest (q : Q) : Q :=
  let ulp := pow2 (binade q - 52) in
  (inject_Z (roundHalfEven (q / ulp)) * ulp)%Q.

Definition double (q : Q) : Q :=
  match Qnum q with
  | Z0 => 0%Q
  | Zpos _ => nearest q
  | Zneg _ => (- nearest (- q))%Q
  end.

(** [a * b] and [a + b] on two numbers *)
Definition fmul (a b : Q) : Q := double (a * b).
Definition fadd (a b : Q) : Q := double (a + b).

(** ** Imported names that [contest.ts] only refers to *)

(** The members of [STATUS] (from [./builtin]) and of [Time] (from
    [@hydrooj/utils]) that the model file reads.  Their numeric values are
    not part of [contest.ts]; the development is parametric in them.  So it
    is in [exponentiate], the operator [**] with an integer exponent: the
    language leaves its result to the engine, as an implementation-approximated
    value. *)
Class Imported := {
  STATUS_ACCEPTED : Z;
  STATUS_COMPILE_ERROR : Z;
  STATUS_FORMAT_ERROR : Z;
  Time_hour : Z;
  exponentiate : Q -> Z -> Q;
}.

(** A table used where a closed example needs one; its [**] is the correctly
    rounded power. *)
Definition sampleImports : Imported :=
  {| STATUS_ACCEPTED := 1; STATUS_COMPILE_ERROR := 7; STATUS_FORMAT_ERROR := 31;
     Time_hour := 3600000;
     exponentiate := fun x k => double (x ^ k)%Q |}.

(** ** Errors *)

Inductive Error :=
| ValidationError (fields : list string)
| ContestNotFoundError
| TypeError.

Inductive Result (A : Type) :=
| Ok (a : A)
| Throw (e : Error).
Arguments Ok {A} a.
Arguments Throw {A} e.

Definition bind {A B} (r : Result A) (k : A -> Result B) : Result B :=
  match r with
  | Ok a => k a
  | Throw e => Throw e
  end.

Notation "'let*' x ':=' r 'in' k" := (bind r (fun x => k))
  (at level 10, x name, r at level 100, k at level 200).

(** ** Data model *)

Record ObjectId := { oid_seconds : Z; oid_rest : Z }.

(** [rid.getTimestamp().getTime()] *)
Definition getTimestamp (rid : ObjectId) : Z := oid_seconds rid * 1000.

Record SubtaskResult := { st_score : Z; st_status : Z }.

(** A JavaScript number that may be [-Infinity] (the value of [Math.max()]
    over no arguments). *)
Inductive num :=
| NegInfinity
| Num (z : Z).

(** One journal entry, as pushed by [_updateStatus]. *)
Record Jdoc := {
  rid : ObjectId;
  pid : Z;
  status : num;
  score : Z;
  subtasks : gmap Z SubtaskResult;
}.

Record Tdoc := {
  rule : string;
  beginAt : Z;
  endAt : Z;
  lockAt : option Z;
  unlocked : bool;
  duration : option Q;
  pids : list Z;
  penaltySince : option Z;
  penaltyRules : option (list (Q * Q));
}.

(** The fields of a participant status document that the model file reads
    outside [stat]. *)
Record Tsdoc := {
  uid : Z;
  startAt : option Z;
  ts_accept : option Z;
  ts_time : option Z;
  ts_score : option Z;
}.

#[global] Instance ObjectId_eq_dec : EqDecision ObjectId.
Proof. solve_decision. Defined.
#[global] Instance SubtaskResult_eq_dec : EqDecision SubtaskResult.
Proof. solve_decision. Defined.
#[global] Instance num_eq_dec : EqDecision num.
Proof. solve_decision. Defined.
#[global] Instance Jdoc_eq_dec : EqDecision Jdoc.
Proof. solve_decision. Defined.

Section Lifecycle.
Context {imports : Imported}.

(** The guard shared by [isOngoing] and [isDone]:
    [tsdoc && tdoc.duration
     && tsdoc.startAt <= new Date(Date.now() - Math.floor(tdoc.duration * Time.hour))].
    A missing [startAt] compares as [false]. *)
Definition durationExhausted (tdoc : Tdoc) (tsdoc : option Tsdoc) (now : Z) : bool :=
  match tsdoc, duration tdoc with
  | Some ts, Some d =>
      negb (Qeq_bool d 0) &&
      match startAt ts with
      | Some s => s <=? now - Qfloor (fmul (double d) (inject_Z Time_hour))
      | None => false
      end
  | _, _ => false
  end.

Definition isNotStarted (tdoc : Tdoc) (now : Z) : bool := now <? beginAt tdoc.

Definition isOngoing (tdoc : Tdoc) (tsdoc : option Tsdoc) (now : Z) : bool :=
  if durationExhausted tdoc tsdoc now then false
  else (beginAt tdoc <=? now) && (now <? endAt tdoc).

Definition isDone (tdoc : Tdoc) (tsdoc : option Tsdoc) (now : Z) : bool :=
  if endAt tdoc <=? now then true
  else if durationExhausted tdoc tsdoc now then true
  else false.

Definition isLocked (tdoc : Tdoc) (now : Z) : bool :=
  match lockAt tdoc with
  | None => false
  | Some l => (l <? now) && negb (unlocked tdoc)
  end.
End Lifecycle.

(** ** Helpers imported by [contest.ts] *)

(** Modelled from the spec: the [Counter] helper of [@hydrooj/utils], whose
    source is not in the model file.  The spec uses it as a per-problem
    counter ("count prior ... attempts", "a per-problem pending counter
    increments"): a dictionary whose missing keys read as 0. *)
Definition Counter : gmap Z Z := ∅.
Definition counter_get (c : gmap Z Z) (k : Z) : Z := default 0 (c !! k).
Definition counter_incr (c : gmap Z Z) (k : Z) : gmap Z Z :=
  <[k := counter_get c k + 1]> c.

(** Modelled from the spec: the [Math.sum] extension of [@hydrooj/utils],
    whose source is not in the model file.  The spec (4.3, homework)
    describes it as the total-time reducer that "must yield zero, not fail"
    on an empty set: the sum of the given numbers. *)
Definition Math_sum (l : list Z) : Z := foldr Z.add 0 l.

(** lodash [sumBy(collection, 'score')] over integer fields. *)
Definition sumBy {A} (f : A -> Z) (l : list A) : Z := foldr (fun a acc => f a + acc) 0 l.

(** lodash [sumBy(collection, 'penaltyScore')] over numbers that need not be
    integers: 0 for an empty collection, and otherwise the first value with
    the others added to it one after the other. *)
Definition sumByQ {A} (f : A -> Q) (l : list A) : Q :=
  match l with
  | [] => (0#1)%Q
  | a :: rest => fold_left (fun acc b => fadd acc (f b)) rest (f a)
  end.

(** [Object.values(m)] *)
Definition values {A} (m : gmap Z A) : list A := (map_to_list m).*2.

(** The entries of an object in the order in which JavaScript lists its
    keys ([for ... in], [Object.values]) when they are array indices, as
    problem ids and subtask ids are: ascending. *)
Fixpoint insertKey {A} (kv : Z * A) (l : list (Z * A)) : list (Z * A) :=
  match l with
  | [] => [kv]
  | x :: rest => if fst kv <=? fst x then kv :: l else x :: insertKey kv rest
  end.
Definition entriesAscending {A} (m : gmap Z A) : list (Z * A) :=
  foldr insertKey [] (map_to_list m).
Definition valuesAscending {A} (m : gmap Z A) : list A := (entriesAscending m).*2.

(** [tdoc.pids.includes(p)] *)
Definition includes (l : list Z) (p : Z) : bool := bool_decide (p ∈ l).

(** [lockAt && j.rid.getTimestamp() > lockAt] *)
Definition afterLock (lock : option Z) (j : Jdoc) : bool :=
  match lock with
  | Some l => l <? getTimestamp (rid j)
  | None => false
  end.

Section Stat.
Context {imports : Imported}.

(** [status === STATUS.STATUS_ACCEPTED] *)
Definition isAccepted (s : num) : bool :=
  match s with
  | Num z => z =? STATUS_ACCEPTED
  | NegInfinity => false
  end.

(** [[STATUS_COMPILE_ERROR, STATUS_FORMAT_ERROR].includes(status)] *)
Definition isCompileOrFormatError (s : num) : bool :=
  match s with
  | Num z => (z =? STATUS_COMPILE_ERROR) || (z =? STATUS_FORMAT_ERROR)
  | NegInfinity => false
  end.

(** [![STATUS_ACCEPTED, STATUS_COMPILE_ERROR, STATUS_FORMAT_ERROR].includes(status)] *)
Definition isRejected (s : num) : bool :=
  negb (isAccepted s || isCompileOrFormatError s).

(** [const lockAt = isLocked(tdoc) ? tdoc.lockAt : null] *)
Definition effectiveLock (tdoc : Tdoc) (now : Z) : option Z :=
  if isLocked tdoc now then lockAt tdoc else None.

(** *** ACM/ICPC *)

(** [{ ...j, naccept, time: real + penalty, real, penalty }] *)
Record AcmDetail := {
  ad_j : Jdoc;
  ad_naccept : Z;
  ad_time : Z;
  ad_real : Z;
  ad_penalty : Z;
}.

(** A value of [display]: either the detail object it was given
    ([display[pid] = detail[pid]]) or the empty object of
    [display[pid] ||= {}], plus the [npending] written into it.  That write
    comes after [detail[pid]] has been replaced by a fresh object in the same
    iteration, so no value of [detail] ever receives it. *)
Record AcmDisplay := {
  aq_shown : option AcmDetail;
  aq_npending : option Z;
}.

Record AcmState := {
  as_naccept : gmap Z Z;
  as_npending : gmap Z Z;
  as_display : gmap Z AcmDisplay;
  as_detail : gmap Z AcmDetail;
}.

Definition acm_init : AcmState :=
  {| as_naccept := Counter; as_npending := Counter; as_display := ∅; as_detail := ∅ |}.

(** [display[pid]?.status === STATUS.STATUS_ACCEPTED] *)
Definition acm_displayAccepted (display : gmap Z AcmDisplay) (p : Z) : bool :=
  match display !! p with
  | Some {| aq_shown := Some d |} => isAccepted (status (ad_j d))
  | _ => false
  end.

(** The record stored for [j] when the counter of rejected attempts on its
    problem reads [n]. *)
Definition acm_record (tdoc : Tdoc) (n : Z) (j : Jdoc) : AcmDetail :=
  let real := (getTimestamp (rid j) - beginAt tdoc) `div` 1000 in
  let penalty := 20 * 60 * n in
  {| ad_j := j; ad_naccept := n; ad_time := real + penalty;
     ad_real := real; ad_penalty := penalty |}.

(** One iteration of the loop of [acm.stat]; [sAA] is
    [this.submitAfterAccept]. *)
Definition acm_step (sAA : bool) (tdoc : Tdoc) (lock : option Z)
    (s : AcmState) (j : Jdoc) : AcmState :=
  if negb sAA && acm_displayAccepted (as_display s) (pid j) then s
  else
    let d := acm_record tdoc (counter_get (as_naccept s) (pid j)) j in
    let detail := <[pid j := d]> (as_detail s) in
    let naccept :=
      if isRejected (status j)
      then counter_incr (as_naccept s) (pid j)
      else as_naccept s in
    if afterLock lock j then
      let npending := counter_incr (as_npending s) (pid j) in
      let old := default {| aq_shown := None; aq_npending := None |}
                   (as_display s !! pid j) in
      {| as_naccept := naccept; as_npending := npending;
         as_display :=
           <[pid j := {| aq_shown := aq_shown old;
                         aq_npending := Some (counter_get npending (pid j)) |}]>
             (as_display s);
         as_detail := detail |}
    else
      {| as_naccept := naccept; as_npending := as_npending s;
         as_display := <[pid j := {| aq_shown := Some d; aq_npending := None |}]>
                         (as_display s);
         as_detail := detail |}.

Definition acm_loop (sAA : bool) (tdoc : Tdoc) (lock : option Z)
    (s : AcmState) (journal : list Jdoc) : AcmState :=
  fold_left (acm_step sAA tdoc lock) journal s.

Record AcmStats := {
  acm_accept : Z;
  acm_time : Z;
  acm_detail : gmap Z AcmDetail;
  acm_display : gmap Z AcmDisplay;
}.

(** [Object.values(display).filter((i) => i.status === STATUS.STATUS_ACCEPTED)] *)
Definition acm_acceptedShown (display : gmap Z AcmDisplay) : list AcmDetail :=
  filter (fun d => isAccepted (status (ad_j d)) = true)
         (omap aq_shown (values display)).

Definition acm_stat (sAA : bool) (tdoc : Tdoc) (now : Z) (journal : list Jdoc) : AcmStats :=
  let s := acm_loop sAA tdoc (effectiveLock tdoc now) acm_init journal in
  let acc := acm_acceptedShown (as_display s) in
  {| acm_accept := Z.of_nat (length acc);
     acm_time := sumBy ad_time acc;
     acm_detail := as_detail s;
     acm_display := as_display s |}.

(** *** OI and IOI *)

(** A value of [display]: the journal entry assigned to it, or the empty
    object of [display[pid] ||= {}], plus the [npending] written into it.
    That write comes after [detail[pid]] has been set to the current entry, so
    no value of [detail] ever receives it. *)
Record OiDisplay := {
  oq_shown : option Jdoc;
  oq_npending : option Z;
}.

Record OiState := {
  os_npending : gmap Z Z;
  os_detail : gmap Z Jdoc;
  os_display : gmap Z OiDisplay;
}.

Definition oi_init : OiState :=
  {| os_npending := Counter; os_detail := ∅; os_display := ∅ |}.

(** [!detail[pid] || detail[pid].score < j.score] *)
Definition improves (detail : gmap Z Jdoc) (j : Jdoc) : bool :=
  match detail !! pid j with
  | None => true
  | Some d => score d <? score j
  end.

Definition oi_step (sAA : bool) (lock : option Z) (s : OiState) (j : Jdoc) : OiState :=
  if improves (os_detail s) j || sAA then
    let detail := <[pid j := j]> (os_detail s) in
    if afterLock lock j then
      let npending := counter_incr (os_npending s) (pid j) in
      let old := default {| oq_shown := None; oq_npending := None |}
                   (os_display s !! pid j) in
      {| os_npending := npending; os_detail := detail;
         os_display :=
           <[pid j := {| oq_shown := oq_shown old;
                         oq_npending := Some (counter_get npending (pid j)) |}]>
             (os_display s) |}
    else
      {| os_npending := os_npending s; os_detail := detail;
         os_display := <[pid j := {| oq_shown := Some j; oq_npending := None |}]>
                         (os_display s) |}
  else s.

(** [journal.filter((i) => tdoc.pids.includes(i.pid))] *)
Definition inPids (tdoc : Tdoc) (journal : list Jdoc) : list Jdoc :=
  filter (fun j => includes (pids tdoc) (pid j) = true) journal.

Definition oi_loop (sAA : bool) (lock : option Z) (s : OiState) (journal : list Jdoc) : OiState :=
  fold_left (oi_step sAA lock) journal s.

Record OiStats := {
  oi_score : Z;
  oi_detail : gmap Z Jdoc;
  oi_display : gmap Z OiDisplay;
}.

(** [display[i].score || 0] *)
Definition oi_shownScore (d : OiDisplay) : Z :=
  match oq_shown d with
  | Some j => score j
  | None => 0
  end.

Definition oi_stat (sAA : bool) (tdoc : Tdoc) (now : Z) (journal : list Jdoc) : OiStats :=
  let s := oi_loop sAA (effectiveLock tdoc now) oi_init (inPids tdoc journal) in
  {| oi_score := sumBy oi_shownScore (values (os_display s));
     oi_detail := os_detail s;
     oi_display := os_display s |}.

(** *** IOI (strict) *)

(** The inner loop
    [for (const i in j.subtasks)
       if (!subtasks[i] || subtasks[i].score < j.subtasks[i].score)
         subtasks[i] = j.subtasks[i];] *)
Definition mergeSubtasks (acc own : gmap Z SubtaskResult) : gmap Z SubtaskResult :=
  map_fold (fun i st acc =>
              match acc !! i with
              | Some old => if st_score old <? st_score st then <[i := st]> acc else acc
              | None => <[i := st]> acc
              end) acc own.

(** [Math.max(...xs)] *)
Definition Math_max (xs : list Z) : num :=
  foldr (fun x acc => match acc with
                      | NegInfinity => Num x
                      | Num y => Num (Z.max x y)
                      end) NegInfinity xs.

(** [stat] of the strict IOI rule writes into the journal entries it is
    given: [j.score], [j.status] and [j.subtasks = subtasks], the last one
    being the single accumulator object of the call, shared by every
    processed entry.  The loop returns, next to its state, the entries with
    the [score] and [status] they were given; their [subtasks] field is
    read through the accumulator when the call returns ([shareSubtasks]). *)
Record StrictState := {
  ss_detail : gmap Z Jdoc;
  ss_subtasks : gmap Z SubtaskResult;
}.

Definition strictioi_init : StrictState :=
  {| ss_detail := ∅; ss_subtasks := ∅ |}.

(** The entry [j] after the three assignments, its [subtasks] still to be
    read through the shared accumulator. *)
Definition strictioi_rewrite (acc : gmap Z SubtaskResult) (j : Jdoc) : Jdoc :=
  {| rid := rid j; pid := pid j;
     status := Math_max (st_status <$> values acc);
     score := sumBy st_score (values acc);
     subtasks := subtasks j |}.

Definition strictioi_step (s : StrictState) (j : Jdoc) : StrictState * Jdoc :=
  let acc := mergeSubtasks (ss_subtasks s) (subtasks j) in
  let j' := strictioi_rewrite acc j in
  ({| ss_detail := if improves (ss_detail s) j' then <[pid j := j']> (ss_detail s)
                   else ss_detail s;
      ss_subtasks := acc |}, j').

(** The loop over the whole journal: entries outside [pids] are skipped by
    the filter and stay as they are. *)
Fixpoint strictioi_loop (tdoc : Tdoc) (s : StrictState) (journal : list Jdoc)
    : StrictState * list Jdoc :=
  match journal with
  | [] => (s, [])
  | j :: rest =>
      if includes (pids tdoc) (pid j) then
        let '(s1, j') := strictioi_step s j in
        let '(s2, rest') := strictioi_loop tdoc s1 rest in
        (s2, j' :: rest')
      else
        let '(s2, rest') := strictioi_loop tdoc s rest in
        (s2, j :: rest')
  end.

Record StrictStats := {
  strict_score : Z;
  strict_detail : gmap Z Jdoc;
}.

(** Reading [j.subtasks] of a processed entry once the call has returned:
    the shared accumulator in its final state. *)
Definition shareSubtasks (final : gmap Z SubtaskResult) (j : Jdoc) : Jdoc :=
  {| rid := rid j; pid := pid j; status := status j; score := score j;
     subtasks := final |}.

(** [strictioi.stat]: the returned aggregate, and the journal as the call
    leaves it. *)
Definition strictioi_stat (tdoc : Tdoc) (journal : list Jdoc) : StrictStats * list Jdoc :=
  let '(s, journal') := strictioi_loop tdoc strictioi_init journal in
  let final := ss_subtasks s in
  let detail := shareSubtasks final <$> ss_detail s in
  ({| strict_score := sumBy score (values detail); strict_detail := detail |},
   (fun j => if includes (pids tdoc) (pid j) then shareSubtasks final j else j)
     <$> journal').

(** *** Ledo *)

(** [{ ...j, penaltyScore, ntry: ntry[j.pid] - 1 }] *)
Record LedoDetail := {
  ld_j : Jdoc;
  ld_penaltyScore : Z;
  ld_ntry : Z;
}.

(** [Math.max(a, b)] on two numbers *)
Definition Qmax (a b : Q) : Q := if Qle_bool a b then b else a.

(** [Math.round(x)] of the double [x]: the nearest integer, ties towards +∞ *)
Definition Math_round (x : Q) : Z := Qfloor (x + (1#2))%Q.

(** [Math.max(0.7, 0.95 ** e)] *)
Definition ledo_coefficient (e : Z) : Q :=
  Qmax (double (7#10)) (exponentiate (double (95#100)) e).

(** [vaild ? Math.round(Math.max(0.7, 0.95 ** (ntry[j.pid] - 1)) * j.score) : 0]
    where [n] is [ntry[j.pid]] after the increment. *)
Definition ledo_penaltyScore (valid : bool) (n : Z) (j : Jdoc) : Z :=
  if valid then Math_round (fmul (ledo_coefficient (n - 1)) (inject_Z (score j))) else 0.

Record LedoState := {
  ls_ntry : gmap Z Z;
  ls_detail : gmap Z LedoDetail;
}.

Definition ledo_init : LedoState := {| ls_ntry := Counter; ls_detail := ∅ |}.

Definition ledo_valid (j : Jdoc) : bool := negb (isCompileOrFormatError (status j)).

(** [ntry] after [if (vaild) ntry[j.pid]++] *)
Definition ledo_count (ntry : gmap Z Z) (j : Jdoc) : gmap Z Z :=
  if ledo_valid j then counter_incr ntry (pid j) else ntry.

(** The [penaltyScore] constant of the iteration on [j] from state [s]. *)
Definition ledo_scored (s : LedoState) (j : Jdoc) : Z :=
  ledo_penaltyScore (ledo_valid j) (counter_get (ledo_count (ls_ntry s) j) (pid j)) j.

Definition ledo_step (s : LedoState) (j : Jdoc) : LedoState :=
  let ntry := ledo_count (ls_ntry s) j in
  let penaltyScore := ledo_scored s j in
  let better :=
    match ls_detail s !! pid j with
    | None => true
    | Some d => ld_penaltyScore d <? penaltyScore
    end in
  {| ls_ntry := ntry;
     ls_detail :=
       if better
       then <[pid j := {| ld_j := j; ld_penaltyScore := penaltyScore;
                         ld_ntry := counter_get ntry (pid j) - 1 |}]> (ls_detail s)
       else ls_detail s |}.

Definition ledo_loop (s : LedoState) (journal : list Jdoc) : LedoState :=
  fold_left ledo_step journal s.

Record LedoStats := {
  ledo_score : Z;
  ledo_originalScore : Z;
  ledo_detail : gmap Z LedoDetail;
}.

(** [for (const pid of tdoc.pids) { if (!detail[pid]) continue; ... }] *)
Definition ledo_counted (tdoc : Tdoc) (detail : gmap Z LedoDetail) : list LedoDetail :=
  omap (fun p => detail !! p) (pids tdoc).

Definition ledo_stat (tdoc : Tdoc) (journal : list Jdoc) : LedoStats :=
  let s := ledo_loop ledo_init (inPids tdoc journal) in
  let counted := ledo_counted tdoc (ls_detail s) in
  {| ledo_score := sumBy ld_penaltyScore counted;
     ledo_originalScore := sumBy (fun d => score (ld_j d)) counted;
     ledo_detail := ls_detail s |}.

(** *** Homework *)

(** An effective entry after [effective[j].penaltyScore = ...] and
    [effective[j].time = ...]. *)
Record HomeworkDetail := {
  hd_j : Jdoc;
  hd_penaltyScore : Q;
  hd_time : Z;
}.

(** [for (const j of journal) if (tdoc.pids.includes(j.pid)) effective[j.pid] = j] *)
Definition homework_effective (tdoc : Tdoc) (journal : list Jdoc) : gmap Z Jdoc :=
  fold_left (fun eff j => if includes (pids tdoc) (pid j) then <[pid j := j]> eff else eff)
            journal ∅.

Definition homework_time (tdoc : Tdoc) (jdoc : Jdoc) : Z :=
  (getTimestamp (rid jdoc) - beginAt tdoc) `div` 1000.

(** [tdoc.penaltyRules] as the numbers the function gets out of it: each key
    through [parseFloat], each multiplier as the stored number.  A key of
    the table is given as the number that its string spells, and the strings
    are taken to be those that JavaScript prints for their numbers (['1'],
    ['0.5'], ['1.1']), so that [tdoc.penaltyRules[i]] finds the multiplier of
    the parsed key [i] again. *)
Definition parsedRules (rules : list (Q * Q)) : list (Q * Q) :=
  (fun kv => (double (fst kv), double (snd kv))) <$> rules.

(** [Object.keys(tdoc.penaltyRules).map(parseFloat).sort((a, b) => a - b)]:
    the table is kept as its (hour offset, multiplier) pairs, so sorting
    the keys is sorting the pairs by their first component, and
    [tdoc.penaltyRules[i]] is the second component. *)
Fixpoint insertRule (kv : Q * Q) (l : list (Q * Q)) : list (Q * Q) :=
  match l with
  | [] => [kv]
  | x :: rest => if Qle_bool (fst kv) (fst x) then kv :: l else x :: insertRule kv rest
  end.
Definition sortRules (l : list (Q * Q)) : list (Q * Q) := foldr insertRule [] l.

(** The loop over the sorted keys, with its [break]. *)
Fixpoint homework_coefficient (exceedSeconds : Z) (rules : list (Q * Q))
    (coefficient : Q) : Q :=
  match rules with
  | [] => coefficient
  | (i, c) :: rest =>
      if Qle_bool (fmul i 3600) (inject_Z exceedSeconds)
      then homework_coefficient exceedSeconds rest c
      else coefficient
  end.

(** The inner function [penaltyScore(jdoc)].  Reading [getTime] of a missing
    [penaltySince], or [Object.keys] of a missing [penaltyRules], throws. *)
Definition homework_penaltyScore (tdoc : Tdoc) (jdoc : Jdoc) : Result Q :=
  match penaltySince tdoc with
  | None => Throw TypeError
  | Some since =>
      let exceedSeconds := (getTimestamp (rid jdoc) - since) `div` 1000 in
      if exceedSeconds <? 0 then Ok (inject_Z (score jdoc))
      else
        match penaltyRules tdoc with
        | None => Throw TypeError
        | Some rules =>
            Ok (fmul (inject_Z (score jdoc))
                  (homework_coefficient exceedSeconds (sortRules (parsedRules rules)) (1#1)%Q))
        end
  end.

Record HomeworkStats := {
  hw_score : Z;
  hw_penaltyScore : Q;
  hw_time : Z;
  hw_detail : gmap Z HomeworkDetail;
}.

(** The loop [for (const j in effective)] that fills [detail]. *)
Fixpoint homework_fill (tdoc : Tdoc) (l : list (Z * Jdoc)) : Result (list (Z * HomeworkDetail)) :=
  match l with
  | [] => Ok []
  | (p, j) :: rest =>
      let* ps := homework_penaltyScore tdoc j in
      let* rest' := homework_fill tdoc rest in
      Ok ((p, {| hd_j := j; hd_penaltyScore := ps; hd_time := homework_time tdoc j |}) :: rest')
  end.

Definition homework_stat (tdoc : Tdoc) (journal : list Jdoc) : Result HomeworkStats :=
  let effective := homework_effective tdoc journal in
  let* filled := homework_fill tdoc (entriesAscending effective) in
  let detail := filled.*2 in
  Ok {| hw_score := sumBy (fun d => score (hd_j d)) detail;
        hw_penaltyScore := sumByQ hd_penaltyScore detail;
        hw_time := Math_sum (hd_time <$> detail);
        hw_detail := list_to_map filled |}.
End Stat.

(** ** Ranking *)

(** Modelled from the spec: [ranked] of [../lib/rank], whose source is not in
    the model file.  Spec 4.1: standard competition ranking of an already
    sorted sequence; an element tied (by the predicate) with the one before
    it receives the same rank, any other element receives its 1-based
    position. *)
Fixpoint rankFrom {T} (equ : T -> T -> bool) (last : option (Z * T)) (position : Z)
    (docs : list T) : list (Z * T) :=
  match docs with
  | [] => []
  | doc :: rest =>
      let r := match last with
               | Some (r0, prev) => if equ prev doc then r0 else position
               | None => position
               end in
      (r, doc) :: rankFrom equ (Some (r, doc)) (position + 1) rest
  end.

Definition ranked {T} (cursor : list T) (equ : T -> T -> bool) : list (Z * T) :=
  rankFrom equ None 1 cursor.

(** [a === b] on two possibly undefined numbers *)
Definition strictEq (a b : option Z) : bool := bool_decide (a = b).

(** ** Rule objects and [buildContestRule] *)

(** The function literals of the rule definitions, one constructor per
    literal in the source. *)
Inductive StatFn :=
  acm_stat_fn | oi_stat_fn | strictioi_stat_fn | ledo_stat_fn | homework_stat_fn.
Inductive ScoreboardHeaderFn :=
  acm_scoreboardHeader | oi_scoreboardHeader | homework_scoreboardHeader.
Inductive ScoreboardRowFn :=
  acm_scoreboardRow | oi_scoreboardRow | strictioi_scoreboardRow
  | ledo_scoreboardRow | homework_scoreboardRow.
Inductive ScoreboardFn :=
  acm_scoreboard | oi_scoreboard | homework_scoreboard.

(** Rule objects live in a heap; a bound function remembers the address of
    its [this]. *)
Definition addr := nat.

Inductive Func (C : Type) :=
| Unbound (code : C)
| Bound (code : C) (this : addr).
Arguments Unbound {C} code.
Arguments Bound {C} code this.

(** The object [f] of [buildContestRule], stored as [_originalRule]. *)
Record Funcs := {
  f_scoreboard : option (Func ScoreboardFn);
  f_scoreboardRow : option (Func ScoreboardRowFn);
  f_scoreboardHeader : option (Func ScoreboardHeaderFn);
  f_stat : option (Func StatFn);
}.

(** A rule object, or a partial definition of one: every property may be
    absent.  The visibility predicates take [(tdoc, now)] and the clock that
    [isLocked] reads. *)
Record RuleObj := {
  r_TEXT : option string;
  r_hidden : option bool;
  r_check : option (Tdoc -> Result unit);
  r_statusSort : option (list (string * Z));
  r_submitAfterAccept : option bool;
  r_showScoreboard : option (Tdoc -> Z -> Z -> bool);
  r_showSelfRecord : option (Tdoc -> Z -> Z -> bool);
  r_showRecord : option (Tdoc -> Z -> Z -> bool);
  r_stat : option (Func StatFn);
  r_scoreboardHeader : option (Func ScoreboardHeaderFn);
  r_scoreboardRow : option (Func ScoreboardRowFn);
  r_scoreboard : option (Func ScoreboardFn);
  r_ranked : option (list Tsdoc -> list (Z * Tsdoc));
  r_originalRule : option Funcs;
}.

Definition Heap := list RuleObj.

(** [{}] *)
Definition emptyObject : RuleObj :=
  {| r_TEXT := None; r_hidden := None; r_check := None; r_statusSort := None;
     r_submitAfterAccept := None; r_showScoreboard := None; r_showSelfRecord := None;
     r_showRecord := None; r_stat := None; r_scoreboardHeader := None;
     r_scoreboardRow := None; r_scoreboard := None; r_ranked := None;
     r_originalRule := None |}.

Definition emptyFuncs : Funcs :=
  {| f_scoreboard := None; f_scoreboardRow := None; f_scoreboardHeader := None;
     f_stat := None |}.

(** [a || b] on two possibly absent objects or functions *)
Definition orElse {A} (a b : option A) : option A :=
  match a with
  | Some x => Some x
  | None => b
  end.

(** [{ ...baseRule, ...def }] *)
Definition spread (baseRule def : RuleObj) : RuleObj :=
  {| r_TEXT := orElse (r_TEXT def) (r_TEXT baseRule);
     r_hidden := orElse (r_hidden def) (r_hidden baseRule);
     r_check := orElse (r_check def) (r_check baseRule);
     r_statusSort := orElse (r_statusSort def) (r_statusSort baseRule);
     r_submitAfterAccept := orElse (r_submitAfterAccept def) (r_submitAfterAccept baseRule);
     r_showScoreboard := orElse (r_showScoreboard def) (r_showScoreboard baseRule);
     r_showSelfRecord := orElse (r_showSelfRecord def) (r_showSelfRecord baseRule);
     r_showRecord := orElse (r_showRecord def) (r_showRecord baseRule);
     r_stat := orElse (r_stat def) (r_stat baseRule);
     r_scoreboardHeader := orElse (r_scoreboardHeader def) (r_scoreboardHeader baseRule);
     r_scoreboardRow := orElse (r_scoreboardRow def) (r_scoreboardRow baseRule);
     r_scoreboard := orElse (r_scoreboard def) (r_scoreboard baseRule);
     r_ranked := orElse (r_ranked def) (r_ranked baseRule);
     r_originalRule := orElse (r_originalRule def) (r_originalRule baseRule) |}.

(** [fn.bind(rule)]: throws when [fn] is undefined; binding an already bound
    function keeps its first [this]. *)
Definition bindTo {C} (fn : option (Func C)) (rule : addr) : Result (Func C) :=
  match fn with
  | None => Throw TypeError
  | Some (Unbound c) => Ok (Bound c rule)
  | Some (Bound c this) => Ok (Bound c this)
  end.

(** [buildContestRule(def, baseRule = {})].  The new object [rule] is
    allocated at the next free address of the heap [h]; the four assignments
    of the loop are the four [bindTo], in the order of [funcs]. *)
Definition buildContestRule (h : Heap) (def baseRule : RuleObj) : Result (Heap * addr) :=
  let base := default emptyFuncs (r_originalRule baseRule) in
  let rule := spread baseRule def in
  let this : addr := length h in
  let f1 := orElse (r_scoreboard def) (f_scoreboard base) in
  let* b1 := bindTo f1 this in
  let f2 := orElse (r_scoreboardRow def) (f_scoreboardRow base) in
  let* b2 := bindTo f2 this in
  let f3 := orElse (r_scoreboardHeader def) (f_scoreboardHeader base) in
  let* b3 := bindTo f3 this in
  let f4 := orElse (r_stat def) (f_stat base) in
  let* b4 := bindTo f4 this in
  let f := {| f_scoreboard := f1; f_scoreboardRow := f2; f_scoreboardHeader := f3;
              f_stat := f4 |} in
  Ok (h ++ [ {| r_TEXT := r_TEXT rule; r_hidden := r_hidden rule; r_check := r_check rule;
                r_statusSort := r_statusSort rule;
                r_submitAfterAccept := r_submitAfterAccept rule;
                r_showScoreboard := r_showScoreboard rule;
                r_showSelfRecord := r_showSelfRecord rule;
                r_showRecord := r_showRecord rule;
                r_stat := Some b4; r_scoreboardHeader := Some b3;
                r_scoreboardRow := Some b2; r_scoreboard := Some b1;
                r_ranked := r_ranked rule; r_originalRule := Some f |} ],
      this).

(** Calling a function value found as a property of the object at
    [receiver]: the body that runs and its [this]. *)
Definition target {C} (receiver : addr) (fn : Func C) : C * addr :=
  match fn with
  | Unbound c => (c, receiver)
  | Bound c this => (c, this)
  end.

(** ** The six rules *)

(** [check: () => { }] *)
Definition noCheck (data : Tdoc) : Result unit := Ok tt.

Definition acm_ranked (cursor : list Tsdoc) : list (Z * Tsdoc) :=
  ranked cursor (fun a b => strictEq (ts_accept a) (ts_accept b)
                            && strictEq (ts_time a) (ts_time b)).

Definition oi_ranked (cursor : list Tsdoc) : list (Z * Tsdoc) :=
  ranked cursor (fun a b => strictEq (ts_score a) (ts_score b)).

Definition homework_ranked (cursor : list Tsdoc) : list (Z * Tsdoc) :=
  ranked cursor (fun a b => strictEq (ts_score a) (ts_score b)).

Definition acm_def : RuleObj :=
  {| r_TEXT := Some "ACM/ICPC"%string; r_hidden := None; r_check := Some noCheck;
     r_statusSort := Some [("accept"%string, -1); ("time"%string, 1)];
     r_submitAfterAccept := Some false;
     r_showScoreboard := Some (fun tdoc now _ => beginAt tdoc <? now);
     r_showSelfRecord := Some (fun _ _ _ => true);
     r_showRecord := Some (fun tdoc now clock => (endAt tdoc <? now) && negb (isLocked tdoc clock));
     r_stat := Some (Unbound acm_stat_fn);
     r_scoreboardHeader := Some (Unbound acm_scoreboardHeader);
     r_scoreboardRow := Some (Unbound acm_scoreboardRow);
     r_scoreboard := Some (Unbound acm_scoreboard);
     r_ranked := Some acm_ranked; r_originalRule := None |}.

Definition oi_def : RuleObj :=
  {| r_TEXT := Some "OI"%string; r_hidden := None; r_check := Some noCheck;
     r_statusSort := Some [("score"%string, -1)];
     r_submitAfterAccept := Some true;
     r_showScoreboard := Some (fun tdoc now _ => endAt tdoc <? now);
     r_showSelfRecord := Some (fun tdoc now _ => endAt tdoc <? now);
     r_showRecord := Some (fun tdoc now clock => (endAt tdoc <? now) && negb (isLocked tdoc clock));
     r_stat := Some (Unbound oi_stat_fn);
     r_scoreboardHeader := Some (Unbound oi_scoreboardHeader);
     r_scoreboardRow := Some (Unbound oi_scoreboardRow);
     r_scoreboard := Some (Unbound oi_scoreboard);
     r_ranked := Some oi_ranked; r_originalRule := None |}.

Definition ioi_def : RuleObj :=
  {| r_TEXT := Some "IOI"%string; r_hidden := None; r_check := None;
     r_statusSort := None;
     r_submitAfterAccept := Some false;
     r_showScoreboard := Some (fun tdoc now _ => beginAt tdoc <? now);
     r_showSelfRecord := Some (fun _ _ _ => true);
     r_showRecord := Some (fun tdoc now _ => endAt tdoc <? now);
     r_stat := None; r_scoreboardHeader := None; r_scoreboardRow := None;
     r_scoreboard := None; r_ranked := None; r_originalRule := None |}.

Definition strictioi_def : RuleObj :=
  {| r_TEXT := Some "IOI(Strict)"%string; r_hidden := None; r_check := None;
     r_statusSort := None;
     r_submitAfterAccept := Some false;
     r_showScoreboard := Some (fun tdoc now _ => endAt tdoc <? now);
     r_showSelfRecord := Some (fun _ _ _ => true);
     r_showRecord := Some (fun tdoc now _ => endAt tdoc <? now);
     r_stat := Some (Unbound strictioi_stat_fn);
     r_scoreboardHeader := None;
     r_scoreboardRow := Some (Unbound strictioi_scoreboardRow);
     r_scoreboard := None; r_ranked := None; r_originalRule := None |}.

Definition ledo_def : RuleObj :=
  {| r_TEXT := Some "Ledo"%string; r_hidden := None; r_check := Some noCheck;
     r_statusSort := None;
     r_submitAfterAccept := Some false;
     r_showScoreboard := Some (fun tdoc now _ => beginAt tdoc <? now);
     r_showSelfRecord := Some (fun _ _ _ => true);
     r_showRecord := Some (fun tdoc now _ => endAt tdoc <? now);
     r_stat := Some (Unbound ledo_stat_fn);
     r_scoreboardHeader := None;
     r_scoreboardRow := Some (Unbound ledo_scoreboardRow);
     r_scoreboard := None; r_ranked := None; r_originalRule := None |}.

(** [homework.stat] is an arrow function: [bind] leaves its [this] alone, and
    its body does not read [this]. *)
Definition homework_def : RuleObj :=
  {| r_TEXT := Some "Assignment"%string; r_hidden := Some true; r_check := Some noCheck;
     r_statusSort := Some [("penaltyScore"%string, -1); ("time"%string, 1)];
     r_submitAfterAccept := Some false;
     r_showScoreboard := Some (fun _ _ _ => true);
     r_showSelfRecord := Some (fun _ _ _ => true);
     r_showRecord := Some (fun tdoc now _ => endAt tdoc <? now);
     r_stat := Some (Unbound homework_stat_fn);
     r_scoreboardHeader := Some (Unbound homework_scoreboardHeader);
     r_scoreboardRow := Some (Unbound homework_scoreboardRow);
     r_scoreboard := Some (Unbound homework_scoreboard);
     r_ranked := Some homework_ranked; r_originalRule := None |}.

(** The base rule object passed to a derived definition. *)
Definition deref (h : Heap) (a : addr) : RuleObj := default emptyObject (h !! a).

(** The module-level constants [acm], [oi], [ioi], [strictioi], [ledo],
    [homework], built in the order of the source, and the table [RULES].
    [RULES[name]] is a lookup among the six keys of the object literal. *)
Definition buildRules : Result (Heap * gmap string addr) :=
  let* r1 := buildContestRule [] acm_def emptyObject in
  let '(h1, acm) := r1 in
  let* r2 := buildContestRule h1 oi_def emptyObject in
  let '(h2, oi) := r2 in
  let* r3 := buildContestRule h2 ioi_def (deref h2 oi) in
  let '(h3, ioi) := r3 in
  let* r4 := buildContestRule h3 strictioi_def (deref h3 ioi) in
  let '(h4, strictioi) := r4 in
  let* r5 := buildContestRule h4 ledo_def (deref h4 oi) in
  let '(h5, ledo) := r5 in
  let* r6 := buildContestRule h5 homework_def emptyObject in
  let '(h6, homework) := r6 in
  Ok (h6, list_to_map [("acm"%string, acm); ("oi"%string, oi);
                       ("homework"%string, homework); ("ioi"%string, ioi);
                       ("ledo"%string, ledo); ("strictioi"%string, strictioi)]).

Definition rulesHeap : Heap :=
  match buildRules with
  | Ok (h, _) => h
  | Throw _ => []
  end.

Definition RULES : gmap string addr :=
  match buildRules with
  | Ok (_, t) => t
  | Throw _ => ∅
  end.

(** ** Calling [stat] and [scoreboard] through a rule object *)

Inductive Stats :=
| StatsAcm (s : AcmStats)
| StatsOi (s : OiStats)
| StatsStrictioi (s : StrictStats)
| StatsLedo (s : LedoStats)
| StatsHomework (s : HomeworkStats).

Section Dispatch.
Context {imports : Imported}.

(** [!this.submitAfterAccept] reads a missing property as false. *)
Definition truthy (b : option bool) : bool := default false b.

(** The body [code] run with [this]: the returned statistics, and the
    journal array as the call leaves it, as far as [Jdoc] describes an
    entry.  Only the strict IOI body assigns to fields of [Jdoc].  [acm.stat]
    and [ledo.stat] copy an entry ([{ ...j }]) before they annotate it.
    [oi.stat] and [homework.stat] annotate entries of the journal itself
    ([npending]; [penaltyScore], [time]): those properties are read by no
    [stat], are not part of [Jdoc], and the journal returned here does not
    show them. *)
Definition run_stat (code : StatFn) (this : RuleObj) (tdoc : Tdoc) (now : Z)
    (journal : list Jdoc) : Result (Stats * list Jdoc) :=
  match code with
  | acm_stat_fn =>
      Ok (StatsAcm (acm_stat (truthy (r_submitAfterAccept this)) tdoc now journal),
          journal)
  | oi_stat_fn =>
      Ok (StatsOi (oi_stat (truthy (r_submitAfterAccept this)) tdoc now journal),
          journal)
  | strictioi_stat_fn =>
      let '(s, journal') := strictioi_stat tdoc journal in
      Ok (StatsStrictioi s, journal')
  | ledo_stat_fn => Ok (StatsLedo (ledo_stat tdoc journal), journal)
  | homework_stat_fn =>
      let* s := homework_stat tdoc journal in Ok (StatsHomework s, journal)
  end.

(** [h[a].stat(tdoc, journal)] *)
Definition call_stat (h : Heap) (a : addr) (tdoc : Tdoc) (now : Z)
    (journal : list Jdoc) : Result (Stats * list Jdoc) :=
  match h !! a with
  | None => Throw TypeError
  | Some obj =>
      match r_stat obj with
      | None => Throw TypeError
      | Some fn =>
          let '(code, t) := target a fn in
          match h !! t with
          | None => Throw TypeError
          | Some this => run_stat code this tdoc now journal
          end
      end
  end.

(** [RULES[name].stat(tdoc, journal)] with the journal it leaves behind. *)
Definition statInPlace (name : string) (tdoc : Tdoc) (now : Z) (journal : list Jdoc)
    : Result (Stats * list Jdoc) :=
  match RULES !! name with
  | None => Throw TypeError
  | Some a => call_stat rulesHeap a tdoc now journal
  end.

(** The value of [RULES[name].stat(tdoc, journal)]. *)
Definition stat (name : string) (tdoc : Tdoc) (now : Z) (journal : list Jdoc)
    : Result Stats :=
  let* r := statInPlace name tdoc now journal in Ok (fst r).

(** [_getStatusJournal(tsdoc)]: the journal sorted (stably) by submission
    instant. *)
Fixpoint insertByTime (j : Jdoc) (l : list Jdoc) : list Jdoc :=
  match l with
  | [] => [j]
  | x :: rest =>
      if getTimestamp (rid j) <=? getTimestamp (rid x) then j :: l
      else x :: insertByTime j rest
  end.
Definition _getStatusJournal (journal : list Jdoc) : list Jdoc :=
  foldr insertByTime [] journal.

(** One round of the loop of [recalcStatus] for a status document with the
    given journal: the [{ journal, ...stats }] that [revSetStatus] stores. *)
Definition recalcStatus (tdoc : Tdoc) (now : Z) (journal : list Jdoc)
    : Result (list Jdoc * Stats) :=
  let journal := _getStatusJournal journal in
  let* r := statInPlace (rule tdoc) tdoc now journal in
  Ok (snd r, fst r).
End Dispatch.

(** What a [scoreboard] body does with the rule object: the tie predicate it
    hands to [ranked], then one call of [this.scoreboardHeader] and one call
    of [this.scoreboardRow] per ranked standing.  Here a call is only
    recorded, with the body that runs, its [this], and the rank and standing
    it is given: this is the trace of the dispatch, not the outcome of the
    calls.  The bodies themselves, which can fail, are run by
    [run_scoreboardRows] further down. *)
Inductive Call :=
| CallHeader (code : ScoreboardHeaderFn) (this : addr)
| CallRow (code : ScoreboardRowFn) (this : addr) (rank : Z) (tsdoc : Tsdoc).

Definition scoreboardTie (code : ScoreboardFn) (a b : Tsdoc) : bool :=
  match code with
  | acm_scoreboard => strictEq (ts_score a) (ts_score b) && strictEq (ts_time a) (ts_time b)
  | oi_scoreboard => strictEq (ts_score a) (ts_score b)
  | homework_scoreboard => strictEq (ts_score a) (ts_score b)
  end.

(** [const rankedTsdocs = await ranked(cursor, ...)] *)
Definition rankedTsdocs (code : ScoreboardFn) (cursor : list Tsdoc) : list (Z * Tsdoc) :=
  ranked cursor (scoreboardTie code).

Definition run_scoreboard (h : Heap) (code : ScoreboardFn) (this : addr)
    (cursor : list Tsdoc) : Result (list Call) :=
  let rs := rankedTsdocs code cursor in
  match h !! this with
  | None => Throw TypeError
  | Some obj =>
      match r_scoreboardHeader obj with
      | None => Throw TypeError
      | Some hf =>
          let '(hc, ht) := target this hf in
          match rs, r_scoreboardRow obj with
          | [], _ => Ok [CallHeader hc ht]
          | _ :: _, None => Throw TypeError
          | _ :: _, Some rf =>
              let '(rc, rt) := target this rf in
              Ok (CallHeader hc ht :: map (fun x => CallRow rc rt (fst x) (snd x)) rs)
          end
      end
  end.

(** [h[a].scoreboard(config, _, tdoc, pdict, cursor)] *)
Definition call_scoreboard (h : Heap) (a : addr) (cursor : list Tsdoc) : Result (list Call) :=
  match h !! a with
  | None => Throw TypeError
  | Some obj =>
      match r_scoreboard obj with
      | None => Throw TypeError
      | Some fn => let '(code, t) := target a fn in run_scoreboard h code t cursor
      end
  end.

(** The status document that [revSetStatus(..., { journal, ...stats })]
    leaves for a participant whose statistics come from [acm.stat]: it has
    [accept] and [time], and no [score]. *)
Definition acm_tsdoc (u : Z) (s : AcmStats) : Tsdoc :=
  {| uid := u; startAt := None; ts_accept := Some (acm_accept s);
     ts_time := Some (acm_time s); ts_score := None |}.

(** ** Creating and editing a contest *)

(** Modelled from the spec: the contest collection behind [./document], whose
    source is not in the model file (spec 1 and 6: persistent storage of
    contest records is an external collaborator).  [document.add] stores a
    new record and returns its id, [document.get] reads one, [document.set]
    overwrites the given fields of one. *)
Definition Store := list Tdoc.

(** [$set: Partial<Tdoc>] *)
Record TdocSet := {
  set_rule : option string;
  set_beginAt : option Z;
  set_endAt : option Z;
  set_lockAt : option Z;
  set_unlocked : option bool;
  set_pids : option (list Z);
}.

(** [Object.assign(tdoc, $set)] *)
Definition assign (tdoc : Tdoc) (upd : TdocSet) : Tdoc :=
  {| rule := default (rule tdoc) (set_rule upd);
     beginAt := default (beginAt tdoc) (set_beginAt upd);
     endAt := default (endAt tdoc) (set_endAt upd);
     lockAt := orElse (set_lockAt upd) (lockAt tdoc);
     unlocked := default (unlocked tdoc) (set_unlocked upd);
     duration := duration tdoc;
     pids := default (pids tdoc) (set_pids upd);
     penaltySince := penaltySince tdoc;
     penaltyRules := penaltyRules tdoc |}.

Definition document_add (st : Store) (doc : Tdoc) : Store * nat := (st ++ [doc], length st).
Definition document_get (st : Store) (tid : nat) : option Tdoc := st !! tid.
Definition document_set (st : Store) (tid : nat) (upd : TdocSet) : Store :=
  alter (fun tdoc => assign tdoc upd) tid st.

(** The names that [RULES[name]] finds although the literal of [RULES] does
    not define them: the properties that every object literal inherits from
    [Object.prototype].  Each is a function or an object, so it is truthy,
    and none has a [check], [stat], [scoreboard], [ranked] or [show...]
    property: calling one on it is a [TypeError], as on a missing rule. *)
Definition Object_prototype : list string :=
  ["constructor"; "__defineGetter__"; "__defineSetter__"; "hasOwnProperty";
   "__lookupGetter__"; "__lookupSetter__"; "isPrototypeOf"; "propertyIsEnumerable";
   "toString"; "valueOf"; "__proto__"; "toLocaleString"]%string.

(** [RULES[name]] is truthy. *)
Definition hasRule (name : string) : bool :=
  bool_decide (is_Some (RULES !! name)) || bool_decide (name ∈ Object_prototype).

(** [RULES[name].check(data)] *)
Definition call_check (name : string) (data : Tdoc) : Result unit :=
  match RULES !! name with
  | None => Throw TypeError
  | Some a =>
      match r_check (deref rulesHeap a) with
      | None => Throw TypeError
      | Some check => check data
      end
  end.

(** [add(domainId, title, content, owner, rule, beginAt, endAt, pids, rated, data)];
    [data] carries the remaining configuration fields.  The notifications
    sent on the bus around [document.add] are not modelled. *)
Definition add (st : Store) (rule_ : string) (beginAt_ endAt_ : Z) (pids_ : list Z)
    (data : Tdoc) : Result (Store * nat) :=
  if negb (hasRule rule_) then Throw (ValidationError ["rule"%string])
  else if endAt_ <=? beginAt_ then Throw (ValidationError ["beginAt"%string; "endAt"%string])
  else
    let doc := {| rule := rule_; beginAt := beginAt_; endAt := endAt_;
                  lockAt := lockAt data; unlocked := unlocked data;
                  duration := duration data; pids := pids_;
                  penaltySince := penaltySince data;
                  penaltyRules := penaltyRules data |} in
    let* _ := call_check rule_ doc in
    Ok (document_add st doc).

(** [$set.rule && !RULES[$set.rule]]: an empty string is falsy. *)
Definition unknownRule (r : option string) : bool :=
  match r with
  | None => false
  | Some name => negb (bool_decide (name = ""%string)) && negb (hasRule name)
  end.

(** [$set.rule || tdoc.rule] *)
Definition ruleOr (r : option string) (stored : string) : string :=
  match r with
  | Some name => if bool_decide (name = ""%string) then stored else name
  | None => stored
  end.

(** [edit(domainId, tid, $set)] *)
Definition edit (st : Store) (tid : nat) (upd : TdocSet) : Result Store :=
  if unknownRule (set_rule upd) then Throw (ValidationError ["rule"%string])
  else
    match document_get st tid with
    | None => Throw ContestNotFoundError
    | Some tdoc =>
        let* _ := call_check (ruleOr (set_rule upd) (rule tdoc)) (assign tdoc upd) in
        Ok (document_set st tid upd)
    end.

(** [RULES[name].scoreboard(config, _, tdoc, pdict, cursor)], as
    [getScoreboard] calls it. *)
Definition scoreboard (name : string) (cursor : list Tsdoc) : Result (list Call) :=
  match RULES !! name with
  | None => Throw TypeError
  | Some a => call_scoreboard rulesHeap a cursor
  end.

(** [RULES[name].ranked(tdoc, cursor)] *)
Definition rankedBy (name : string) (cursor : list Tsdoc) : Result (list (Z * Tsdoc)) :=
  match RULES !! name with
  | None => Throw TypeError
  | Some a =>
      match r_ranked (deref rulesHeap a) with
      | None => Throw TypeError
      | Some f => Ok (f cursor)
      end
  end.

(** The ranks handed to the rows of a scoreboard, in order. *)
Definition rowRanks (calls : list Call) : list Z :=
  omap (fun c => match c with CallRow _ _ r _ => Some r | CallHeader _ _ => None end) calls.

(** ** Statements shared by the properties *)

(** What the properties that depend on the value of [**] take of the engine:
    an exponent 0 gives 1, as the language requires, and the result is within
    a relative error of 2^-45 of the power. *)
Definition exponentiateOk {imports : Imported} : Prop :=
  ∀ (x : Q) (k : Z), (0 < x)%Q → 0 ≤ k →
    (k = 0 → (exponentiate x k == 1)%Q)
    ∧ (x ^ k * (1 - pow2 (-45)) <= exponentiate x k)%Q
    ∧ (exponentiate x k <= x ^ k * (1 + pow2 (-45)))%Q.

(** The zero-value aggregate of each rule. *)
Definition zeroAggregate (s : Stats) : Prop :=
  match s with
  | StatsAcm a =>
      acm_accept a = 0 ∧ acm_time a = 0 ∧ acm_detail a = ∅ ∧ acm_display a = ∅
  | StatsOi o => oi_score o = 0 ∧ oi_detail o = ∅ ∧ oi_display o = ∅
  | StatsStrictioi t => strict_score t = 0 ∧ strict_detail t = ∅
  | StatsLedo l => ledo_score l = 0 ∧ ledo_originalScore l = 0 ∧ ledo_detail l = ∅
  | StatsHomework w =>
      hw_score w = 0 ∧ hw_penaltyScore w = (0#1)%Q ∧ hw_time w = 0 ∧ hw_detail w = ∅
  end.

(** A function literal of a rule definition, if the property is present:
    it has not been bound yet. *)
Definition isLiteral {C} (fn : option (Func C)) : bool :=
  match fn with
  | Some (Bound _ _) => false
  | _ => true
  end.

Definition isPresentLiteral {C} (fn : option (Func C)) : bool :=
  match fn with
  | Some (Unbound _) => true
  | _ => false
  end.

(** A rule definition as the source writes them: an object literal whose
    functions are function literals. *)
Definition literalDef (def : RuleObj) : bool :=
  isLiteral (r_scoreboard def) && isLiteral (r_scoreboardRow def)
  && isLiteral (r_scoreboardHeader def) && isLiteral (r_stat def).

(** A base rule as [buildContestRule] returns them: [_originalRule] holds the
    four original (unbound) functions. *)
Definition builtRule (baseRule : RuleObj) : bool :=
  match r_originalRule baseRule with
  | Some f =>
      isPresentLiteral (f_scoreboard f) && isPresentLiteral (f_scoreboardRow f)
      && isPresentLiteral (f_scoreboardHeader f) && isPresentLiteral (f_stat f)
  | None => false
  end.

(** The body of a function value. *)
Definition codeOf {C} (fn : option (Func C)) : option C :=
  match fn with
  | Some (Unbound c) => Some c
  | Some (Bound c _) => Some c
  | None => None
  end.

Section Counting.
Context {imports : Imported}.

(** The entries of [journal] on problem [p] whose status is neither accepted,
    compile error nor format error. *)
Definition rejectedAttempts (journal : list Jdoc) (p : Z) : Z :=
  Z.of_nat (length (filter (fun j => pid j = p ∧ isRejected (status j) = true) journal)).

(** The entries of [journal] on problem [p] whose status is neither compile
    error nor format error. *)
Definition validAttempts (journal : list Jdoc) (p : Z) : Z :=
  Z.of_nat (length (filter (fun j => pid j = p ∧ ledo_valid j = true) journal)).
End Counting.

(** *** The display channel *)

(** The [display] view of the statistics, for the rule bodies that return
    one ([acm.stat] and [oi.stat]); the other three return none. *)
Inductive Display :=
| DisplayAcm (m : gmap Z AcmDisplay)
| DisplayOi (m : gmap Z OiDisplay).

Definition displayOf (r : Result Stats) : option Display :=
  match r with
  | Ok (StatsAcm s) => Some (DisplayAcm (acm_display s))
  | Ok (StatsOi s) => Some (DisplayOi (oi_display s))
  | _ => None
  end.

(** A display value without its pending counter; an object that holds
    nothing but a pending counter disappears. *)
Definition acm_withoutPending (e : AcmDisplay) : option AcmDisplay :=
  match aq_shown e with
  | Some d => Some {| aq_shown := Some d; aq_npending := None |}
  | None => None
  end.

Definition oi_withoutPending (e : OiDisplay) : option OiDisplay :=
  match oq_shown e with
  | Some j => Some {| oq_shown := Some j; oq_npending := None |}
  | None => None
  end.

Definition withoutPending (d : Display) : Display :=
  match d with
  | DisplayAcm m => DisplayAcm (omap acm_withoutPending m)
  | DisplayOi m => DisplayOi (omap oi_withoutPending m)
  end.

(** The journal entries whose data a display shows. *)
Definition shownEntries (d : Display) : list Jdoc :=
  match d with
  | DisplayAcm m => ad_j <$> omap aq_shown (values m)
  | DisplayOi m => omap oq_shown (values m)
  end.

(** Every record that a [display] shows is of an entry submitted no later
    than [l]. *)
Definition acm_showsOnlyBefore (l : Z) (display : gmap Z AcmDisplay) : Prop :=
  ∀ p e d, display !! p = Some e → aq_shown e = Some d →
           getTimestamp (rid (ad_j d)) ≤ l.

Definition oi_showsOnlyBefore (l : Z) (display : gmap Z OiDisplay) : Prop :=
  ∀ p e j, display !! p = Some e → oq_shown e = Some j → getTimestamp (rid j) ≤ l.

(** The journal without the entries submitted strictly after [l]. *)
Definition truncateAt (l : Z) (journal : list Jdoc) : list Jdoc :=
  filter (fun j => getTimestamp (rid j) ≤ l) journal.

(** A journal is ordered by submission instant (the order that
    [_getStatusJournal] establishes before every call of [stat]). *)
Fixpoint timeOrdered (journal : list Jdoc) : bool :=
  match journal with
  | [] => true
  | j :: rest =>
      forallb (fun k => getTimestamp (rid j) <=? getTimestamp (rid k)) rest
      && timeOrdered rest
  end.

(** ** Example inputs *)

(** The examples use [sampleImports]; [wrongAnswer] is a status code other
    than the three of the table. *)
Definition accepted : Z := STATUS_ACCEPTED (Imported := sampleImports).
Definition wrongAnswer : Z := 2.

Definition entry (seconds p st sc : Z) (subs : list (Z * SubtaskResult)) : Jdoc :=
  {| rid := {| oid_seconds := seconds; oid_rest := 0 |}; pid := p; status := Num st;
     score := sc; subtasks := list_to_map subs |}.

Definition contest (name : string) (lock : option Z) (ps : list Z) : Tdoc :=
  {| rule := name; beginAt := 0; endAt := 18000000; lockAt := lock; unlocked := false;
     duration := None; pids := ps; penaltySince := None; penaltyRules := None |}.

(** A contest on problem 1 only, and a journal whose single (accepted) entry
    is on problem 2. *)
Definition foreignContest : Tdoc := contest "acm" None [1].
Definition foreignJournal : list Jdoc := [entry 10 2 accepted 100 []].

(** A strict IOI contest on problems 1 and 2, each with a single subtask
    numbered 1, and a journal with one submission on each problem: 10 points
    on problem 1, then 20 points on problem 2. *)
Definition strictContest : Tdoc := contest "strictioi" None [1; 2].
Definition strictJournal : list Jdoc :=
  [entry 10 1 wrongAnswer 10 [(1, {| st_score := 10; st_status := wrongAnswer |})];
   entry 20 2 wrongAnswer 20 [(1, {| st_score := 20; st_status := wrongAnswer |})]].

(** An ACM contest on problems 1 and 2.  The first participant solves both,
    40 and 60 seconds after the start; the second solves problem 1 only,
    100 seconds after the start. *)
Definition acmContest : Tdoc := contest "acm" None [1; 2].
Definition journalA : list Jdoc := [entry 40 1 accepted 100 []; entry 60 2 accepted 100 []].
Definition journalB : list Jdoc := [entry 100 1 accepted 100 []].
Definition standings : list Tsdoc :=
  [acm_tsdoc 1 (acm_stat (imports := sampleImports) false acmContest 200000 journalA);
   acm_tsdoc 2 (acm_stat (imports := sampleImports) false acmContest 200000 journalB)].

(** A stored contest, and an edit that moves its start after its end. *)
Definition storedContest : Tdoc := contest "acm" None [1].
Definition reversingEdit : TdocSet :=
  {| set_rule := None; set_beginAt := Some 200; set_endAt := Some 100;
     set_lockAt := None; set_unlocked := None; set_pids := None |}.

(** Two rejected attempts on problem 1, then an accepted one 300 seconds
    after the start. *)
Definition twoRejected : list Jdoc := [entry 100 1 wrongAnswer 0 []; entry 200 1 wrongAnswer 0 []].
Definition thirdAttempt : Jdoc := entry 300 1 accepted 100 [].

(** A Ledo contest on problem 1; three valid attempts, then a fourth with raw
    score 100. *)
Definition ledoContest : Tdoc := contest "ledo" None [1].
Definition threeTries : list Jdoc :=
  [entry 100 1 wrongAnswer 10 []; entry 200 1 wrongAnswer 20 []; entry 300 1 wrongAnswer 30 []].
Definition fourthTry : Jdoc := entry 400 1 accepted 100 [].

(** A frozen ACM contest on problem 1 (lock instant 1000 s, evaluated at
    2000 s), with one rejected entry before the lock and an accepted one
    after it. *)
Definition frozenContest : Tdoc := contest "acm" (Some 1000000) [1].
Definition frozenJournal : list Jdoc := [entry 500 1 wrongAnswer 0 []; entry 1500 1 accepted 100 []].

(** The heap when [strictioi] is built (it holds [acm], [oi], [ioi]), and
    the base rule [ioi]. *)
Definition heapBeforeStrictioi : Heap := take 3%nat rulesHeap.
Definition ioiRule : RuleObj := deref rulesHeap 2%nat.

(** ** Further lifecycle predicates *)

Section MoreLifecycle.
Context {imports : Imported}.

(** [Time.day], another member of [Time] whose value is not part of
    [contest.ts]. *)
Variable Time_day : Z.

(** [isNew(tdoc, days = 1)] *)
Definition isNew (tdoc : Tdoc) (days : Z) (now : Z) : bool :=
  now <? beginAt tdoc - days * Time_day.

(** [isUpcoming(tdoc, days = 7)] *)
Definition isUpcoming (tdoc : Tdoc) (days : Z) (now : Z) : bool :=
  (beginAt tdoc - days * Time_day <? now) && (now <? beginAt tdoc).

(** [statusText(tdoc, tsdoc)], with the default [days] of [isNew] and
    [isUpcoming]. *)
Definition statusText (tdoc : Tdoc) (tsdoc : option Tsdoc) (now : Z) : string :=
  if isNew tdoc 1 now then "New"
  else if isUpcoming tdoc 7 now then "Ready (☆▽☆)"
  else if isOngoing tdoc tsdoc now then "Live..."
  else "Done".
End MoreLifecycle.

(** [isExtended(tdoc)]; [getTime] of a missing [penaltySince] throws. *)
Definition isExtended (tdoc : Tdoc) (now : Z) : Result bool :=
  match penaltySince tdoc with
  | None => Throw TypeError
  | Some since => Ok ((since <=? now) && (now <? endAt tdoc))
  end.

(** ** Unlocking and visibility *)

(** [unlockScoreboard(domainId, tid)]; reading [lockAt] of a missing contest
    throws. *)
Definition unlockScoreboard (st : Store) (tid : nat) : Result Store :=
  match document_get st tid with
  | None => Throw TypeError
  | Some tdoc =>
      if negb (bool_decide (is_Some (lockAt tdoc))) || unlocked tdoc then Ok st
      else edit st tid {| set_rule := None; set_beginAt := None; set_endAt := None;
                          set_lockAt := None; set_unlocked := Some true;
                          set_pids := None |}
  end.

(** The two permissions that [canViewHiddenScoreboard] asks for, and the two
    methods of the user object that it calls. *)
Inductive Perm :=
| PERM_VIEW_HOMEWORK_HIDDEN_SCOREBOARD
| PERM_VIEW_CONTEST_HIDDEN_SCOREBOARD.

Record User := {
  own : Tdoc -> bool;
  hasPerm : Perm -> bool;
}.

Definition canViewHiddenScoreboard (user : User) (tdoc : Tdoc) : bool :=
  if own user tdoc then true
  else if bool_decide (rule tdoc = "homework"%string)
       then hasPerm user PERM_VIEW_HOMEWORK_HIDDEN_SCOREBOARD
       else hasPerm user PERM_VIEW_CONTEST_HIDDEN_SCOREBOARD.

(** [RULES[tdoc.rule].showRecord(tdoc, new Date())] and its two siblings;
    [show] selects the predicate. *)
Definition call_show (show : RuleObj -> option (Tdoc -> Z -> Z -> bool))
    (tdoc : Tdoc) (now : Z) : Result bool :=
  match RULES !! rule tdoc with
  | None => Throw TypeError
  | Some a =>
      match show (deref rulesHeap a) with
      | None => Throw TypeError
      | Some f => Ok (f tdoc now now)
      end
  end.

(** The common body of [canShowRecord], [canShowSelfRecord] and
    [canShowScoreboard]. *)
Definition canShow (show : RuleObj -> option (Tdoc -> Z -> Z -> bool))
    (user : User) (tdoc : Tdoc) (allowPermOverride : bool) (now : Z) : Result bool :=
  let* shown := call_show show tdoc now in
  Ok (if shown then true
      else if allowPermOverride && canViewHiddenScoreboard user tdoc then true
      else false).

Definition canShowRecord := canShow r_showRecord.
Definition canShowSelfRecord := canShow r_showSelfRecord.
Definition canShowScoreboard := canShow r_showScoreboard.

(** Errors of the functions that serve a request: the one [getScoreboard]
    raises itself, or one raised below it. *)
Inductive RequestError :=
| ContestScoreboardHiddenError (tid : nat)
| Raised (e : Error).

(** [get(domainId, tid)] *)
Definition get (st : Store) (tid : nat) : Result Tdoc :=
  match document_get st tid with
  | None => Throw ContestNotFoundError
  | Some tdoc => Ok tdoc
  end.

(** The rules under which a scoreboard freeze also hides the records. *)
Definition freezeHidesRecords (name : string) : bool :=
  bool_decide (name ∈ ["acm"; "oi"]%string).

(** The rules whose scoreboard opens when the contest begins, when it ends,
    or is always open. *)
Definition boardOpensAt (name : string) (tdoc : Tdoc) (now : Z) : bool :=
  if bool_decide (name = "homework"%string) then true
  else if bool_decide (name ∈ ["oi"; "strictioi"]%string) then endAt tdoc <? now
  else beginAt tdoc <? now.

(** A contest on problem 1 with a lock instant, stored alone. *)
Definition lockedStore : Store := [contest "acm" (Some 1000000) [1]].

(** A user who owns nothing and has no permission. *)
Definition guest : User := {| own := fun _ => false; hasPerm := fun _ => false |}.

(** A homework on problems 1 and 2 with penalties from [since] on: 5% off
    in the first hour, 10% off after one hour, 50% off after a day. *)
Definition assignment (since : Z) : Tdoc :=
  {| rule := "homework"; beginAt := 0; endAt := 18000000; lockAt := None;
     unlocked := false; duration := None; pids := [1; 2];
     penaltySince := Some since;
     penaltyRules := Some [(1#1, 9#10)%Q; (0#1, 95#100)%Q; (24#1, 1#2)%Q] |}.

(** The bodies that run when the scoreboard of a rule of the table is asked
    for: the [scoreboard] and [scoreboardHeader] written for [acm], for
    [homework], or else for [oi]; the [scoreboardRow] written for the rule
    itself, or for [oi] under [ioi]. *)
Definition boardOf (name : string) : ScoreboardFn :=
  if bool_decide (name = "acm"%string) then acm_scoreboard
  else if bool_decide (name = "homework"%string) then homework_scoreboard
  else oi_scoreboard.

Definition headerOf (name : string) : ScoreboardHeaderFn :=
  if bool_decide (name = "acm"%string) then acm_scoreboardHeader
  else if bool_decide (name = "homework"%string) then homework_scoreboardHeader
  else oi_scoreboardHeader.

Definition rowOf (name : string) : ScoreboardRowFn :=
  if bool_decide (name = "acm"%string) then acm_scoreboardRow
  else if bool_decide (name = "homework"%string) then homework_scoreboardRow
  else if bool_decide (name = "strictioi"%string) then strictioi_scoreboardRow
  else if bool_decide (name = "ledo"%string) then ledo_scoreboardRow
  else oi_scoreboardRow.

(** A user who owns every contest. *)
Definition owner : User := {| own := fun _ => true; hasPerm := fun _ => false |}.

(** The entries of a journal submitted at instant [t], in journal order. *)
Definition submittedAt (t : Z) (journal : list Jdoc) : list Jdoc :=
  filter (fun j => getTimestamp (rid j) = t) journal.

(** Every stored contest names a rule of the table. *)
Definition knownRules (st : Store) : Prop :=
  Forall (fun tdoc => is_Some (RULES !! rule tdoc)) st.

(** A [$set] whose [rule], if it has one, is empty or a rule of the table. *)
Definition namesRule (r : option string) : Prop :=
  match r with
  | Some name => name = ""%string ∨ is_Some (RULES !! name)
  | None => True
  end.

(** A [$set] that leaves every field alone. *)
Definition noChange : TdocSet :=
  {| set_rule := None; set_beginAt := None; set_endAt := None; set_lockAt := None;
     set_unlocked := None; set_pids := None |}.


(** Each of the four functions that [buildContestRule] binds is supplied by
    the definition or by the originals of the base rule. *)
Definition providesFunctions (def baseRule : RuleObj) : bool :=
  let base := default emptyFuncs (r_originalRule baseRule) in
  bool_decide (is_Some (orElse (r_scoreboard def) (f_scoreboard base)))
  && bool_decide (is_Some (orElse (r_scoreboardRow def) (f_scoreboardRow base)))
  && bool_decide (is_Some (orElse (r_scoreboardHeader def) (f_scoreboardHeader base)))
  && bool_decide (is_Some (orElse (r_stat def) (f_stat base))).

(** A display value that shows a record and counts nothing pending. *)
Definition acm_shows (d : AcmDetail) : AcmDisplay :=
  {| aq_shown := Some d; aq_npending := None |}.

Definition oi_shows (j : Jdoc) : OiDisplay :=
  {| oq_shown := Some j; oq_npending := None |}.

(** The entries of a journal on problem [p], in journal order. *)
Definition entriesOn (p : Z) (journal : list Jdoc) : list Jdoc :=
  filter (fun j => pid j = p) journal.

(** The subtask results collected from the entries of a journal, starting
    from [acc]: what the inner loop of [strictioi.stat] has written into its
    accumulator after those entries. *)
Definition collectSubtasks (acc : gmap Z SubtaskResult) (journal : list Jdoc)
    : gmap Z SubtaskResult :=
  fold_left (fun acc j => mergeSubtasks acc (subtasks j)) journal acc.

(** [st] is the best result that the entries of a journal hold for subtask
    [i]: some entry holds it, and no entry holds a higher score for [i]. *)
Definition bestResult (journal : list Jdoc) (i : Z) (st : SubtaskResult) : Prop :=
  (∃ j, j ∈ journal ∧ subtasks j !! i = Some st)
  ∧ ∀ j st', j ∈ journal → subtasks j !! i = Some st' → st_score st' ≤ st_score st.

(** A penalty rule is due [exceedSeconds] after [penaltySince]:
    [i * 3600 <= exceedSeconds]. *)
Definition due (exceedSeconds : Z) (kv : Q * Q) : bool :=
  Qle_bool (fmul (fst kv) 3600) (inject_Z exceedSeconds).

(** The hour offsets of a penalty table are in ascending order. *)
Fixpoint keysAscending (l : list (Q * Q)) : Prop :=
  match l with
  | [] => True
  | kv :: rest => Forall (fun x => (fst kv <= fst x)%Q) rest ∧ keysAscending rest
  end.

(** ** The cells of a scoreboard *)

(** A JavaScript value as a cell of the scoreboard holds it.  [JRecords] is
    the array of two [{ value, raw }] objects of a cell of type
    ['records']. *)
Inductive Js :=
| JUndefined
| JNull
| JStr (s : string)
| JNum (z : Z)
| JFrac (q : Q)
| JRid (r : ObjectId)
| JRecords (value1 raw1 value2 raw2 : Js).

(** A [ScoreboardNode]; a property that the object literal does not
    mention is [JUndefined]. *)
Record ScoreboardNode := {
  n_type : string;
  n_value : Js;
  n_raw : Js;
  n_hover : Js;
  n_style : Js;
  n_score : Js;
}.

(** [{ type, value }] *)
Definition node (t : string) (v : Js) : ScoreboardNode :=
  {| n_type := t; n_value := v; n_raw := JUndefined; n_hover := JUndefined;
     n_style := JUndefined; n_score := JUndefined |}.

(** [{ type, value, raw }] *)
Definition nodeRaw (t : string) (v raw : Js) : ScoreboardNode :=
  {| n_type := t; n_value := v; n_raw := raw; n_hover := JUndefined;
     n_style := JUndefined; n_score := JUndefined |}.

(** Names that the header and row bodies only refer to: the translation
    function [_] they are handed, [String.prototype.format] and
    [formatSeconds] (from [@hydrooj/utils]), [String.fromCharCode], the
    conversion of a number to a string (by a template literal or
    [toString]) and what a template literal prints for an entry of
    [STATUS_SHORT_TEXTS] (from [./builtin]).  Their results are not part of
    [contest.ts]; the development is parametric in them. *)
Class Rendering := {
  translate : string -> string;
  format : string -> list Js -> string;
  formatSeconds : option Z -> option bool -> string;
  fromCharCode : Z -> string;
  toStr : Z -> string;
  STATUS_SHORT_TEXTS : Z -> string;
}.

(** [config: ScoreboardConfig] *)
Record ScoreboardConfig := {
  isExport : bool;
  cfg_lockAt : option Z;
}.

(** A problem document of [pdict]: its title and the two counters that the
    scoreboard maintains.  A counter that is not a number ([undefined], or
    the [NaN] that incrementing [undefined] leaves) is [None]. *)
Record Pdoc := {
  title : string;
  nSubmit : option Z;
  nAccept : option Z;
}.

(** A user document of [udict]. *)
Record Udoc := {
  uname : string;
  mail : string;
  school : option string;
  displayName : option string;
  studentId : option string;
}.

(** A problem status document of [meta.psdict]. *)
Record Psdoc := {
  ps_rid : option ObjectId;
  ps_score : option Z;
}.

(** [meta]: the first accepted instant per problem (a value that is not a
    whole number of milliseconds equals no timestamp, like a missing one),
    and the participants' later results keyed by
    [`${uid}/${domainId}/${pid}`], of which the rows of a contest read the
    keys of the contest's own domain. *)
Record Meta := {
  first : option (gmap Z Z);
  psdict : option (gmap (Z * Z) Psdoc);
}.

(** A value of [tsdoc.detail] or [tsdoc.display], with the properties that
    the row bodies read; every one may be missing. *)
Record Cell := {
  c_rid : option ObjectId;
  c_status : option num;
  c_score : option Z;
  c_subtasks : option (gmap Z SubtaskResult);
  c_naccept : option Z;
  c_npending : option Z;
  c_penalty : option Z;
  c_real : option Z;
  c_time : option Z;
  c_penaltyScore : option Q;
  c_ntry : option Z;
}.

(** [{}] *)
Definition emptyCell : Cell :=
  {| c_rid := None; c_status := None; c_score := None; c_subtasks := None;
     c_naccept := None; c_npending := None; c_penalty := None; c_real := None;
     c_time := None; c_penaltyScore := None; c_ntry := None |}.

(** A participant status document as the row bodies read it: the fields of
    [Tsdoc], the journal, and what [stat] returned. *)
Record Standing := {
  sd_doc : Tsdoc;
  sd_journal : option (list Jdoc);
  sd_detail : option (gmap Z Cell);
  sd_display : option (gmap Z Cell);
  sd_penaltyScore : option Q;
  sd_originalScore : option Z;
}.

(** The characters that a string literal of this development cannot hold. *)
Definition newline : string := String (Ascii.ascii_of_nat 10) EmptyString.
Definition quote : string := String (Ascii.ascii_of_nat 34) EmptyString.

(** ['<span class="icon icon-check"></span>'] *)
Definition checkIcon : string :=
  "<span class=" +:+ quote +:+ "icon icon-check" +:+ quote +:+ "></span>".

(** ['background-color: rgb(217, 240, 199);'] *)
Definition firstAccepted : Js := JStr "background-color: rgb(217, 240, 199);".

Definition ofZ (o : option Z) : Js :=
  match o with
  | Some z => JNum z
  | None => JUndefined
  end.

Definition ofQ (o : option Q) : Js :=
  match o with
  | Some q => JFrac q
  | None => JUndefined
  end.

Definition ofRid (o : option ObjectId) : Js :=
  match o with
  | Some r => JRid r
  | None => JUndefined
  end.

(** The truthiness of a possibly missing object *)
Definition present {A} (o : option A) : bool :=
  match o with
  | Some _ => true
  | None => false
  end.

(** [x || 0] on a possibly missing number *)
Definition orZero (o : option Z) : Z := default 0 o.

(** [x ? ... : ...] on a possibly missing number *)
Definition nonZero (o : option Z) : bool :=
  match o with
  | Some z => negb (z =? 0)
  | None => false
  end.

(** [l.join(',')] *)
Fixpoint join (l : list string) : string :=
  match l with
  | [] => ""
  | [s] => s
  | s :: rest => s +:+ "," +:+ join rest
  end.

(** [meta?.first?.[pid]] *)
Definition metaFirst (meta : option Meta) (p : Z) : option Z :=
  match meta with
  | Some m => match first m with
              | Some f => f !! p
              | None => None
              end
  | None => None
  end.

(** [meta?.psdict?.[index]] for the index of user [u] and problem [p] *)
Definition metaPsdoc (meta : option Meta) (u p : Z) : option Psdoc :=
  match meta with
  | Some m => match psdict m with
              | Some d => d !! (u, p)
              | None => None
              end
  | None => None
  end.

Section Rendering.
Context {imports : Imported} {rendering : Rendering}.

(** [`<span style="color:orange">+${n}</span>`] *)
Definition pendingBadge (n : Z) : string :=
  "<span style=" +:+ quote +:+ "color:orange" +:+ quote +:+ ">+"
  +:+ toStr n +:+ "</span>".

(** [status === STATUS.STATUS_ACCEPTED] on a possibly missing status *)
Definition accepts (s : option num) : bool :=
  match s with
  | Some s => isAccepted s
  | None => false
  end.

(** *** Headers *)

(** The four columns pushed [if (config.isExport)] by the headers of [acm]
    and [oi]. *)
Definition exportColumns : list ScoreboardNode :=
  [node "email" (JStr (translate "Email")); node "string" (JStr (translate "School"));
   node "string" (JStr (translate "Name")); node "string" (JStr (translate "Student ID"))].

(** The loop [for (let i = 1; i <= tdoc.pids.length; i++)] of the three
    headers.  [pdict[pid].nAccept = pdict[pid].nSubmit = 0] throws when the
    problem is missing from [pdict]; [cols i pid pdoc] are the columns pushed
    for the [i]-th problem. *)
Fixpoint headerLoop (cols : Z -> Z -> Pdoc -> list ScoreboardNode) (i : Z) (ps : list Z)
    (pdict : gmap Z Pdoc) (columns : list ScoreboardNode)
    : Result (list ScoreboardNode * gmap Z Pdoc) :=
  match ps with
  | [] => Ok (columns, pdict)
  | p :: rest =>
      match pdict !! p with
      | None => Throw TypeError
      | Some d =>
          let d' := {| title := title d; nSubmit := Some 0; nAccept := Some 0 |} in
          headerLoop cols (i + 1) rest (<[p := d']> pdict) (columns ++ cols i p d')
      end
  end.

(** [acm.scoreboardHeader(config, _, tdoc, pdict)]: the columns, and [pdict]
    as the call leaves it. *)
Definition acm_scoreboardHeader_body (config : ScoreboardConfig) (tdoc : Tdoc)
    (pdict : gmap Z Pdoc) : Result (list ScoreboardNode * gmap Z Pdoc) :=
  let columns :=
    [node "rank" (JStr "#"); node "user" (JStr (translate "User"))]
    ++ (if isExport config then exportColumns else [])
    ++ [node "solved" (JStr (translate "Solved" +:+ newline +:+ translate "Total Time"))] in
  headerLoop
    (fun i p d =>
       if isExport config
       then [node "string" (JStr (format "#{0} {1}" [JNum i; JStr (title d)]));
             node "time" (JStr (format "#{0} {1}"
                                  [JNum i; JStr (translate "Penalty (Minutes)")]))]
       else [nodeRaw "problem" (JStr (fromCharCode (65 + i - 1))) (JNum p)])
    1 (pids tdoc) pdict columns.

(** [oi.scoreboardHeader(config, _, tdoc, pdict)] *)
Definition oi_scoreboardHeader_body (config : ScoreboardConfig) (tdoc : Tdoc)
    (pdict : gmap Z Pdoc) : Result (list ScoreboardNode * gmap Z Pdoc) :=
  let columns :=
    [node "rank" (JStr "#"); node "user" (JStr (translate "User"))]
    ++ (if isExport config then exportColumns else [])
    ++ [node "total_score" (JStr (translate "Total Score"))] in
  headerLoop
    (fun i p d =>
       if isExport config
       then [node "string" (JStr (format "#{0} {1}" [JNum i; JStr (title d)]))]
       else [nodeRaw "problem" (JStr (fromCharCode (65 + i - 1))) (JNum p)])
    1 (pids tdoc) pdict columns.

(** [homework.scoreboardHeader(config, _, tdoc, pdict)] *)
Definition homework_scoreboardHeader_body (config : ScoreboardConfig) (tdoc : Tdoc)
    (pdict : gmap Z Pdoc) : Result (list ScoreboardNode * gmap Z Pdoc) :=
  let columns :=
    [node "rank" (JStr (translate "Rank")); node "user" (JStr (translate "User"));
     node "total_score" (JStr (translate "Score"))]
    ++ (if isExport config then [node "string" (JStr (translate "Original Score"))] else [])
    ++ [node "time" (JStr (translate "Total Time"))] in
  headerLoop
    (fun i p d =>
       if isExport config
       then [node "string" (JStr (format "#{0} {1}" [JNum i; JStr (title d)]));
             node "string" (JStr (format "#{0} {1}"
                                    [JNum i; JStr (translate "Original Score")]));
             node "time" (JStr (format "#{0} {1}"
                                  [JNum i; JStr (translate "Time (Seconds)")]))]
       else [nodeRaw "problem" (JStr (fromCharCode (65 + i - 1))) (JNum p)])
    1 (pids tdoc) pdict columns.

(** *** Rows *)

(** [{ type: 'rank', value: rank.toString() }] and
    [{ type: 'user', value: udoc.uname, raw: tsdoc.uid }] *)
Definition rankAndUser (udoc : Udoc) (rank : Z) (tsdoc : Standing) : list ScoreboardNode :=
  [node "rank" (JStr (toStr rank));
   nodeRaw "user" (JStr (uname udoc)) (JNum (uid (sd_doc tsdoc)))].

(** The four cells pushed [if (config.isExport)] by the rows of [acm], [oi],
    [strictioi] and [ledo]. *)
Definition exportCells (udoc : Udoc) : list ScoreboardNode :=
  [node "email" (JStr (mail udoc));
   node "string" (JStr (default "" (school udoc)));
   node "string" (JStr (default "" (displayName udoc)));
   node "string" (JStr (default "" (studentId udoc)))].

(** One round of [for (const s of tsdoc.journal || [])] once its guards are
    passed: [pdict[s.pid].nSubmit++] and, for an accepted entry,
    [pdict[s.pid].nAccept++]; an entry whose problem is not in [pdict] is
    skipped. *)
Definition countEntry (pdict : gmap Z Pdoc) (s : Jdoc) : gmap Z Pdoc :=
  match pdict !! pid s with
  | None => pdict
  | Some d =>
      <[pid s := {| title := title d;
                    nSubmit := (fun n => n + 1) <$> nSubmit d;
                    nAccept := if isAccepted (status s)
                               then (fun n => n + 1) <$> nAccept d
                               else nAccept d |}]> pdict
  end.

(** The loop over the journal; the rows of [acm] and [oi] skip the entries
    submitted after [config.lockAt] ([lock] is [config.lockAt] for them and
    [None] for the other rows). *)
Definition countJournal (lock : option Z) (pdict : gmap Z Pdoc)
    (journal : option (list Jdoc)) : gmap Z Pdoc :=
  fold_left (fun pd s => if afterLock lock s then pd else countEntry pd s)
            (default [] journal) pdict.

(** [(config.lockAt ? tsdoc.display : tsdoc.detail) || {}] *)
Definition shownDict (config : ScoreboardConfig) (tsdoc : Standing) : gmap Z Cell :=
  default ∅ (if present (cfg_lockAt config) then sd_display tsdoc else sd_detail tsdoc).

(** [tsdoc.detail || {}] *)
Definition detailDict (tsdoc : Standing) : gmap Z Cell := default ∅ (sd_detail tsdoc).

(** [accepted && doc.rid.getTimestamp().getTime() === meta?.first?.[pid]]:
    reading the timestamp of a missing [rid] throws. *)
Definition isFirst (meta : option Meta) (p : Z) (doc : Cell) : Result bool :=
  if accepts (c_status doc) then
    match c_rid doc with
    | None => Throw TypeError
    | Some r => Ok (bool_decide (metaFirst meta p = Some (getTimestamp r)))
    end
  else Ok false.

(** The cells pushed by [for (const pid of tdoc.pids)], given what one round
    pushes. *)
Fixpoint problemCells (cells : Z -> Result (list ScoreboardNode)) (ps : list Z)
    : Result (list ScoreboardNode) :=
  match ps with
  | [] => Ok []
  | p :: rest =>
      let* here := cells p in
      let* others := problemCells cells rest in
      Ok (here ++ others)
  end.

(** What a template literal prints for a possibly missing number *)
Definition printed (o : option Z) : string :=
  match o with
  | Some z => toStr z
  | None => "undefined"
  end.

(** [Math.ceil(doc.penalty / 60).toString()] *)
Definition penaltyMinutes (penalty : option Z) : string :=
  match penalty with
  | Some p => toStr (- ((- p) `div` 60))
  | None => "NaN"
  end.

(** One round of the last loop of [acm.scoreboardRow]. *)
Definition acm_problemCell (config : ScoreboardConfig) (meta : option Meta)
    (tsddict : gmap Z Cell) (p : Z) : Result (list ScoreboardNode) :=
  let doc := default emptyCell (tsddict !! p) in
  let accept := accepts (c_status doc) in
  let colTime := if accept then formatSeconds (c_real doc) (Some false) else "" in
  let colPenalty := if present (c_rid doc) then penaltyMinutes (c_penalty doc) else "" in
  if isExport config then
    Ok [node "string" (JStr colTime); node "string" (JStr colPenalty)]
  else
    let value := if present (c_rid doc) then "-" +:+ printed (c_naccept doc) else "" in
    let value :=
      if accept then
        (if nonZero (c_naccept doc) then "+" +:+ printed (c_naccept doc) else checkIcon)
        +:+ newline +:+ colTime
      else if nonZero (c_npending doc) then
        value +:+ (if bool_decide (value = "") then "" else " ")
        +:+ pendingBadge (orZero (c_npending doc))
      else value in
    let* isfirst := isFirst meta p doc in
    Ok [{| n_type := "record";
           n_value := JStr value;
           n_raw := ofRid (c_rid doc);
           n_hover := JStr (if accept then formatSeconds (c_time doc) None else "");
           n_style := if isfirst then firstAccepted else JUndefined;
           n_score := JNum (if accept then 100 else 0) |}].

(** [acm.scoreboardRow(config, _, tdoc, pdict, udoc, rank, tsdoc, meta)]:
    the row, and [pdict] as the call leaves it.  Reading [udoc.uname] of a
    missing user document throws. *)
Definition acm_scoreboardRow_body (config : ScoreboardConfig) (tdoc : Tdoc)
    (pdict : gmap Z Pdoc) (udoc : option Udoc) (rank : Z) (tsdoc : Standing)
    (meta : option Meta) : Result (list ScoreboardNode * gmap Z Pdoc) :=
  match udoc with
  | None => Throw TypeError
  | Some udoc =>
      let row :=
        rankAndUser udoc rank tsdoc
        ++ (if isExport config then exportCells udoc else [])
        ++ [{| n_type := "time";
               n_value := JStr (toStr (orZero (ts_accept (sd_doc tsdoc)))
                                +:+ newline
                                +:+ formatSeconds (Some (orZero (ts_time (sd_doc tsdoc))))
                                      (Some false));
               n_raw := JUndefined;
               n_hover := JStr (formatSeconds (Some (orZero (ts_time (sd_doc tsdoc)))) None);
               n_style := JUndefined; n_score := JUndefined |}] in
      let pdict := countJournal (cfg_lockAt config) pdict (sd_journal tsdoc) in
      let* cells := problemCells (acm_problemCell config meta (shownDict config tsdoc))
                      (pids tdoc) in
      Ok (row ++ cells, pdict)
  end.

(** [x ?? '-'] on a possibly missing score *)
Definition scoreOrDash (o : option Z) : Js :=
  match o with
  | Some z => JNum z
  | None => JStr "-"
  end.

(** [`${x ?? '-'}`] *)
Definition printedOrDash (o : option Z) : string :=
  match o with
  | Some z => toStr z
  | None => "-"
  end.

(** One round of the last loop of [oi.scoreboardRow]; [done] is
    [isDone(tdoc)]. *)
Definition oi_problemCell (config : ScoreboardConfig) (meta : option Meta)
    (done : bool) (u : Z) (tsddict : gmap Z Cell) (p : Z) : Result (list ScoreboardNode) :=
  let doc := default emptyCell (tsddict !! p) in
  let later := metaPsdoc meta u p in
  let laterRid := match later with Some d => ps_rid d | None => None end in
  let laterScore := match later with Some d => ps_score d | None => None end in
  let node :=
    if negb (isExport config)
       && negb (bool_decide (is_Some (cfg_lockAt config)))
       && done
       && bool_decide (is_Some laterRid)
       && negb (bool_decide (c_rid doc = laterRid))
    then
      {| n_type := "records"; n_value := JStr "";
         n_raw := JRecords (scoreOrDash (c_score doc))
                           (match c_rid doc with Some r => JRid r | None => JNull end)
                           (scoreOrDash laterScore)
                           (match laterRid with Some r => JRid r | None => JNull end);
         n_hover := JUndefined; n_style := JUndefined; n_score := JUndefined |}
    else
      {| n_type := "record";
         n_value := JStr (printedOrDash (c_score doc)
                          +:+ (if nonZero (c_npending doc)
                               then pendingBadge (orZero (c_npending doc)) else ""));
         n_raw := match c_rid doc with Some r => JRid r | None => JNull end;
         n_hover := JUndefined; n_style := JUndefined; n_score := JUndefined |} in
  let* isfirst := isFirst meta p doc in
  Ok [if isfirst
      then {| n_type := n_type node; n_value := n_value node; n_raw := n_raw node;
              n_hover := n_hover node; n_style := firstAccepted; n_score := n_score node |}
      else node].

(** [oi.scoreboardRow(config, _, tdoc, pdict, udoc, rank, tsdoc, meta)], the
    row body of [oi] and [ioi]; [now] is the clock that [isDone] reads. *)
Definition oi_scoreboardRow_body (config : ScoreboardConfig) (tdoc : Tdoc)
    (pdict : gmap Z Pdoc) (udoc : option Udoc) (rank : Z) (tsdoc : Standing)
    (meta : option Meta) (now : Z) : Result (list ScoreboardNode * gmap Z Pdoc) :=
  match udoc with
  | None => Throw TypeError
  | Some udoc =>
      let row :=
        rankAndUser udoc rank tsdoc
        ++ (if isExport config then exportCells udoc else [])
        ++ [node "total_score" (JNum (orZero (ts_score (sd_doc tsdoc))))] in
      let pdict := countJournal (cfg_lockAt config) pdict (sd_journal tsdoc) in
      let* cells :=
        problemCells (oi_problemCell config meta (isDone tdoc None now)
                        (uid (sd_doc tsdoc)) (shownDict config tsdoc))
                     (pids tdoc) in
      Ok (row ++ cells, pdict)
  end.

(** [x || ''] on a possibly missing score *)
Definition scoreOrEmpty (o : option Z) : Js :=
  match o with
  | Some z => if z =? 0 then JStr "" else JNum z
  | None => JStr ""
  end.

(** One round of the last loop of [strictioi.scoreboardRow]. *)
Definition strictioi_problemCell (meta : option Meta) (tsddict : gmap Z Cell) (p : Z)
    : Result (list ScoreboardNode) :=
  let doc := default emptyCell (tsddict !! p) in
  let* isfirst := isFirst meta p doc in
  Ok [{| n_type := "record";
         n_value := scoreOrEmpty (c_score doc);
         n_raw := ofRid (c_rid doc);
         n_hover :=
           JStr (join ((fun i => STATUS_SHORT_TEXTS (st_status i) +:+ " "
                                 +:+ toStr (st_score i))
                       <$> valuesAscending (default ∅ (c_subtasks doc))));
         n_style := if isfirst then firstAccepted else JUndefined;
         n_score := JUndefined |}].

(** [strictioi.scoreboardRow(config, _, tdoc, pdict, udoc, rank, tsdoc, meta)] *)
Definition strictioi_scoreboardRow_body (config : ScoreboardConfig) (tdoc : Tdoc)
    (pdict : gmap Z Pdoc) (udoc : option Udoc) (rank : Z) (tsdoc : Standing)
    (meta : option Meta) : Result (list ScoreboardNode * gmap Z Pdoc) :=
  match udoc with
  | None => Throw TypeError
  | Some udoc =>
      let row :=
        rankAndUser udoc rank tsdoc
        ++ (if isExport config then exportCells udoc else [])
        ++ [node "total_score" (JNum (orZero (ts_score (sd_doc tsdoc))))] in
      let pdict := countJournal None pdict (sd_journal tsdoc) in
      let* cells := problemCells (strictioi_problemCell meta (detailDict tsdoc))
                      (pids tdoc) in
      Ok (row ++ cells, pdict)
  end.

(** [x || ''] on a possibly missing penalised score *)
Definition penaltyOrEmpty (o : option Q) : Js :=
  match o with
  | Some q => if Qeq_bool q 0 then JStr "" else JFrac q
  | None => JStr ""
  end.

(** [`-${ntry} (${Math.round(Math.max(0.7, 0.95 ** ntry) * 100)}%)`] *)
Definition retryNote (ntry : Z) : string :=
  "-" +:+ toStr ntry +:+ " ("
  +:+ toStr (Math_round (fmul (ledo_coefficient ntry) 100)) +:+ "%)".

(** One round of the last loop of [ledo.scoreboardRow]. *)
Definition ledo_problemCell (meta : option Meta) (tsddict : gmap Z Cell) (p : Z)
    : Result (list ScoreboardNode) :=
  let doc := default emptyCell (tsddict !! p) in
  let* isfirst := isFirst meta p doc in
  Ok [{| n_type := "record";
         n_value := penaltyOrEmpty (c_penaltyScore doc);
         n_raw := ofRid (c_rid doc);
         n_hover := JStr (if nonZero (c_ntry doc) then retryNote (orZero (c_ntry doc))
                          else "");
         n_style := if isfirst then firstAccepted else JUndefined;
         n_score := JUndefined |}].

(** [ledo.scoreboardRow(config, _, tdoc, pdict, udoc, rank, tsdoc, meta)] *)
Definition ledo_scoreboardRow_body (config : ScoreboardConfig) (tdoc : Tdoc)
    (pdict : gmap Z Pdoc) (udoc : option Udoc) (rank : Z) (tsdoc : Standing)
    (meta : option Meta) : Result (list ScoreboardNode * gmap Z Pdoc) :=
  match udoc with
  | None => Throw TypeError
  | Some udoc =>
      let row :=
        rankAndUser udoc rank tsdoc
        ++ (if isExport config then exportCells udoc else [])
        ++ [{| n_type := "total_score";
               n_value := JNum (orZero (ts_score (sd_doc tsdoc)));
               n_raw := JUndefined;
               n_hover :=
                 JStr (if bool_decide (ts_score (sd_doc tsdoc) = sd_originalScore tsdoc)
                       then ""
                       else format (translate "Original score: {0}")
                              [ofZ (sd_originalScore tsdoc)]);
               n_style := JUndefined; n_score := JUndefined |}] in
      let pdict := countJournal None pdict (sd_journal tsdoc) in
      let* cells := problemCells (ledo_problemCell meta (detailDict tsdoc)) (pids tdoc) in
      Ok (row ++ cells, pdict)
  end.

(** [x ?? ''] *)
Definition penaltyOrBlank (o : option Q) : Js :=
  match o with
  | Some q => JFrac q
  | None => JStr ""
  end.

Definition scoreOrBlank (o : option Z) : Js :=
  match o with
  | Some z => JNum z
  | None => JStr ""
  end.

(** [colScore === colOriginalScore]: two numbers of the same value, or two
    empty strings. *)
Definition sameScore (penaltyScore : option Q) (score_ : option Z) : bool :=
  match penaltyScore, score_ with
  | Some q, Some z => Qeq_bool q (inject_Z z)
  | None, None => true
  | _, _ => false
  end.

(** One round of the last loop of [homework.scoreboardRow]. *)
Definition homework_problemCell (config : ScoreboardConfig) (tsddict : gmap Z Cell) (p : Z)
    : Result (list ScoreboardNode) :=
  let doc := default emptyCell (tsddict !! p) in
  let colScore := penaltyOrBlank (c_penaltyScore doc) in
  let colOriginalScore := scoreOrBlank (c_score doc) in
  let colTime := if nonZero (c_time doc) then JNum (orZero (c_time doc)) else JStr "" in
  let colTimeStr := if nonZero (c_time doc) then formatSeconds (c_time doc) (Some false)
                    else "" in
  if isExport config then
    Ok [node "string" colScore; node "string" colOriginalScore; node "time" colTime]
  else
    Ok [{| n_type := "record";
           n_value :=
             JStr (if sameScore (c_penaltyScore doc) (c_score doc)
                   then format ("{0}" +:+ newline +:+ "{1}") [colScore; JStr colTimeStr]
                   else format ("{0} / {1}" +:+ newline +:+ "{2}")
                          [colScore; colOriginalScore; JStr colTimeStr]);
           n_raw := ofRid (c_rid doc);
           n_hover := JUndefined; n_style := JUndefined;
           n_score := match c_penaltyScore doc with
                      | Some q => if Qeq_bool q 0 then JNum 0 else JFrac q
                      | None => JNum 0
                      end |}].

(** [homework.scoreboardRow(config, _, tdoc, pdict, udoc, rank, tsdoc)] *)
Definition homework_scoreboardRow_body (config : ScoreboardConfig) (tdoc : Tdoc)
    (pdict : gmap Z Pdoc) (udoc : option Udoc) (rank : Z) (tsdoc : Standing)
    : Result (list ScoreboardNode * gmap Z Pdoc) :=
  match udoc with
  | None => Throw TypeError
  | Some udoc =>
      let row :=
        rankAndUser udoc rank tsdoc
        ++ [node "string" (match sd_penaltyScore tsdoc with
                           | Some q => if Qeq_bool q 0 then JNum 0 else JFrac q
                           | None => JNum 0
                           end)]
        ++ (if isExport config
            then [node "string" (JNum (orZero (ts_score (sd_doc tsdoc))))] else [])
        ++ [nodeRaw "time"
              (JStr (formatSeconds (Some (orZero (ts_time (sd_doc tsdoc)))) (Some false)))
              (ofZ (ts_time (sd_doc tsdoc)))] in
      let pdict := countJournal None pdict (sd_journal tsdoc) in
      let* cells := problemCells (homework_problemCell config (detailDict tsdoc))
                      (pids tdoc) in
      Ok (row ++ cells, pdict)
  end.

(** *** Running the bodies *)

(** The header body [code] run on [(config, _, tdoc, pdict)]. *)
Definition run_scoreboardHeader (code : ScoreboardHeaderFn) (config : ScoreboardConfig)
    (tdoc : Tdoc) (pdict : gmap Z Pdoc) : Result (list ScoreboardNode * gmap Z Pdoc) :=
  match code with
  | acm_scoreboardHeader => acm_scoreboardHeader_body config tdoc pdict
  | oi_scoreboardHeader => oi_scoreboardHeader_body config tdoc pdict
  | homework_scoreboardHeader => homework_scoreboardHeader_body config tdoc pdict
  end.

(** The row body [code] run on
    [(config, _, tdoc, pdict, udoc, rank, tsdoc, meta)]. *)
Definition run_scoreboardRow (code : ScoreboardRowFn) (config : ScoreboardConfig)
    (tdoc : Tdoc) (pdict : gmap Z Pdoc) (udoc : option Udoc) (rank : Z) (tsdoc : Standing)
    (meta : option Meta) (now : Z) : Result (list ScoreboardNode * gmap Z Pdoc) :=
  match code with
  | acm_scoreboardRow => acm_scoreboardRow_body config tdoc pdict udoc rank tsdoc meta
  | oi_scoreboardRow => oi_scoreboardRow_body config tdoc pdict udoc rank tsdoc meta now
  | strictioi_scoreboardRow =>
      strictioi_scoreboardRow_body config tdoc pdict udoc rank tsdoc meta
  | ledo_scoreboardRow => ledo_scoreboardRow_body config tdoc pdict udoc rank tsdoc meta
  | homework_scoreboardRow => homework_scoreboardRow_body config tdoc pdict udoc rank tsdoc
  end.

(** The rows of the ranked standings, one call of the row body after the
    other on the shared [pdict]. *)
Fixpoint run_rows (code : ScoreboardRowFn) (config : ScoreboardConfig) (tdoc : Tdoc)
    (udict : gmap Z Udoc) (meta : option Meta) (now : Z)
    (rs : list (Z * Standing)) (pdict : gmap Z Pdoc)
    : Result (list (list ScoreboardNode) * gmap Z Pdoc) :=
  match rs with
  | [] => Ok ([], pdict)
  | (rank, tsdoc) :: rest =>
      let* r := run_scoreboardRow code config tdoc pdict
                  (udict !! uid (sd_doc tsdoc)) rank tsdoc meta now in
      let* others := run_rows code config tdoc udict meta now rest (snd r) in
      Ok (fst r :: fst others, snd others)
  end.

(** [const columns = await this.scoreboardHeader(...)] followed by
    [[columns, ...rows]], the end of the three [scoreboard] bodies: the
    rows of the table, and [pdict] as the call leaves it. *)
Definition renderScoreboard (header : ScoreboardHeaderFn) (row : ScoreboardRowFn)
    (config : ScoreboardConfig) (tdoc : Tdoc) (pdict : gmap Z Pdoc) (udict : gmap Z Udoc)
    (meta : option Meta) (now : Z) (rs : list (Z * Standing))
    : Result (list (list ScoreboardNode) * gmap Z Pdoc) :=
  let* h := run_scoreboardHeader header config tdoc pdict in
  let* rows := run_rows row config tdoc udict meta now rs (snd h) in
  Ok (fst h :: fst rows, snd rows).
End Rendering.

(** *** Statements about the cells *)

(** [pdict] after the counters of the problems [ps] have been reset. *)
Definition resetCounters (ps : list Z) (pdict : gmap Z Pdoc) : gmap Z Pdoc :=
  foldl (fun pd p =>
           match pd !! p with
           | Some d => <[p := {| title := title d; nSubmit := Some 0; nAccept := Some 0 |}]> pd
           | None => pd
           end) pdict ps.

(** The number of columns of each header for [n] problems. *)
Definition headerWidth (code : ScoreboardHeaderFn) (config : ScoreboardConfig) (n : nat)
    : nat :=
  match code, isExport config with
  | acm_scoreboardHeader, true => 7 + 2 * n
  | acm_scoreboardHeader, false => 3 + n
  | oi_scoreboardHeader, true => 7 + n
  | oi_scoreboardHeader, false => 3 + n
  | homework_scoreboardHeader, true => 5 + 3 * n
  | homework_scoreboardHeader, false => 4 + n
  end.

(** The lock instant that the counting loop of each row body applies: the
    rows of [acm] and [oi] skip what was submitted after [config.lockAt], the
    other three count every entry. *)
Definition rowLock (code : ScoreboardRowFn) (config : ScoreboardConfig) : option Z :=
  match code with
  | acm_scoreboardRow | oi_scoreboardRow => cfg_lockAt config
  | _ => None
  end.

(** The journal entries on problem [p] that the rows count, over all the
    standings of a scoreboard. *)
Definition countedEntries (lock : option Z) (p : Z) (rs : list (Z * Standing)) : list Jdoc :=
  filter (fun s => pid s = p ∧ afterLock lock s = false)
         (concat ((fun r => default [] (sd_journal (snd r))) <$> rs)).

(** Sample helpers, a sample problem dictionary and a sample standing. *)
Definition sampleRendering : Rendering :=
  {| translate := fun s => s; format := fun s _ => s; formatSeconds := fun _ _ => "0:00";
     fromCharCode := fun _ => "A"; toStr := fun _ => "0"; STATUS_SHORT_TEXTS := fun _ => "AC" |}.

Definition sampleConfig : ScoreboardConfig := {| isExport := true; cfg_lockAt := None |}.

Definition samplePdict : gmap Z Pdoc :=
  list_to_map [(1, {| title := "Sum"; nSubmit := None; nAccept := None |});
               (2, {| title := "Product"; nSubmit := Some 7; nAccept := Some 3 |})].

Definition sampleUdict : gmap Z Udoc :=
  list_to_map [(7, {| uname := "alice"; mail := "alice@example.org"; school := None;
                      displayName := None; studentId := None |})].

Definition sampleStanding : Standing :=
  {| sd_doc := {| uid := 7; startAt := None; ts_accept := Some 2; ts_time := Some 100;
                  ts_score := None |};
     sd_journal := Some journalA; sd_detail := None; sd_display := None;
     sd_penaltyScore := None; sd_originalScore := None |}.

(** The number of cells of each row for [n] problems. *)
Definition rowWidth (code : ScoreboardRowFn) (config : ScoreboardConfig) (n : nat) : nat :=
  match code, isExport config with
  | acm_scoreboardRow, true => 7 + 2 * n
  | homework_scoreboardRow, true => 5 + 3 * n
  | homework_scoreboardRow, false => 4 + n
  | _, true => 7 + n
  | _, false => 3 + n
  end.

Section Counted.
Context {imports : Imported}.

(** The counters of a problem document after [entries] have been counted. *)
Definition counted (d : Pdoc) (entries : list Jdoc) : Pdoc :=
  {| title := title d;
     nSubmit := (fun n => n + Z.of_nat (length entries)) <$> nSubmit d;
     nAccept :=
       (fun n => n + Z.of_nat (length (filter (fun s => isAccepted (status s) = true)
                                              entries)))
       <$> nAccept d |}.
End Counted.

(** *** The status document that [acm.stat] leaves *)

(** A value of [detail] under [acm]: [{ ...j, naccept, time, real, penalty }]. *)
Definition acm_cell (d : AcmDetail) : Cell :=
  {| c_rid := Some (rid (ad_j d)); c_status := Some (status (ad_j d));
     c_score := Some (score (ad_j d)); c_subtasks := Some (subtasks (ad_j d));
     c_naccept := Some (ad_naccept d); c_npending := None;
     c_penalty := Some (ad_penalty d); c_real := Some (ad_real d);
     c_time := Some (ad_time d); c_penaltyScore := None; c_ntry := None |}.

(** A value of [display] under [acm]: the record it shows, if any, with the
    [npending] written into it. *)
Definition acm_displayCell (e : AcmDisplay) : Cell :=
  match aq_shown e with
  | Some d =>
      {| c_rid := Some (rid (ad_j d)); c_status := Some (status (ad_j d));
         c_score := Some (score (ad_j d)); c_subtasks := Some (subtasks (ad_j d));
         c_naccept := Some (ad_naccept d); c_npending := aq_npending e;
         c_penalty := Some (ad_penalty d); c_real := Some (ad_real d);
         c_time := Some (ad_time d); c_penaltyScore := None; c_ntry := None |}
  | None =>
      {| c_rid := None; c_status := None; c_score := None; c_subtasks := None;
         c_naccept := None; c_npending := aq_npending e; c_penalty := None;
         c_real := None; c_time := None; c_penaltyScore := None; c_ntry := None |}
  end.

(** The status document of participant [u] after
    [revSetStatus(..., { journal, ...stats })] with the statistics of
    [acm.stat]. *)
Definition acm_standing (u : Z) (journal : list Jdoc) (s : AcmStats) : Standing :=
  {| sd_doc := acm_tsdoc u s;
     sd_journal := Some journal;
     sd_detail := Some (acm_cell <$> acm_detail s);
     sd_display := Some (acm_displayCell <$> acm_display s);
     sd_penaltyScore := None; sd_originalScore := None |}.

(** A value of [display] without its pending counter. *)
Definition cellWithoutPending (c : Cell) : Cell :=
  {| c_rid := c_rid c; c_status := c_status c; c_score := c_score c;
     c_subtasks := c_subtasks c; c_naccept := c_naccept c; c_npending := None;
     c_penalty := c_penalty c; c_real := c_real c; c_time := c_time c;
     c_penaltyScore := c_penaltyScore c; c_ntry := c_ntry c |}.

(** A status document whose [display] has lost its pending counters. *)
Definition erasePending (tsdoc : Standing) : Standing :=
  {| sd_doc := sd_doc tsdoc;
     sd_journal := sd_journal tsdoc;
     sd_detail := sd_detail tsdoc;
     sd_display := (fun m : gmap Z Cell => cellWithoutPending <$> m) <$> sd_display tsdoc;
     sd_penaltyScore := sd_penaltyScore tsdoc;
     sd_originalScore := sd_originalScore tsdoc |}.

(** A scoreboard configuration during a freeze at [l]. *)
Definition frozenConfig (export : bool) (l : Z) : ScoreboardConfig :=
  {| isExport := export; cfg_lockAt := Some l |}.

(** *** The status document that [oi.stat] leaves *)

(** A value of [detail] under [oi] and [ioi]: the journal entry itself. *)
Definition oi_cell (j : Jdoc) : Cell :=
  {| c_rid := Some (rid j); c_status := Some (status j); c_score := Some (score j);
     c_subtasks := Some (subtasks j); c_naccept := None; c_npending := None;
     c_penalty := None; c_real := None; c_time := None; c_penaltyScore := None;
     c_ntry := None |}.

(** A value of [display] under [oi] and [ioi]: the entry it shows, if any,
    with the [npending] written into it. *)
Definition oi_displayCell (e : OiDisplay) : Cell :=
  match oq_shown e with
  | Some j =>
      {| c_rid := Some (rid j); c_status := Some (status j); c_score := Some (score j);
         c_subtasks := Some (subtasks j); c_naccept := None; c_npending := oq_npending e;
         c_penalty := None; c_real := None; c_time := None; c_penaltyScore := None;
         c_ntry := None |}
  | None =>
      {| c_rid := None; c_status := None; c_score := None; c_subtasks := None;
         c_naccept := None; c_npending := oq_npending e; c_penalty := None;
         c_real := None; c_time := None; c_penaltyScore := None; c_ntry := None |}
  end.

(** The status document of participant [u] after
    [revSetStatus(..., { journal, ...stats })] with the statistics of
    [oi.stat]. *)
Definition oi_standing (u : Z) (journal : list Jdoc) (s : OiStats) : Standing :=
  {| sd_doc := {| uid := u; startAt := None; ts_accept := None; ts_time := None;
                  ts_score := Some (oi_score s) |};
     sd_journal := Some journal;
     sd_detail := Some (oi_cell <$> oi_detail s);
     sd_display := Some (oi_displayCell <$> oi_display s);
     sd_penaltyScore := None; sd_originalScore := None |}.

(** ** Serving the scoreboard *)

(** What the queries made inside a [scoreboard] body bring back:
    [user.getListForRender] ([udict]), the first accepted instant found for a
    problem, and the problem status documents that [oi.scoreboard] loads
    once the contest is done. *)
Record Queried := {
  q_udict : gmap Z Udoc;
  q_firstAccepted : gmap Z Z;
  q_psdocs : gmap (Z * Z) Psdoc;
}.

(** [first] as [oi.scoreboard] fills it, for every problem of the contest:
    the instant found, or else [Date.now() / 1000], which is kept when it is
    a whole number. *)
Definition oi_first (now : Z) (found : gmap Z Z) (ps : list Z) : gmap Z Z :=
  foldl (fun first p =>
           match found !! p with
           | Some t => <[p := t]> first
           | None => if now `mod` 1000 =? 0 then <[p := now `div` 1000]> first else first
           end) ∅ ps.

Section Serving.
Context {imports : Imported} {rendering : Rendering}.

(** The [meta] that each [scoreboard] body hands to its rows: [{ first }]
    under [acm], [{ psdict, first }] under [oi], where [psdict] is filled
    only [if (isDone(tdoc))], and none under [homework]. *)
Definition scoreboardMeta (code : ScoreboardFn) (tdoc : Tdoc) (now : Z) (q : Queried)
    : option Meta :=
  match code with
  | acm_scoreboard => Some {| first := Some (q_firstAccepted q); psdict := None |}
  | oi_scoreboard =>
      Some {| first := Some (oi_first now (q_firstAccepted q) (pids tdoc));
              psdict := Some (if isDone tdoc None now then q_psdocs q else ∅) |}
  | homework_scoreboard => None
  end.

(** [const rankedTsdocs = await ranked(cursor, ...)] on the status documents
    as the rows read them. *)
Definition rankedStandings (code : ScoreboardFn) (cursor : list Standing)
    : list (Z * Standing) :=
  ranked cursor (fun a b => scoreboardTie code (sd_doc a) (sd_doc b)).

(** The [scoreboard] body [code] run with [this] on
    [(config, _, tdoc, pdict, cursor)], header and rows included: the rows of
    the table and [pdict] as the call leaves it.  [this.scoreboardRow] is
    looked up once per ranked standing, so not at all for an empty cursor. *)
Definition run_scoreboardRows (h : Heap) (code : ScoreboardFn) (this : addr)
    (config : ScoreboardConfig) (tdoc : Tdoc) (pdict : gmap Z Pdoc) (q : Queried) (now : Z)
    (cursor : list Standing) : Result (list (list ScoreboardNode) * gmap Z Pdoc) :=
  let rs := rankedStandings code cursor in
  match h !! this with
  | None => Throw TypeError
  | Some obj =>
      match r_scoreboardHeader obj with
      | None => Throw TypeError
      | Some hf =>
          let* hd := run_scoreboardHeader (fst (target this hf)) config tdoc pdict in
          match rs, r_scoreboardRow obj with
          | [], _ => Ok ([fst hd], snd hd)
          | _ :: _, None => Throw TypeError
          | _ :: _, Some rf =>
              let* rows := run_rows (fst (target this rf)) config tdoc (q_udict q)
                             (scoreboardMeta code tdoc now q) now rs (snd hd) in
              Ok (fst hd :: fst rows, snd rows)
          end
      end
  end.

(** [h[a].scoreboard(config, _, tdoc, pdict, cursor)] *)
Definition call_scoreboardRows (h : Heap) (a : addr) (config : ScoreboardConfig)
    (tdoc : Tdoc) (pdict : gmap Z Pdoc) (q : Queried) (now : Z) (cursor : list Standing)
    : Result (list (list ScoreboardNode) * gmap Z Pdoc) :=
  match h !! a with
  | None => Throw TypeError
  | Some obj =>
      match r_scoreboard obj with
      | None => Throw TypeError
      | Some fn =>
          let '(code, t) := target a fn in
          run_scoreboardRows h code t config tdoc pdict q now cursor
      end
  end.

(** [RULES[name].scoreboard(config, _, tdoc, pdict, cursor)] *)
Definition scoreboardRows (name : string) (config : ScoreboardConfig) (tdoc : Tdoc)
    (pdict : gmap Z Pdoc) (q : Queried) (now : Z) (cursor : list Standing)
    : Result (list (list ScoreboardNode) * gmap Z Pdoc) :=
  match RULES !! name with
  | None => Throw TypeError
  | Some a => call_scoreboardRows rulesHeap a config tdoc pdict q now cursor
  end.

(** [getScoreboard(domainId, tid, config)] for the requesting [user];
    [pdict] is what [problem.getList] returns and [cursor] what the sorted
    cursor over the contest's status documents yields.  It returns
    [[tdoc, rows, udict, pdict]]; the notification on the bus is not
    modelled. *)
Definition getScoreboard (user : User) (st : Store) (tid : nat) (config : ScoreboardConfig)
    (pdict : gmap Z Pdoc) (q : Queried) (now : Z) (cursor : list Standing)
    : RequestError
      + (Tdoc * list (list ScoreboardNode) * gmap Z Udoc * gmap Z Pdoc) :=
  match get st tid with
  | Throw e => inl (Raised e)
  | Ok tdoc =>
      match canShowScoreboard user tdoc true now with
      | Throw e => inl (Raised e)
      | Ok false => inl (ContestScoreboardHiddenError tid)
      | Ok true =>
          match scoreboardRows (rule tdoc) config tdoc pdict q now cursor with
          | Throw e => inl (Raised e)
          | Ok (rows, pdict') => inr (tdoc, rows, q_udict q, pdict')
          end
      end
  end.
End Serving.

(** What the queries bring back for the sample standing, and a standing of
    a participant they do not know. *)
Definition sampleQueried : Queried :=
  {| q_udict := sampleUdict; q_firstAccepted := ∅; q_psdocs := ∅ |}.

Definition strangerStanding : Standing :=
  {| sd_doc := {| uid := 8; startAt := None; ts_accept := Some 0; ts_time := Some 0;
                  ts_score := None |};
     sd_journal := None; sd_detail := None; sd_display := None;
     sd_penaltyScore := None; sd_originalScore := None |}.

(** * Properties *)

(** ** Double-precision arithmetic *)

Lemma pow2_pos k : (0 < pow2 k)%Q.
Proof. apply Qpower_0_lt. reflexivity. Qed.

Lemma pow2_add a b : (pow2 (a + b) == pow2 a * pow2 b)%Q.
Proof. apply Qpower_plus. discriminate. Qed.

Lemma pow2_le a b : a ≤ b → (pow2 a <= pow2 b)%Q.
Proof. intros Hab. apply Qpower_le_compat_l; [exact Hab|discriminate]. Qed.

Lemma pow2_lt_inv a b : (pow2 a < pow2 b)%Q → a < b.
Proof. intros Hab. eapply Qpower_lt_compat_l_inv; [exact Hab|reflexivity]. Qed.

Lemma pow2_Z k : 0 ≤ k → (pow2 k == inject_Z (2 ^ k))%Q.
Proof. intros Hk. symmetry. exact (Zpower_Qpower 2 k Hk). Qed.

Lemma pow2_sub a b : (pow2 (a - b) == pow2 a / pow2 b)%Q.
Proof. apply Qpower_minus. discriminate. Qed.

(** A quotient of positive integers against a quotient of powers of two. *)
Lemma pow2_le_frac (n : Z) (d : positive) (a c : Z) :
  0 ≤ a → 0 ≤ c → 2 ^ a ≤ n → Z.pos d ≤ 2 ^ c → (pow2 (a - c) <= n # d)%Q.
Proof.
  intros Ha Hc Hn Hd.
  rewrite pow2_sub, !pow2_Z by assumption.
  assert (H2c : 0 < 2 ^ c) by (apply Z.pow_pos_nonneg; lia).
  apply Qle_shift_div_r; [change 0%Q with (inject_Z 0); rewrite <- Zlt_Qlt; exact H2c|].
  unfold Qle, Qmult, inject_Z. cbn [Qnum Qden]. nia.
Qed.

Lemma frac_lt_pow2 (n : Z) (d : positive) (a b : Z) :
  0 ≤ a → 0 ≤ b → n < 2 ^ a → 2 ^ b ≤ Z.pos d → (n # d < pow2 (a - b))%Q.
Proof.
  intros Ha Hb Hn Hd.
  rewrite pow2_sub, !pow2_Z by assumption.
  assert (H2b : 0 < 2 ^ b) by (apply Z.pow_pos_nonneg; lia).
  apply Qlt_shift_div_l; [change 0%Q with (inject_Z 0); rewrite <- Zlt_Qlt; exact H2b|].
  unfold Qlt, Qmult, inject_Z. cbn [Qnum Qden]. nia.
Qed.

Lemma binade_spec (q : Q) :
  (0 < q)%Q → (pow2 (binade q) <= q)%Q ∧ (q < pow2 (binade q + 1))%Q.
Proof.
  destruct q as [n d]. intros Hq.
  assert (Hn : 0 < n) by (unfold Qlt in Hq; cbn in Hq; lia).
  destruct (Z.log2_spec n Hn) as [Hn1 Hn2].
  destruct (Z.log2_spec (Z.pos d) (Pos2Z.is_pos d)) as [Hd1 Hd2].
  pose proof (Z.log2_nonneg n) as Ha. pose proof (Z.log2_nonneg (Z.pos d)) as Hb.
  unfold binade. cbn [Qnum Qden].
  destruct (Qle_bool (pow2 (Z.log2 n - Z.log2 (Z.pos d))) (n # d)) eqn:Hle.
  - split; [by apply Qle_bool_iff|].
    replace (Z.log2 n - Z.log2 (Z.pos d) + 1) with (Z.succ (Z.log2 n) - Z.log2 (Z.pos d)) by lia.
    apply frac_lt_pow2; lia.
  - split.
    + replace (Z.log2 n - Z.log2 (Z.pos d) - 1) with (Z.log2 n - Z.succ (Z.log2 (Z.pos d))) by lia.
      apply pow2_le_frac; lia.
    + replace (Z.log2 n - Z.log2 (Z.pos d) - 1 + 1) with (Z.log2 n - Z.log2 (Z.pos d)) by lia.
      apply Qnot_le_lt. intros Hc. apply Qle_bool_iff in Hc. congruence.
Qed.

Lemma binade_unique (q : Q) (e : Z) :
  (pow2 e <= q)%Q → (q < pow2 (e + 1))%Q → binade q = e.
Proof.
  intros Hlo Hhi.
  assert (Hq : (0 < q)%Q) by (eapply Qlt_le_trans; [apply pow2_pos|exact Hlo]).
  destruct (binade_spec q Hq) as [Hlo' Hhi'].
  assert (binade q < e + 1)
    by (apply pow2_lt_inv; eapply Qle_lt_trans; [exact Hlo'|exact Hhi]).
  assert (e < binade q + 1)
    by (apply pow2_lt_inv; eapply Qle_lt_trans; [exact Hlo|exact Hhi']).
  lia.
Qed.

Lemma binade_mono (q r : Q) : (0 < q)%Q → (q <= r)%Q → binade q ≤ binade r.
Proof.
  intros Hq Hqr.
  destruct (binade_spec q Hq) as [Hlo _].
  destruct (binade_spec r (Qlt_le_trans _ _ _ Hq Hqr)) as [_ Hhi].
  assert (binade q < binade r + 1); [|lia].
  apply pow2_lt_inv. eapply Qle_lt_trans; [exact Hlo|]. eapply Qle_lt_trans; [exact Hqr|exact Hhi].
Qed.


Lemma binade_comp (q r : Q) : (0 < q)%Q → (q == r)%Q → binade q = binade r.
Proof.
  intros Hq Hqr.
  assert (Hr : (0 < r)%Q) by (by rewrite <- Hqr).
  destruct (binade_spec r Hr) as [Hlo Hhi].
  apply binade_unique; by rewrite Hqr.
Qed.

#[global] Instance roundHalfEven_comp : Proper (Qeq ==> eq) roundHalfEven.
Proof.
  intros s t Hst. unfold roundHalfEven.
  rewrite (Qfloor_comp _ _ Hst).
  by rewrite (Qcompare_comp _ _ (Qminus_comp _ _ Hst _ _ (Qeq_refl _)) _ _ (Qeq_refl (1#2))).
Qed.

Lemma roundHalfEven_floor (t : Q) :
  Qfloor t ≤ roundHalfEven t ≤ Qfloor t + 1.
Proof.
  unfold roundHalfEven.
  destruct (t - inject_Z (Qfloor t) ?= 1 # 2)%Q; [destruct (Z.even (Qfloor t))| |]; lia.
Qed.



Lemma roundHalfEven_Z (z : Z) : roundHalfEven (inject_Z z) = z.
Proof.
  unfold roundHalfEven. rewrite Qfloor_Z.
  destruct (Qcompare_spec (inject_Z z - inject_Z z) (1#2)) as [Hc|Hc|Hc];
    [exfalso; lra|reflexivity|exfalso; lra].
Qed.

Lemma roundHalfEven_near (t : Q) :
  (t - (1#2) <= inject_Z (roundHalfEven t))%Q ∧ (inject_Z (roundHalfEven t) <= t + (1#2))%Q.
Proof.
  pose proof (Qfloor_le t) as Hlo. pose proof (Qlt_floor t) as Hhi.
  rewrite inject_Z_plus in Hhi.
  unfold roundHalfEven.
  destruct (Qcompare_spec (t - inject_Z (Qfloor t)) (1#2)) as [Hc|Hc|Hc];
    [destruct (Z.even (Qfloor t))| |]; rewrite ?inject_Z_plus;
    change (inject_Z 1) with 1%Q in *; split; lra.
Qed.

Lemma roundHalfEven_mono (s t : Q) : (s <= t)%Q → roundHalfEven s ≤ roundHalfEven t.
Proof.
  intros Hst.
  pose proof (Qfloor_resp_le _ _ Hst) as Hf.
  pose proof (roundHalfEven_floor s) as Hs. pose proof (roundHalfEven_floor t) as Ht.
  destruct (decide (Qfloor s = Qfloor t)) as [Heq|Hne]; [|lia].
  unfold roundHalfEven in *. rewrite <- Heq in *.
  destruct (Qcompare_spec (s - inject_Z (Qfloor s)) (1#2)) as [Hc|Hc|Hc];
    destruct (Qcompare_spec (t - inject_Z (Qfloor s)) (1#2)) as [Hd|Hd|Hd];
    try destruct (Z.even (Qfloor s)); try lia; exfalso; lra.
Qed.

Lemma nearest_scaled (q : Q) :
  (0 < q)%Q →
  (pow2 52 <= q / pow2 (binade q - 52))%Q ∧ (q / pow2 (binade q - 52) < pow2 53)%Q.
Proof.
  intros Hq. destruct (binade_spec q Hq) as [Hlo Hhi].
  pose proof (pow2_pos (binade q - 52)) as Hu.
  split.
  - apply Qle_shift_div_l; [exact Hu|].
    rewrite <- pow2_add. by replace (52 + (binade q - 52)) with (binade q) by lia.
  - apply Qlt_shift_div_r; [exact Hu|].
    rewrite <- pow2_add. by replace (53 + (binade q - 52)) with (binade q + 1) by lia.
Qed.

Lemma nearest_bounds (q : Q) :
  (0 < q)%Q → (pow2 (binade q) <= nearest q)%Q ∧ (nearest q <= pow2 (binade q + 1))%Q.
Proof.
  intros Hq. destruct (nearest_scaled q Hq) as [Hlo Hhi].
  pose proof (pow2_pos (binade q - 52)) as Hu.
  pose proof (roundHalfEven_floor (q / pow2 (binade q - 52))) as [Hf1 Hf2].
  unfold nearest. split.
  - replace (binade q) with (52 + (binade q - 52)) at 1 by lia. rewrite pow2_add.
    apply Qmult_le_compat_r; [|by apply Qlt_le_weak].
    rewrite (pow2_Z 52) by lia. rewrite <- Zle_Qle.
    etransitivity; [|exact Hf1].
    rewrite <- (Qfloor_Z (2 ^ 52)). apply Qfloor_resp_le. by rewrite <- (pow2_Z 52) by lia.
  - replace (binade q + 1) with (53 + (binade q - 52)) by lia. rewrite pow2_add.
    apply Qmult_le_compat_r; [|by apply Qlt_le_weak].
    rewrite (pow2_Z 53) by lia. rewrite <- Zle_Qle.
    assert (Qfloor (q / pow2 (binade q - 52)) < 2 ^ 53); [|lia].
    rewrite Zlt_Qlt. eapply Qle_lt_trans; [apply Qfloor_le|]. by rewrite <- (pow2_Z 53) by lia.
Qed.

Lemma nearest_pos (q : Q) : (0 < q)%Q → (0 < nearest q)%Q.
Proof.
  intros Hq. eapply Qlt_le_trans; [apply pow2_pos|]. by apply nearest_bounds.
Qed.

Lemma nearest_mono (q r : Q) : (0 < q)%Q → (q <= r)%Q → (nearest q <= nearest r)%Q.
Proof.
  intros Hq Hqr.
  assert (Hr : (0 < r)%Q) by (by eapply Qlt_le_trans).
  pose proof (binade_mono q r Hq Hqr) as He.
  destruct (decide (binade q = binade r)) as [Heq|Hne].
  - unfold nearest. rewrite <- Heq.
    pose proof (pow2_pos (binade q - 52)) as Hu.
    apply Qmult_le_compat_r; [|by apply Qlt_le_weak].
    rewrite <- Zle_Qle. apply roundHalfEven_mono.
    apply Qmult_le_compat_r; [exact Hqr|]. by apply Qlt_le_weak, Qinv_lt_0_compat.
  - eapply Qle_trans; [by apply nearest_bounds|].
    eapply Qle_trans; [|by apply nearest_bounds].
    apply pow2_le. lia.
Qed.

(** The relative error of rounding is at most 2^-53. *)
Lemma nearest_near (q : Q) :
  (0 < q)%Q →
  (q * (1 - pow2 (-53)) <= nearest q)%Q ∧ (nearest q <= q * (1 + pow2 (-53)))%Q.
Proof.
  intros Hq. destruct (binade_spec q Hq) as [Hlo _].
  pose proof (pow2_pos (binade q - 52)) as Hu.
  destruct (roundHalfEven_near (q / pow2 (binade q - 52))) as [Hn1 Hn2].
  assert (Hhalf : ((1#2) * pow2 (binade q - 52) <= q * pow2 (-53))%Q).
  { change (1#2)%Q with (pow2 (-1)). rewrite <- pow2_add.
    replace (-1 + (binade q - 52)) with (binade q + -53) by lia. rewrite pow2_add.
    apply Qmult_le_compat_r; [exact Hlo|]. apply Qlt_le_weak, pow2_pos. }
  assert (Hq' : (q == q / pow2 (binade q - 52) * pow2 (binade q - 52))%Q).
  { field. intros Hc. rewrite Hc in Hu. discriminate. }
  unfold nearest.
  set (u := pow2 (binade q - 52)) in *. set (t := (q / u)%Q) in *.
  set (m := inject_Z (roundHalfEven t)) in *.
  assert (H1 : ((t - (1#2)) * u <= m * u)%Q)
    by (apply Qmult_le_compat_r; [exact Hn1|by apply Qlt_le_weak]).
  assert (H2 : (m * u <= (t + (1#2)) * u)%Q)
    by (apply Qmult_le_compat_r; [exact Hn2|by apply Qlt_le_weak]).
  set (p := pow2 (-53)) in *.
  split.
  - apply Qle_trans with ((t - (1#2)) * u)%Q; [|exact H1].
    apply Qle_trans with (t * u - q * p)%Q.
    + rewrite Hq' at 1. apply Qle_lteq; right.
      rewrite Hq' at 1. ring_simplify. rewrite <- Hq'. ring.
    + lra.
  - apply Qle_trans with ((t + (1#2)) * u)%Q; [exact H2|].
    apply Qle_trans with (t * u + q * p)%Q.
    + lra.
    + rewrite Hq' at 2. apply Qle_lteq; right. ring_simplify. rewrite <- Hq'. ring.
Qed.

Lemma nearest_comp (q r : Q) : (0 < q)%Q → (q == r)%Q → (nearest q == nearest r)%Q.
Proof.
  intros Hq Hqr. unfold nearest. rewrite <- (binade_comp q r Hq Hqr).
  assert (Ht : (q / pow2 (binade q - 52) == r / pow2 (binade q - 52))%Q)
    by (unfold Qdiv; apply Qmult_comp; [exact Hqr|reflexivity]).
  by rewrite (roundHalfEven_comp _ _ Ht).
Qed.

Lemma nearest_Z (z : Z) : 0 < z < 2 ^ 53 → (nearest (inject_Z z) == inject_Z z)%Q.
Proof.
  intros [Hz0 Hz1].
  assert (Hq : (0 < inject_Z z)%Q) by (change 0%Q with (inject_Z 0); by rewrite <- Zlt_Qlt).
  destruct (binade_spec _ Hq) as [Hlo _].
  assert (He : binade (inject_Z z) < 53).
  { apply pow2_lt_inv. eapply Qle_lt_trans; [exact Hlo|].
    rewrite (pow2_Z 53) by lia. by rewrite <- Zlt_Qlt. }
  unfold nearest. set (e := binade (inject_Z z)) in *.
  pose proof (pow2_pos (e - 52)) as Hu.
  assert (Ht : (inject_Z z / pow2 (e - 52) == inject_Z (z * 2 ^ (52 - e)))%Q).
  { rewrite inject_Z_mult, <- (pow2_Z (52 - e)) by lia.
    replace (52 - e) with (- (e - 52)) by lia. unfold pow2 at 2. rewrite Qpower_opp.
    reflexivity. }
  rewrite (roundHalfEven_comp _ _ Ht), roundHalfEven_Z.
  rewrite inject_Z_mult, <- (pow2_Z (52 - e)) by lia.
  rewrite <- Qmult_assoc, <- pow2_add.
  replace (52 - e + (e - 52)) with 0 by lia. apply Qmult_1_r.
Qed.

Lemma double_pos (q : Q) : (0 < q)%Q → double q = nearest q.
Proof.
  destruct q as [[|n|n] d]; unfold Qlt; cbn; intros Hq; [lia|reflexivity|lia].
Qed.

Lemma double_neg (q : Q) : (q < 0)%Q → double q = (- nearest (- q))%Q.
Proof.
  destruct q as [[|n|n] d]; unfold Qlt; cbn; intros Hq; [lia|lia|reflexivity].
Qed.

Lemma double_zero (q : Q) : (q == 0)%Q → double q = 0%Q.
Proof.
  destruct q as [[|n|n] d]; unfold Qeq; cbn; intros Hq; [reflexivity|lia|lia].
Qed.

Lemma Qsign_cases (q : Q) : (q < 0)%Q ∨ (q == 0)%Q ∨ (0 < q)%Q.
Proof.
  destruct (Qlt_le_dec q 0) as [H|H]; [by left|right].
  apply Qle_lteq in H as [H|H]; [by right|by left].
Qed.

#[global] Instance double_comp : Proper (Qeq ==> Qeq) double.
Proof.
  intros q r Hqr.
  destruct (Qsign_cases q) as [Hq|[Hq|Hq]].
  - assert (Hr : (r < 0)%Q) by (by rewrite <- Hqr).
    rewrite (double_neg q Hq), (double_neg r Hr).
    apply Qopp_comp, nearest_comp; [lra|by rewrite Hqr].
  - assert (Hr : (r == 0)%Q) by (by rewrite <- Hqr).
    by rewrite (double_zero q Hq), (double_zero r Hr).
  - assert (Hr : (0 < r)%Q) by (by rewrite <- Hqr).
    rewrite (double_pos q Hq), (double_pos r Hr). by apply nearest_comp.
Qed.

Lemma double_mono (q r : Q) : (q <= r)%Q → (double q <= double r)%Q.
Proof.
  intros Hqr.
  destruct (Qsign_cases q) as [Hq|[Hq|Hq]]; destruct (Qsign_cases r) as [Hr|[Hr|Hr]];
    rewrite ?(double_neg q), ?(double_zero q), ?(double_pos q) by assumption;
    rewrite ?(double_neg r), ?(double_zero r), ?(double_pos r) by assumption;
    try (exfalso; lra).
  - apply Qopp_le_compat, nearest_mono; lra.
  - pose proof (nearest_pos (- q)). lra.
  - pose proof (nearest_pos (- q)). pose proof (nearest_pos r). lra.
  - apply Qle_refl.
  - pose proof (nearest_pos r). lra.
  - by apply nearest_mono.
Qed.

Lemma double_Z (z : Z) : - 2 ^ 53 < z < 2 ^ 53 → (double (inject_Z z) == inject_Z z)%Q.
Proof.
  intros Hz. destruct z as [|n|n].
  - reflexivity.
  - change (double (inject_Z (Z.pos n))) with (nearest (inject_Z (Z.pos n))).
    apply nearest_Z. lia.
  - change (double (inject_Z (Z.neg n))) with (- nearest (inject_Z (Z.pos n)))%Q.
    rewrite nearest_Z by lia. reflexivity.
Qed.

Lemma double_near (q : Q) :
  (0 < q)%Q →
  (q * (1 - pow2 (-53)) <= double q)%Q ∧ (double q <= q * (1 + pow2 (-53)))%Q.
Proof. intros Hq. rewrite (double_pos q Hq). by apply nearest_near. Qed.

Lemma fmul_mono_l (a b c : Q) : (0 <= c)%Q → (a <= b)%Q → (fmul a c <= fmul b c)%Q.
Proof. intros Hc Hab. apply double_mono. by apply Qmult_le_compat_r. Qed.

#[global] Instance fmul_comp : Proper (Qeq ==> Qeq ==> Qeq) fmul.
Proof. intros a a' Ha b b' Hb. unfold fmul. by rewrite Ha, Hb. Qed.

Lemma Math_round_mono (x y : Q) : (x <= y)%Q → Math_round x ≤ Math_round y.
Proof.
  intros Hxy. unfold Math_round. apply Qfloor_resp_le. by apply Qplus_le_l.
Qed.

Lemma Math_round_Z (z : Z) : Math_round (inject_Z z) = z.
Proof.
  unfold Math_round, Qfloor, Qplus, inject_Z. cbn [Qnum Qden].
  symmetry. apply Z.div_unique with (r := 1); lia.
Qed.

#[global] Instance Math_round_comp : Proper (Qeq ==> eq) Math_round.
Proof. intros x y Hxy. unfold Math_round. by rewrite Hxy. Qed.



Lemma Qpower_positive_unit (q : Q) (n : positive) :
  (0 <= q)%Q → (q <= 1)%Q → (0 <= Qpower_positive q n)%Q ∧ (Qpower_positive q n <= 1)%Q.
Proof.
  intros H0 H1.
  assert (Hmul : ∀ a b : Q, (0 <= a)%Q ∧ (a <= 1)%Q → (0 <= b)%Q ∧ (b <= 1)%Q →
                            (0 <= a * b)%Q ∧ (a * b <= 1)%Q).
  { intros a b [Ha0 Ha1] [Hb0 Hb1]. split; [by apply Qmult_le_0_compat|].
    change 1%Q with (1 * 1)%Q. by apply Qmult_le_compat_nonneg. }
  unfold Qpower_positive. induction n as [n IH|n IH|]; cbn [pow_pos].
  - apply Hmul; [done|]. by apply Hmul.
  - by apply Hmul.
  - done.
Qed.

(** Powers of a number between 0 and 1 do not grow with the exponent. *)
Lemma Qpower_antitone (x : Q) (a b : Z) :
  (0 < x)%Q → (x <= 1)%Q → 0 ≤ a ≤ b → (x ^ b <= x ^ a)%Q.
Proof.
  intros H0 H1 Hab.
  replace b with (a + (b - a)) by lia.
  rewrite Qpower_plus by (intros Hc; rewrite Hc in H0; discriminate).
  rewrite <- (Qmult_1_r (x ^ a)) at 2.
  apply Qmult_le_l; [by apply Qpower_0_lt|].
  destruct (b - a) as [|n|n] eqn:Hn; [discriminate|cbn [Qpower]|lia].
  apply Qpower_positive_unit; [by apply Qlt_le_weak|exact H1].
Qed.

(** The correctly rounded power is within the tolerance. *)
Lemma sampleImports_exponentiateOk : exponentiateOk (imports := sampleImports).
Proof.
  intros x k Hx Hk. cbn [exponentiate sampleImports].
  assert (Hp : (0 < x ^ k)%Q) by (by apply Qpower_0_lt).
  destruct (double_near _ Hp) as [Hlo Hhi].
  assert (H53 : (pow2 (-53) <= pow2 (-45))%Q) by (apply pow2_le; lia).
  split; [intros ->; reflexivity|]. split.
  - eapply Qle_trans; [|exact Hlo]. apply Qmult_le_l; [exact Hp|]. lra.
  - eapply Qle_trans; [exact Hhi|]. apply Qmult_le_l; [exact Hp|]. lra.
Qed.

Section LifecycleFacts.
Context {imports : Imported}.

(** C10. At one evaluation instant [isOngoing] and [isDone] are never both
    true: [isOngoing] holds only before [endAt] with the duration budget not
    exhausted, [isDone] holds only once the contest ended or the budget is
    exhausted. *)
Theorem lifecycle_exclusive (tdoc : Tdoc) (tsdoc : option Tsdoc) (now : Z) :
  isOngoing tdoc tsdoc now && isDone tdoc tsdoc now = false
  ∧ isOngoing tdoc tsdoc now =
      negb (durationExhausted tdoc tsdoc now)
      && (beginAt tdoc <=? now) && (now <? endAt tdoc)
  ∧ isDone tdoc tsdoc now =
      (endAt tdoc <=? now) || durationExhausted tdoc tsdoc now.
Proof.
  unfold isOngoing, isDone.
  destruct (durationExhausted tdoc tsdoc now) eqn:Hd; simpl.
  - repeat split; destruct (endAt tdoc <=? now); reflexivity.
  - destruct (endAt tdoc <=? now) eqn:He; simpl.
    + apply Z.leb_le in He.
      assert (Hlt : (now <? endAt tdoc) = false) by (apply Z.ltb_ge; lia).
      rewrite Hlt, !andb_false_r. repeat split.
    + rewrite andb_false_r. repeat split.
Qed.
End LifecycleFacts.

(** ** The rule table *)

Section RuleTable.
Context {imports : Imported}.

Lemma RULES_table :
  RULES = list_to_map [("acm"%string, 0%nat); ("oi"%string, 1%nat);
                       ("homework"%string, 5%nat); ("ioi"%string, 2%nat);
                       ("ledo"%string, 4%nat); ("strictioi"%string, 3%nat)].
Proof. reflexivity. Qed.

Lemma RULES_names name :
  is_Some (RULES !! name) →
  name ∈ ["acm"; "oi"; "homework"; "ioi"; "ledo"; "strictioi"]%string.
Proof.
  intros [a Ha]. rewrite RULES_table in Ha.
  apply elem_of_list_to_map_2 in Ha.
  repeat (apply elem_of_cons in Ha as [Ha | Ha];
          [injection Ha as -> _; repeat constructor|]).
  inversion Ha.
Qed.

Lemma stat_acm tdoc now journal :
  stat "acm" tdoc now journal = Ok (StatsAcm (acm_stat false tdoc now journal)).
Proof. reflexivity. Qed.

Lemma stat_oi tdoc now journal :
  stat "oi" tdoc now journal = Ok (StatsOi (oi_stat true tdoc now journal)).
Proof. reflexivity. Qed.

Lemma stat_ioi tdoc now journal :
  stat "ioi" tdoc now journal = Ok (StatsOi (oi_stat false tdoc now journal)).
Proof. reflexivity. Qed.

Lemma stat_strictioi tdoc now journal :
  stat "strictioi" tdoc now journal = Ok (StatsStrictioi (fst (strictioi_stat tdoc journal))).
Proof.
  unfold stat, statInPlace. change (RULES !! "strictioi"%string) with (Some 3%nat).
  unfold call_stat. change (rulesHeap !! 3%nat) with (Some (deref rulesHeap 3%nat)).
  cbn. destruct (strictioi_stat tdoc journal); reflexivity.
Qed.

Lemma stat_ledo tdoc now journal :
  stat "ledo" tdoc now journal = Ok (StatsLedo (ledo_stat tdoc journal)).
Proof. reflexivity. Qed.

Lemma stat_homework tdoc now journal :
  stat "homework" tdoc now journal =
  (let* s := homework_stat tdoc journal in Ok (StatsHomework s)).
Proof.
  unfold stat, statInPlace. change (RULES !! "homework"%string) with (Some 5%nat).
  unfold call_stat. change (rulesHeap !! 5%nat) with (Some (deref rulesHeap 5%nat)).
  cbn. destruct (homework_stat tdoc journal); reflexivity.
Qed.
End RuleTable.

(** ** Degenerate input *)

Section EmptyJournal.
Context {imports : Imported}.

Lemma ledo_counted_empty tdoc : ledo_counted tdoc ∅ = [].
Proof.
  unfold ledo_counted. induction (pids tdoc) as [|p ps IH]; [reflexivity|].
  cbn. rewrite lookup_empty. exact IH.
Qed.

(** C8. For every rule of the table, [stat] on the empty journal returns
    (it does not throw) the rule's zero-value aggregate: the numeric fields
    are 0 and [detail] (and [display], where the rule has one) is empty;
    for the homework rule the total time, a [Math.sum] over no entries,
    is 0. *)
Theorem stat_empty_journal (name : string) (tdoc : Tdoc) (now : Z) :
  is_Some (RULES !! name) →
  ∃ s, stat name tdoc now [] = Ok s ∧ zeroAggregate s.
Proof.
  intros Hname. apply RULES_names in Hname.
  repeat (apply elem_of_cons in Hname as [-> | Hname]).
  - rewrite stat_acm. eexists; split; [reflexivity|]. repeat split.
  - rewrite stat_oi. eexists; split; [reflexivity|]. repeat split.
  - rewrite stat_homework. eexists; split; [reflexivity|]. repeat split.
  - rewrite stat_ioi. eexists; split; [reflexivity|]. repeat split.
  - rewrite stat_ledo. eexists; split; [reflexivity|].
    unfold ledo_stat; cbn. rewrite ledo_counted_empty. repeat split.
  - rewrite stat_strictioi. eexists; split; [reflexivity|]. repeat split.
  - inversion Hname.
Qed.
End EmptyJournal.

Lemma stat_empty_journal_witness :
  is_Some (RULES !! "homework"%string)
  ∧ ∃ s, stat (imports := sampleImports) "homework" (contest "homework" None [1; 2]) 0 [] = Ok s
         ∧ zeroAggregate s.
Proof.
  assert (Hn : is_Some (RULES !! "homework"%string)) by (vm_compute; eauto).
  split; [exact Hn|].
  exact (stat_empty_journal (imports := sampleImports) "homework"
           (contest "homework" None [1; 2]) 0 Hn).
Defined.

(** ** Where the source departs from the specification *)

(** C2. [acm.stat] does not filter the journal by [tdoc.pids]: in a contest on
    problem 1 only, an accepted entry on problem 2 is counted ([accept] 1,
    [time] 10, a [detail] entry for problem 2), whereas the journal restricted
    to [pids] is empty and yields [accept] 0.  The other four bodies filter. *)
Theorem acm_stat_counts_foreign_pid :
  inPids foreignContest foreignJournal = []
  ∧ (∃ s, stat (imports := sampleImports) "acm" foreignContest 50000 foreignJournal
           = Ok (StatsAcm s)
          ∧ acm_accept s = 1 ∧ acm_time s = 10 ∧ is_Some (acm_detail s !! 2))
  ∧ (∃ s, stat (imports := sampleImports) "acm" foreignContest 50000
             (inPids foreignContest foreignJournal) = Ok (StatsAcm s)
          ∧ acm_accept s = 0 ∧ acm_time s = 0 ∧ acm_detail s = ∅).
Proof.
  split; [reflexivity|]. split.
  - eexists. split; [vm_compute; reflexivity|]. repeat split. vm_compute. eauto.
  - eexists. split; [vm_compute; reflexivity|]. repeat split.
Qed.

(** C3. Recomputing a strict IOI standing is not idempotent: [stat] assigns
    the accumulated subtask table, score and status to the journal entries
    themselves, and the journal stored after a first [recalcStatus] gives a
    different aggregate on the second (total score 30, then 40). *)
Theorem strictioi_recalc_not_idempotent :
  ∃ journal1 s1 journal2 s2,
    recalcStatus (imports := sampleImports) strictContest 50000 strictJournal
      = Ok (journal1, StatsStrictioi s1)
    ∧ recalcStatus (imports := sampleImports) strictContest 50000 journal1
      = Ok (journal2, StatsStrictioi s2)
    ∧ strict_score s1 = 30 ∧ strict_score s2 = 40
    ∧ journal1 ≠ strictJournal.
Proof.
  eexists _, _, _, _.
  split; [vm_compute; reflexivity|].
  split; [vm_compute; reflexivity|].
  repeat split. intros Heq.
  apply (f_equal (fmap (fun j => st_score <$> subtasks j !! 1))) in Heq.
  vm_compute in Heq. discriminate Heq.
Qed.

(** C4. [acm.scoreboard] ranks with [a.score === b.score && a.time === b.time]
    while [acm.ranked] uses [accept] and [time].  ACM standings have no
    [score], so the scoreboard ties two standings with equal [time] and
    different [accept]: both get rank 1 in the scoreboard, ranks 1 and 2 from
    [ranked]. *)
Theorem acm_scoreboard_ties_on_time_only :
  ts_accept <$> standings = [Some 2; Some 1]
  ∧ ts_time <$> standings = [Some 100; Some 100]
  ∧ (∃ calls, scoreboard "acm" standings = Ok calls ∧ rowRanks calls = [1; 1])
  ∧ (∃ rs, rankedBy "acm" standings = Ok rs ∧ rs.*1 = [1; 2]).
Proof.
  split; [reflexivity|]. split; [reflexivity|]. split.
  - eexists. split; [vm_compute; reflexivity|]. reflexivity.
  - eexists. split; [vm_compute; reflexivity|]. reflexivity.
Qed.

(** C9. [edit] checks the rule name only: an edit that sets [beginAt] after
    [endAt] is stored, while [add] rejects the same pair with a
    [ValidationError]. *)
Theorem edit_accepts_reversed_interval :
  edit [storedContest] 0 reversingEdit
    = Ok [assign storedContest reversingEdit]
  ∧ beginAt (assign storedContest reversingEdit) = 200
  ∧ endAt (assign storedContest reversingEdit) = 100
  ∧ add [storedContest] "acm" 200 100 [1] storedContest
    = Throw (ValidationError ["beginAt"; "endAt"]%string).
Proof. repeat split. Qed.

(** ** Rule composition *)

Lemma heap_lookup_new (h : Heap) (rule : RuleObj) : (h ++ [rule]) !! length h = Some rule.
Proof. by apply list_lookup_middle. Qed.

Section Composition.
Context {imports : Imported}.

(** C7. Deriving a rule from a built base rule copies every property of the
    base, overridden by the properties the definition supplies; the four
    functions [scoreboard], [scoreboardRow], [scoreboardHeader], [stat] are
    taken from the definition or else from the base's originals and are bound
    to the new rule object.  So the (possibly inherited) [scoreboard], run
    through the new rule, calls the new rule's own [scoreboardHeader] and
    [scoreboardRow] with the new rule as [this], and [stat] called through the
    new rule runs its own body with the new rule as [this]; a definition that
    overrides [scoreboardRow] (or [stat]) gets its own body there. *)
Theorem buildContestRule_virtual_dispatch (h : Heap) (def baseRule : RuleObj) :
  literalDef def = true →
  builtRule baseRule = true →
  ∃ rule f base board row header st,
    buildContestRule h def baseRule = Ok (h ++ [rule], length h)
    ∧ r_originalRule baseRule = Some base
    (* plain properties: the definition's, else the base's *)
    ∧ r_TEXT rule = orElse (r_TEXT def) (r_TEXT baseRule)
    ∧ r_hidden rule = orElse (r_hidden def) (r_hidden baseRule)
    ∧ r_check rule = orElse (r_check def) (r_check baseRule)
    ∧ r_statusSort rule = orElse (r_statusSort def) (r_statusSort baseRule)
    ∧ r_submitAfterAccept rule
      = orElse (r_submitAfterAccept def) (r_submitAfterAccept baseRule)
    ∧ r_showScoreboard rule = orElse (r_showScoreboard def) (r_showScoreboard baseRule)
    ∧ r_showSelfRecord rule = orElse (r_showSelfRecord def) (r_showSelfRecord baseRule)
    ∧ r_showRecord rule = orElse (r_showRecord def) (r_showRecord baseRule)
    ∧ r_ranked rule = orElse (r_ranked def) (r_ranked baseRule)
    (* the four functions: the definition's, else the base's original *)
    ∧ r_originalRule rule = Some f
    ∧ f_scoreboard f = orElse (r_scoreboard def) (f_scoreboard base)
    ∧ f_scoreboardRow f = orElse (r_scoreboardRow def) (f_scoreboardRow base)
    ∧ f_scoreboardHeader f = orElse (r_scoreboardHeader def) (f_scoreboardHeader base)
    ∧ f_stat f = orElse (r_stat def) (f_stat base)
    ∧ codeOf (f_scoreboard f) = Some board
    ∧ codeOf (f_scoreboardRow f) = Some row
    ∧ codeOf (f_scoreboardHeader f) = Some header
    ∧ codeOf (f_stat f) = Some st
    (* ... bound to the new rule object *)
    ∧ r_scoreboard rule = Some (Bound board (length h))
    ∧ r_scoreboardRow rule = Some (Bound row (length h))
    ∧ r_scoreboardHeader rule = Some (Bound header (length h))
    ∧ r_stat rule = Some (Bound st (length h))
    (* dispatch through the new rule *)
    ∧ (∀ cursor,
         call_scoreboard (h ++ [rule]) (length h) cursor
         = Ok (CallHeader header (length h)
               :: map (fun x => CallRow row (length h) (fst x) (snd x))
                      (rankedTsdocs board cursor)))
    ∧ (∀ tdoc now journal,
         call_stat (h ++ [rule]) (length h) tdoc now journal
         = run_stat st rule tdoc now journal)
    (* an overriding definition gets its own bodies *)
    ∧ (∀ c, r_scoreboardRow def = Some (Unbound c) → row = c)
    ∧ (∀ c, r_stat def = Some (Unbound c) → st = c)
    ∧ (r_scoreboard def = None → f_scoreboard base = Some (Unbound board)).
Proof.
  unfold literalDef, builtRule. intros Hdef Hbase.
  destruct (r_originalRule baseRule) as [base|] eqn:Hob; [|discriminate].
  destruct base as [b1 b2 b3 b4]; cbn in Hbase.
  destruct b1 as [[c1|]|]; try discriminate.
  destruct b2 as [[c2|]|]; try discriminate.
  destruct b3 as [[c3|]|]; try discriminate.
  destruct b4 as [[c4|]|]; try discriminate.
  destruct (r_scoreboard def) as [[d1|]|] eqn:Hd1; try discriminate;
  destruct (r_scoreboardRow def) as [[d2|]|] eqn:Hd2; try discriminate;
  destruct (r_scoreboardHeader def) as [[d3|]|] eqn:Hd3; try discriminate;
  destruct (r_stat def) as [[d4|]|] eqn:Hd4; try discriminate;
  unfold buildContestRule; rewrite Hob, Hd1, Hd2, Hd3, Hd4; cbn;
  eexists _, _, _, _, _, _, _;
  (split; [reflexivity|]); (split; [reflexivity|]);
  do 9 (split; [reflexivity|]);
  do 5 (split; [reflexivity|]);
  do 4 (split; [reflexivity|]);
  do 4 (split; [reflexivity|]);
  (split; [intros cursor; unfold call_scoreboard;
           rewrite heap_lookup_new; cbn; unfold run_scoreboard;
           rewrite heap_lookup_new; cbn;
           destruct (rankedTsdocs _ cursor); reflexivity|]);
  (split; [intros tdoc now journal; unfold call_stat;
           rewrite heap_lookup_new; cbn; rewrite heap_lookup_new; reflexivity|]);
  repeat split; congruence.
Qed.
End Composition.

Lemma buildContestRule_virtual_dispatch_witness :
  literalDef strictioi_def = true
  ∧ builtRule ioiRule = true
  ∧ ∃ rule,
      buildContestRule heapBeforeStrictioi strictioi_def ioiRule
      = Ok (heapBeforeStrictioi ++ [rule], length heapBeforeStrictioi)
      ∧ r_scoreboardRow rule
        = Some (Bound strictioi_scoreboardRow (length heapBeforeStrictioi))
      ∧ r_stat rule = Some (Bound strictioi_stat_fn (length heapBeforeStrictioi))
      ∧ ∀ cursor,
          call_scoreboard (heapBeforeStrictioi ++ [rule]) (length heapBeforeStrictioi) cursor
          = Ok (CallHeader oi_scoreboardHeader (length heapBeforeStrictioi)
                :: map (fun x => CallRow strictioi_scoreboardRow
                                   (length heapBeforeStrictioi) (fst x) (snd x))
                       (rankedTsdocs oi_scoreboard cursor)).
Proof.
  assert (Hdef : literalDef strictioi_def = true) by reflexivity.
  assert (Hbase : builtRule ioiRule = true) by reflexivity.
  split; [exact Hdef|]. split; [exact Hbase|].
  destruct (buildContestRule_virtual_dispatch (imports := sampleImports) heapBeforeStrictioi
              strictioi_def ioiRule Hdef Hbase)
    as (rule & f & base & board & row & header & st & Hbuild & Hbase' & _ & _ & _ & _ & _
        & _ & _ & _ & _ & Hf & Hf1 & _ & Hf3 & _ & Hc1 & _ & Hc3 & _ & _ & Hrow & _ & Hst
        & Hcall & _ & Hrow' & Hst' & _).
  exists rule. split; [exact Hbuild|].
  rewrite (Hrow' strictioi_scoreboardRow eq_refl) in *.
  rewrite (Hst' strictioi_stat_fn eq_refl) in *.
  split; [exact Hrow|]. split; [exact Hst|].
  assert (Hioi : r_originalRule ioiRule
                 = Some {| f_scoreboard := Some (Unbound oi_scoreboard);
                           f_scoreboardRow := Some (Unbound oi_scoreboardRow);
                           f_scoreboardHeader := Some (Unbound oi_scoreboardHeader);
                           f_stat := Some (Unbound oi_stat_fn) |})
    by (vm_compute; reflexivity).
  rewrite Hioi in Hbase'. injection Hbase' as <-.
  assert (Hboard : board = oi_scoreboard) by (rewrite Hf1 in Hc1; by injection Hc1).
  assert (Hheader : header = oi_scoreboardHeader) by (rewrite Hf3 in Hc3; by injection Hc3).
  rewrite Hboard, Hheader in Hcall. exact Hcall.
Defined.

(** The strict IOI rule of the table: its [scoreboard] is the body written
    for [oi], inherited through [ioi]; run through [strictioi] it ranks by
    score, calls the header body of [oi] and the row body of [strictioi], all
    with [strictioi] as [this]. *)
Lemma strictioi_scoreboard_dispatch (cursor : list Tsdoc) :
  scoreboard "strictioi" cursor
  = Ok (CallHeader oi_scoreboardHeader 3%nat
        :: map (fun x => CallRow strictioi_scoreboardRow 3%nat (fst x) (snd x))
               (rankedTsdocs oi_scoreboard cursor)).
Proof.
  unfold scoreboard. change (RULES !! "strictioi"%string) with (Some 3%nat).
  unfold call_scoreboard. change (rulesHeap !! 3%nat) with (Some (deref rulesHeap 3%nat)).
  cbn. unfold run_scoreboard.
  change (rulesHeap !! 3%nat) with (Some (deref rulesHeap 3%nat)).
  cbn. destruct (rankedTsdocs oi_scoreboard cursor); reflexivity.
Qed.

(** ** Counters *)

Lemma counter_get_incr c k : counter_get (counter_incr c k) k = counter_get c k + 1.
Proof. unfold counter_get, counter_incr. by rewrite lookup_insert_eq. Qed.

Lemma counter_get_incr_ne c k k' :
  k ≠ k' → counter_get (counter_incr c k) k' = counter_get c k'.
Proof. intros Hne. unfold counter_get, counter_incr. by rewrite lookup_insert_ne. Qed.

Lemma counter_get_empty k : counter_get Counter k = 0.
Proof. unfold counter_get, Counter. by rewrite lookup_empty. Qed.

(** ** ACM penalty *)

Section AcmPenalty.
Context {imports : Imported}.
Variables (sAA : bool) (tdoc : Tdoc) (lock : option Z).

Lemma rejectedAttempts_snoc journal j p :
  rejectedAttempts (journal ++ [j]) p
  = rejectedAttempts journal p
    + (if decide (pid j = p ∧ isRejected (status j) = true) then 1 else 0).
Proof.
  unfold rejectedAttempts. rewrite filter_app, length_app, Nat2Z.inj_add.
  f_equal. rewrite filter_cons, filter_nil. case_decide; reflexivity.
Qed.

Lemma acm_loop_snoc s journal j :
  acm_loop sAA tdoc lock s (journal ++ [j])
  = acm_step sAA tdoc lock (acm_loop sAA tdoc lock s journal) j.
Proof. unfold acm_loop. by rewrite fold_left_app. Qed.

Lemma acm_loop_app s l1 l2 :
  acm_loop sAA tdoc lock s (l1 ++ l2)
  = acm_loop sAA tdoc lock (acm_loop sAA tdoc lock s l1) l2.
Proof. unfold acm_loop. by rewrite fold_left_app. Qed.

Lemma acm_displayAccepted_insert_ne display p q e :
  p ≠ q → acm_displayAccepted (<[p := e]> display) q = acm_displayAccepted display q.
Proof. intros Hne. unfold acm_displayAccepted. by rewrite lookup_insert_ne. Qed.

(** While a problem is not closed by a displayed accepted entry, its counter
    of rejected attempts is the number of rejected entries seen so far. *)
Lemma acm_naccept_counts journal p :
  negb sAA && acm_displayAccepted (as_display (acm_loop sAA tdoc lock acm_init journal)) p
  = false →
  counter_get (as_naccept (acm_loop sAA tdoc lock acm_init journal)) p
  = rejectedAttempts journal p.
Proof.
  induction journal as [|j journal IH] using rev_ind; intros Hopen.
  - cbn. by rewrite counter_get_empty.
  - rewrite acm_loop_snoc in *. rewrite rejectedAttempts_snoc.
    set (s := acm_loop sAA tdoc lock acm_init journal) in *.
    unfold acm_step in *.
    destruct (negb sAA && acm_displayAccepted (as_display s) (pid j)) eqn:Hskip.
    + rewrite IH by exact Hopen.
      case_decide as Hd; [|lia]. destruct Hd as [Hp _]. rewrite Hp in Hskip. congruence.
    + destruct (decide (p = pid j)) as [->|Hne'].
      * specialize (IH Hskip).
        destruct (afterLock lock j); cbn;
          (destruct (isRejected (status j)) eqn:Hr;
           [rewrite counter_get_incr, IH; case_decide as Hd; [lia|tauto]
           |rewrite IH; case_decide as Hd; [destruct Hd; congruence|lia]]).
      * assert (Hne : pid j ≠ p) by congruence.
        assert (Hopen' : negb sAA && acm_displayAccepted (as_display s) p = false).
        { destruct (afterLock lock j); cbn in Hopen;
            by rewrite acm_displayAccepted_insert_ne in Hopen. }
        specialize (IH Hopen').
        case_decide as Hd; [tauto|].
        destruct (afterLock lock j); cbn;
          (destruct (isRejected (status j));
           [by rewrite counter_get_incr_ne, IH, Z.add_0_r
           |by rewrite IH, Z.add_0_r]).
Qed.

(** Once a problem shows an accepted entry, and [submitAfterAccept] is off,
    the loop leaves its [detail] and [display] alone. *)
Lemma acm_closed_step s j p :
  sAA = false → acm_displayAccepted (as_display s) p = true →
  as_detail (acm_step sAA tdoc lock s j) !! p = as_detail s !! p
  ∧ as_display (acm_step sAA tdoc lock s j) !! p = as_display s !! p.
Proof.
  intros -> Hacc. unfold acm_step.
  destruct (decide (pid j = p)) as [->|Hne].
  - rewrite Hacc. cbn. done.
  - destruct (negb false && acm_displayAccepted (as_display s) (pid j)); [done|].
    destruct (afterLock lock j); cbn; by rewrite !lookup_insert_ne.
Qed.

Lemma acm_closed_loop journal s p :
  sAA = false → acm_displayAccepted (as_display s) p = true →
  as_detail (acm_loop sAA tdoc lock s journal) !! p = as_detail s !! p.
Proof.
  intros HsAA. revert s. induction journal as [|j journal IH]; intros s Hacc; [done|].
  change (acm_loop sAA tdoc lock s (j :: journal))
    with (acm_loop sAA tdoc lock (acm_step sAA tdoc lock s j) journal).
  destruct (acm_closed_step s j p HsAA Hacc) as [Hd Hq].
  rewrite IH; [exact Hd|].
  unfold acm_displayAccepted in *. by rewrite Hq.
Qed.
End AcmPenalty.

(** C5. In [acm.stat], an entry that is processed (no accepted entry is
    displayed for its problem yet) is recorded with [real] the whole seconds
    from [beginAt] to its submission instant, [penalty] 20 minutes for each
    earlier entry on the same problem whose status is neither accepted,
    compile error nor format error, and [time] their sum; with two such
    earlier attempts the recorded time is the elapsed seconds plus 2 × 1200;
    and when the entry is accepted and not hidden by the freeze, that record
    is the final [detail] of its problem whatever follows. *)
Theorem acm_penalty_accounting {imports : Imported} (tdoc : Tdoc) (now : Z)
    (before : list Jdoc) (j : Jdoc) (after : list Jdoc) :
  acm_displayAccepted (acm_display (acm_stat false tdoc now before)) (pid j) = false →
  let n := rejectedAttempts before (pid j) in
  let d := acm_record tdoc n j in
  acm_detail (acm_stat false tdoc now (before ++ [j])) !! pid j = Some d
  ∧ ad_j d = j ∧ ad_naccept d = n
  ∧ ad_real d = (getTimestamp (rid j) - beginAt tdoc) `div` 1000
  ∧ ad_penalty d = 20 * 60 * n
  ∧ ad_time d = ad_real d + ad_penalty d
  ∧ (n = 2 → ad_time d = ad_real d + 2 * 1200)
  ∧ (isAccepted (status j) = true →
     afterLock (effectiveLock tdoc now) j = false →
     acm_detail (acm_stat false tdoc now (before ++ j :: after)) !! pid j = Some d).
Proof.
  intros Hopen n d. unfold acm_stat in *. cbn [acm_detail acm_display] in *.
  set (lock := effectiveLock tdoc now) in *.
  set (s := acm_loop false tdoc lock acm_init before) in *.
  assert (Hn : counter_get (as_naccept s) (pid j) = n).
  { apply acm_naccept_counts. cbn. exact Hopen. }
  assert (Hstep : as_detail (acm_step false tdoc lock s j) !! pid j = Some d).
  { unfold acm_step. rewrite Hopen. cbn. rewrite Hn.
    destruct (afterLock lock j); cbn; by rewrite lookup_insert_eq. }
  split; [by rewrite acm_loop_snoc|].
  do 5 (split; [reflexivity|]).
  split; [intros Hn2; cbn; rewrite Hn2; lia|].
  intros Hacc Hvisible.
  replace (before ++ j :: after) with ((before ++ [j]) ++ after)
    by (by rewrite <- app_assoc).
  rewrite acm_loop_app, acm_loop_snoc. fold s.
  rewrite acm_closed_loop; [exact Hstep|reflexivity|].
  unfold acm_step. rewrite Hopen, Hvisible. cbn.
  unfold acm_displayAccepted. rewrite lookup_insert_eq. exact Hacc.
Qed.

Lemma acm_penalty_accounting_witness :
  acm_displayAccepted (imports := sampleImports)
    (acm_display (acm_stat (imports := sampleImports) false acmContest 400000 twoRejected))
    (pid thirdAttempt) = false
  ∧ acm_detail (acm_stat (imports := sampleImports) false acmContest 400000
                  (twoRejected ++ [thirdAttempt])) !! pid thirdAttempt
    = Some (acm_record acmContest
              (rejectedAttempts (imports := sampleImports) twoRejected (pid thirdAttempt))
              thirdAttempt)
  ∧ ad_time (acm_record acmContest
               (rejectedAttempts (imports := sampleImports) twoRejected (pid thirdAttempt))
               thirdAttempt) = 300 + 2 * 1200.
Proof.
  assert (Hopen : acm_displayAccepted (imports := sampleImports)
            (acm_display (acm_stat (imports := sampleImports) false acmContest 400000 twoRejected))
            (pid thirdAttempt) = false) by reflexivity.
  split; [exact Hopen|].
  destruct (acm_penalty_accounting (imports := sampleImports) acmContest 400000
              twoRejected thirdAttempt [] Hopen) as (Hd & _ & _ & _ & _ & _ & H2 & _).
  split; [exact Hd|].
  etransitivity; [apply H2; reflexivity|reflexivity].
Defined.

(** ** Ledo retry decay *)

Section LedoDecay.
Context {imports : Imported}.

Lemma validAttempts_snoc journal j p :
  validAttempts (journal ++ [j]) p
  = validAttempts journal p
    + (if decide (pid j = p ∧ ledo_valid j = true) then 1 else 0).
Proof.
  unfold validAttempts. rewrite filter_app, length_app, Nat2Z.inj_add.
  f_equal. rewrite filter_cons, filter_nil. case_decide; reflexivity.
Qed.

Lemma ledo_loop_snoc s journal j :
  ledo_loop s (journal ++ [j]) = ledo_step (ledo_loop s journal) j.
Proof. unfold ledo_loop. by rewrite fold_left_app. Qed.

(** The counter of a problem is the number of valid entries seen on it. *)
Lemma ledo_ntry_counts journal p :
  counter_get (ls_ntry (ledo_loop ledo_init journal)) p = validAttempts journal p.
Proof.
  induction journal as [|j journal IH] using rev_ind.
  - cbn. by rewrite counter_get_empty.
  - rewrite ledo_loop_snoc, validAttempts_snoc. cbn. unfold ledo_count.
    destruct (ledo_valid j) eqn:Hv.
    + destruct (decide (pid j = p)) as [<-|Hne].
      * rewrite counter_get_incr, IH. case_decide as Hd; [lia|tauto].
      * rewrite counter_get_incr_ne, IH by exact Hne. case_decide as Hd; [tauto|lia].
    + rewrite IH. case_decide as Hd; [destruct Hd; congruence|lia].
Qed.

Lemma inPids_app tdoc l1 l2 : inPids tdoc (l1 ++ l2) = inPids tdoc l1 ++ inPids tdoc l2.
Proof. unfold inPids. apply filter_app. Qed.



Lemma decay_base_pos : (0 < double (95#100))%Q.
Proof. apply Qlt_alt. vm_compute. reflexivity. Qed.

Lemma decay_base_unit : (double (95#100) <= 1)%Q.
Proof. apply Qle_bool_imp_le. vm_compute. reflexivity. Qed.


End LedoDecay.


(** ** Scoreboard freeze *)

(** An ordered journal is its part up to the lock instant followed by
    entries that are all after it. *)
Lemma timeOrdered_split (l : Z) (journal : list Jdoc) :
  timeOrdered journal = true →
  ∃ post, journal = truncateAt l journal ++ post
          ∧ Forall (fun j => afterLock (Some l) j = true) post.
Proof.
  induction journal as [|j rest IH]; intros Hord.
  - exists []. split; [reflexivity|constructor].
  - cbn in Hord. apply andb_true_iff in Hord as [Hhead Hrest].
    unfold truncateAt in *. rewrite filter_cons. case_decide as Hj.
    + destruct (IH Hrest) as (post & Heq & Hpost). exists post. split; [|exact Hpost].
      cbn. by rewrite <- Heq.
    + assert (Hall : Forall (fun k => afterLock (Some l) k = true) (j :: rest)).
      { constructor; [cbn; apply Z.ltb_lt; lia|].
        apply Forall_forall. intros k Hk. cbn. apply Z.ltb_lt.
        rewrite forallb_forall in Hhead. apply list_elem_of_In in Hk.
        specialize (Hhead k Hk). apply Z.leb_le in Hhead. lia. }
      exists (j :: rest). split; [|exact Hall].
      replace (filter (fun j0 => getTimestamp (rid j0) ≤ l) rest) with (@nil Jdoc);
        [reflexivity|].
      symmetry. apply Forall_inv_tail in Hall.
      clear -Hall. induction rest as [|k rest IH]; [reflexivity|].
      rewrite filter_cons. apply Forall_cons in Hall as [Hk Hall].
      cbn in Hk. apply Z.ltb_lt in Hk. case_decide; [lia|]. by apply IH.
Qed.

Lemma Forall_inPids (P : Jdoc → Prop) tdoc journal :
  Forall P journal → Forall P (inPids tdoc journal).
Proof.
  unfold inPids. rewrite !Forall_forall. intros HP j Hj.
  apply list_elem_of_filter in Hj as [_ Hj]. by apply HP.
Qed.

(** The order that [timeOrdered] asks for is the one [_getStatusJournal]
    establishes. *)
Lemma forallb_insertByTime (f : Jdoc → bool) j journal :
  forallb f (insertByTime j journal) = f j && forallb f journal.
Proof.
  induction journal as [|x rest IH]; cbn; [reflexivity|].
  destruct (getTimestamp (rid j) <=? getTimestamp (rid x)); cbn; [reflexivity|].
  rewrite IH. destruct (f j), (f x); reflexivity.
Qed.

Lemma insertByTime_timeOrdered j journal :
  timeOrdered journal = true → timeOrdered (insertByTime j journal) = true.
Proof.
  induction journal as [|x rest IH]; intros Hord; [reflexivity|].
  cbn in Hord. apply andb_true_iff in Hord as [Hx Hrest]. cbn.
  destruct (getTimestamp (rid j) <=? getTimestamp (rid x)) eqn:Hle.
  - cbn. rewrite Hle, Hx, Hrest. cbn. rewrite andb_true_r.
    apply forallb_forall. intros k Hk. rewrite forallb_forall in Hx.
    specialize (Hx k Hk). apply Z.leb_le in Hx, Hle. apply Z.leb_le. lia.
  - cbn. rewrite forallb_insertByTime, Hx, (IH Hrest), !andb_true_r.
    apply Z.leb_gt in Hle. apply Z.leb_le. lia.
Qed.

Lemma _getStatusJournal_timeOrdered journal :
  timeOrdered (_getStatusJournal journal) = true.
Proof.
  induction journal as [|j rest IH]; [reflexivity|].
  cbn. by apply insertByTime_timeOrdered.
Qed.

Section Freeze.
Context {imports : Imported}.
Variables (sAA : bool) (tdoc : Tdoc) (l : Z).

(** *** ACM *)

(** An entry after the lock instant changes [display] in pending counters
    only. *)
Lemma acm_step_after_lock s j :
  afterLock (Some l) j = true →
  omap acm_withoutPending (as_display (acm_step sAA tdoc (Some l) s j))
  = omap acm_withoutPending (as_display s).
Proof.
  intros Hafter. unfold acm_step. rewrite Hafter.
  destruct (negb sAA && acm_displayAccepted (as_display s) (pid j)); [reflexivity|].
  cbn [as_display]. apply map_eq. intros k. rewrite !lookup_omap.
  destruct (decide (k = pid j)) as [->|Hne].
  - rewrite lookup_insert_eq. by destruct (as_display s !! pid j).
  - by rewrite lookup_insert_ne.
Qed.

Lemma acm_loop_after_lock post s :
  Forall (fun j => afterLock (Some l) j = true) post →
  omap acm_withoutPending (as_display (acm_loop sAA tdoc (Some l) s post))
  = omap acm_withoutPending (as_display s).
Proof.
  revert s. induction post as [|j post IH]; intros s Hpost; [reflexivity|].
  apply Forall_cons in Hpost as [Hj Hpost].
  change (acm_loop sAA tdoc (Some l) s (j :: post))
    with (acm_loop sAA tdoc (Some l) (acm_step sAA tdoc (Some l) s j) post).
  rewrite IH by exact Hpost. by apply acm_step_after_lock.
Qed.

Lemma acm_step_showsOnlyBefore s j :
  acm_showsOnlyBefore l (as_display s) →
  acm_showsOnlyBefore l (as_display (acm_step sAA tdoc (Some l) s j)).
Proof.
  intros Hinv. unfold acm_step.
  destruct (negb sAA && acm_displayAccepted (as_display s) (pid j)); [exact Hinv|].
  destruct (afterLock (Some l) j) eqn:Hafter; cbn [as_display]; intros p e d Hp Hd.
  - destruct (decide (p = pid j)) as [->|Hne].
    + rewrite lookup_insert_eq in Hp. injection Hp as <-. cbn in Hd.
      destruct (as_display s !! pid j) as [old|] eqn:Hold; [|discriminate].
      by apply (Hinv (pid j) old d).
    + rewrite lookup_insert_ne in Hp by congruence. by apply (Hinv p e d).
  - destruct (decide (p = pid j)) as [->|Hne].
    + rewrite lookup_insert_eq in Hp. injection Hp as <-. cbn in Hd.
      injection Hd as <-. cbn. cbn in Hafter. apply Z.ltb_ge in Hafter. exact Hafter.
    + rewrite lookup_insert_ne in Hp by congruence. by apply (Hinv p e d).
Qed.

Lemma acm_loop_showsOnlyBefore journal s :
  acm_showsOnlyBefore l (as_display s) →
  acm_showsOnlyBefore l (as_display (acm_loop sAA tdoc (Some l) s journal)).
Proof.
  revert s. induction journal as [|j journal IH]; intros s Hinv; [exact Hinv|].
  change (acm_loop sAA tdoc (Some l) s (j :: journal))
    with (acm_loop sAA tdoc (Some l) (acm_step sAA tdoc (Some l) s j) journal).
  apply IH. by apply acm_step_showsOnlyBefore.
Qed.

(** *** OI and IOI *)

Lemma oi_step_after_lock s j :
  afterLock (Some l) j = true →
  omap oi_withoutPending (os_display (oi_step sAA (Some l) s j))
  = omap oi_withoutPending (os_display s).
Proof.
  intros Hafter. unfold oi_step. rewrite Hafter.
  destruct (improves (os_detail s) j || sAA); [|reflexivity].
  cbn [os_display]. apply map_eq. intros k. rewrite !lookup_omap.
  destruct (decide (k = pid j)) as [->|Hne].
  - rewrite lookup_insert_eq. by destruct (os_display s !! pid j).
  - by rewrite lookup_insert_ne.
Qed.

Lemma oi_loop_after_lock post s :
  Forall (fun j => afterLock (Some l) j = true) post →
  omap oi_withoutPending (os_display (oi_loop sAA (Some l) s post))
  = omap oi_withoutPending (os_display s).
Proof.
  revert s. induction post as [|j post IH]; intros s Hpost; [reflexivity|].
  apply Forall_cons in Hpost as [Hj Hpost].
  change (oi_loop sAA (Some l) s (j :: post))
    with (oi_loop sAA (Some l) (oi_step sAA (Some l) s j) post).
  rewrite IH by exact Hpost. by apply oi_step_after_lock.
Qed.

Lemma oi_loop_app s l1 l2 :
  oi_loop sAA (Some l) s (l1 ++ l2) = oi_loop sAA (Some l) (oi_loop sAA (Some l) s l1) l2.
Proof. unfold oi_loop. by rewrite fold_left_app. Qed.

Lemma oi_step_showsOnlyBefore s j :
  oi_showsOnlyBefore l (os_display s) →
  oi_showsOnlyBefore l (os_display (oi_step sAA (Some l) s j)).
Proof.
  intros Hinv. unfold oi_step.
  destruct (improves (os_detail s) j || sAA); [|exact Hinv].
  destruct (afterLock (Some l) j) eqn:Hafter; cbn [os_display]; intros p e d Hp Hd.
  - destruct (decide (p = pid j)) as [->|Hne].
    + rewrite lookup_insert_eq in Hp. injection Hp as <-. cbn in Hd.
      destruct (os_display s !! pid j) as [old|] eqn:Hold; [|discriminate].
      by apply (Hinv (pid j) old d).
    + rewrite lookup_insert_ne in Hp by congruence. by apply (Hinv p e d).
  - destruct (decide (p = pid j)) as [->|Hne].
    + rewrite lookup_insert_eq in Hp. injection Hp as <-. cbn in Hd.
      injection Hd as <-. cbn in Hafter. apply Z.ltb_ge in Hafter. exact Hafter.
    + rewrite lookup_insert_ne in Hp by congruence. by apply (Hinv p e d).
Qed.

Lemma oi_loop_showsOnlyBefore journal s :
  oi_showsOnlyBefore l (os_display s) →
  oi_showsOnlyBefore l (os_display (oi_loop sAA (Some l) s journal)).
Proof.
  revert s. induction journal as [|j journal IH]; intros s Hinv; [exact Hinv|].
  change (oi_loop sAA (Some l) s (j :: journal))
    with (oi_loop sAA (Some l) (oi_step sAA (Some l) s j) journal).
  apply IH. by apply oi_step_showsOnlyBefore.
Qed.
End Freeze.

Section FreezeContainment.
Context {imports : Imported}.

Lemma effectiveLock_locked tdoc now l :
  lockAt tdoc = Some l → isLocked tdoc now = true → effectiveLock tdoc now = Some l.
Proof. intros Hl Hlocked. unfold effectiveLock. by rewrite Hlocked. Qed.

Lemma values_lookup {A} (m : gmap Z A) (x : A) : x ∈ values m → ∃ p, m !! p = Some x.
Proof.
  unfold values. intros Hx. apply list_elem_of_fmap in Hx as ([p y] & -> & Hpy).
  exists p. by apply elem_of_map_to_list in Hpy.
Qed.

Lemma acm_freeze sAA tdoc now l journal :
  lockAt tdoc = Some l → isLocked tdoc now = true → timeOrdered journal = true →
  omap acm_withoutPending (acm_display (acm_stat sAA tdoc now journal))
  = omap acm_withoutPending (acm_display (acm_stat sAA tdoc now (truncateAt l journal)))
  ∧ acm_showsOnlyBefore l (acm_display (acm_stat sAA tdoc now journal)).
Proof.
  intros Hl Hlocked Hord. unfold acm_stat. cbn [acm_display].
  rewrite (effectiveLock_locked tdoc now l Hl Hlocked). split.
  - destruct (timeOrdered_split l journal Hord) as (post & Heq & Hpost).
    rewrite Heq at 1. rewrite acm_loop_app. by apply acm_loop_after_lock.
  - apply acm_loop_showsOnlyBefore. intros p e d Hp.
    unfold acm_init in Hp. cbn [as_display] in Hp. by rewrite lookup_empty in Hp.
Qed.

Lemma oi_freeze sAA tdoc now l journal :
  lockAt tdoc = Some l → isLocked tdoc now = true → timeOrdered journal = true →
  omap oi_withoutPending (oi_display (oi_stat sAA tdoc now journal))
  = omap oi_withoutPending (oi_display (oi_stat sAA tdoc now (truncateAt l journal)))
  ∧ oi_showsOnlyBefore l (oi_display (oi_stat sAA tdoc now journal)).
Proof.
  intros Hl Hlocked Hord. unfold oi_stat. cbn [oi_display].
  rewrite (effectiveLock_locked tdoc now l Hl Hlocked). split.
  - destruct (timeOrdered_split l journal Hord) as (post & Heq & Hpost).
    rewrite Heq at 1. rewrite inPids_app, oi_loop_app.
    rewrite oi_loop_after_lock by (by apply Forall_inPids). reflexivity.
  - apply oi_loop_showsOnlyBefore. intros p e d Hp.
    unfold oi_init in Hp. cbn [os_display] in Hp. by rewrite lookup_empty in Hp.
Qed.

Lemma acm_shownEntries l m j :
  acm_showsOnlyBefore l m → j ∈ shownEntries (DisplayAcm m) → getTimestamp (rid j) ≤ l.
Proof.
  intros Hinv Hj. cbn in Hj.
  apply list_elem_of_fmap in Hj as (d & -> & Hd).
  apply list_elem_of_omap in Hd as (e & He & Hshown).
  apply values_lookup in He as [p Hp]. by apply (Hinv p e d).
Qed.

Lemma oi_shownEntries l m j :
  oi_showsOnlyBefore l m → j ∈ shownEntries (DisplayOi m) → getTimestamp (rid j) ≤ l.
Proof.
  intros Hinv Hj. cbn in Hj.
  apply list_elem_of_omap in Hj as (e & He & Hshown).
  apply values_lookup in He as [p Hp]. by apply (Hinv p e j).
Qed.

(** The rules whose [stat] returns a [display] are [acm], [oi] and [ioi]. *)
Lemma stat_display_rules (name : string) (tdoc : Tdoc) (now : Z) (journal : list Jdoc) :
  is_Some (displayOf (stat name tdoc now journal)) ↔ name ∈ ["acm"; "oi"; "ioi"]%string.
Proof.
  split.
  - destruct (RULES !! name) as [a|] eqn:Hrule.
    + assert (Hname : is_Some (RULES !! name)) by eauto.
      apply RULES_names in Hname.
      repeat (apply elem_of_cons in Hname as [-> | Hname]);
        try (intros _; repeat constructor; fail).
      * rewrite stat_homework. destruct (homework_stat tdoc journal); by intros [? ?].
      * rewrite stat_ledo. by intros [? ?].
      * rewrite stat_strictioi. by intros [? ?].
      * inversion Hname.
    + unfold stat, statInPlace. rewrite Hrule. by intros [? ?].
  - intros Hname. repeat (apply elem_of_cons in Hname as [-> | Hname]).
    + rewrite stat_acm. eauto.
    + rewrite stat_oi. eauto.
    + rewrite stat_ioi. eauto.
    + inversion Hname.
Qed.

(** C1. While the contest is locked ([lockAt] set, in the past, and not
    [unlocked]), for every rule and every journal (ordered by submission
    instant): the [display] that [stat] returns differs from the [display] of
    the journal truncated at [lockAt] in pending counters only, and every
    record it shows (score, status, submission id and instant) is of an entry
    submitted no later than [lockAt].  The rules whose [stat] returns no
    [display] (strict IOI, Ledo, homework) expose nothing through it. *)
Theorem freeze_containment (name : string) (tdoc : Tdoc) (now l : Z)
    (journal : list Jdoc) :
  lockAt tdoc = Some l →
  isLocked tdoc now = true →
  timeOrdered journal = true →
  withoutPending <$> displayOf (stat name tdoc now journal)
  = withoutPending <$> displayOf (stat name tdoc now (truncateAt l journal))
  ∧ ∀ d j, displayOf (stat name tdoc now journal) = Some d →
           j ∈ shownEntries d → getTimestamp (rid j) ≤ l.
Proof.
  intros Hl Hlocked Hord.
  destruct (RULES !! name) as [a|] eqn:Hrule.
  - assert (Hname : is_Some (RULES !! name)) by eauto.
    apply RULES_names in Hname.
    repeat (apply elem_of_cons in Hname as [-> | Hname]).
    + rewrite !stat_acm. cbn [displayOf fmap option_fmap option_map withoutPending].
      destruct (acm_freeze false tdoc now l journal Hl Hlocked Hord) as [Heq Hinv].
      split; [by rewrite Heq|].
      intros d j [= <-]. by apply acm_shownEntries.
    + rewrite !stat_oi. cbn [displayOf fmap option_fmap option_map withoutPending].
      destruct (oi_freeze true tdoc now l journal Hl Hlocked Hord) as [Heq Hinv].
      split; [by rewrite Heq|].
      intros d j [= <-]. by apply oi_shownEntries.
    + rewrite !stat_homework.
      destruct (homework_stat tdoc journal), (homework_stat tdoc (truncateAt l journal));
        (split; [reflexivity|intros d j Hd; discriminate Hd]).
    + rewrite !stat_ioi. cbn [displayOf fmap option_fmap option_map withoutPending].
      destruct (oi_freeze false tdoc now l journal Hl Hlocked Hord) as [Heq Hinv].
      split; [by rewrite Heq|].
      intros d j [= <-]. by apply oi_shownEntries.
    + rewrite !stat_ledo. split; [reflexivity|intros d j Hd; discriminate Hd].
    + rewrite !stat_strictioi. split; [reflexivity|intros d j Hd; discriminate Hd].
    + inversion Hname.
  - unfold stat, statInPlace. rewrite Hrule.
    split; [reflexivity|intros d j Hd; discriminate Hd].
Qed.
End FreezeContainment.

Lemma freeze_containment_witness :
  lockAt frozenContest = Some 1000000
  ∧ isLocked frozenContest 2000000 = true
  ∧ timeOrdered frozenJournal = true
  ∧ withoutPending <$> displayOf (stat (imports := sampleImports) "acm" frozenContest 2000000
                                    frozenJournal)
    = withoutPending <$> displayOf (stat (imports := sampleImports) "acm" frozenContest 2000000
                                      (truncateAt 1000000 frozenJournal))
  ∧ ∀ d j, displayOf (stat (imports := sampleImports) "acm" frozenContest 2000000 frozenJournal)
           = Some d →
           j ∈ shownEntries d → getTimestamp (rid j) ≤ 1000000.
Proof.
  assert (Hl : lockAt frozenContest = Some 1000000) by reflexivity.
  assert (Hlocked : isLocked frozenContest 2000000 = true) by reflexivity.
  assert (Hord : timeOrdered frozenJournal = true) by reflexivity.
  split; [exact Hl|]. split; [exact Hlocked|]. split; [exact Hord|].
  exact (freeze_containment (imports := sampleImports) "acm" frozenContest 2000000 1000000
           frozenJournal Hl Hlocked Hord).
Defined.

(** * Further properties of the model file *)

(** ** Lifecycle *)

Section LifecycleMore.
Context {imports : Imported}.

(** X1. At any instant a contest with [beginAt <= endAt] is not started,
    ongoing or done; it is never both not started and ongoing; and without a
    participant clock exactly one of the three holds. *)
Theorem lifecycle_partition (tdoc : Tdoc) (tsdoc : option Tsdoc) (now : Z) :
  beginAt tdoc ≤ endAt tdoc →
  isNotStarted tdoc now || isOngoing tdoc tsdoc now || isDone tdoc tsdoc now = true
  ∧ isNotStarted tdoc now && isOngoing tdoc tsdoc now = false
  ∧ Z.b2z (isNotStarted tdoc now) + Z.b2z (isOngoing tdoc None now)
    + Z.b2z (isDone tdoc None now) = 1.
Proof.
  intros Horder. unfold isNotStarted, isOngoing, isDone. cbn [durationExhausted].
  destruct (durationExhausted tdoc tsdoc now);
    destruct (now <? beginAt tdoc) eqn:H1; destruct (endAt tdoc <=? now) eqn:H2;
    destruct (beginAt tdoc <=? now) eqn:H3; destruct (now <? endAt tdoc) eqn:H4;
    cbn; repeat split; try reflexivity;
    rewrite ?Z.ltb_lt, ?Z.ltb_ge, ?Z.leb_le, ?Z.leb_gt in *; lia.
Qed.

(** X2. With [Time.day] not negative, [statusText] is "New" until one day
    before the start, "Ready" during the last day before the start (the
    seven-day window of [isUpcoming] is shadowed by [isNew]), "Live..."
    exactly when [isOngoing], and "Done" from the start on when not ongoing. *)
Theorem statusText_phases (Time_day : Z) (tdoc : Tdoc) (tsdoc : option Tsdoc) (now : Z) :
  0 ≤ Time_day →
  (statusText Time_day tdoc tsdoc now = "New"%string ↔ now < beginAt tdoc - Time_day)
  ∧ (statusText Time_day tdoc tsdoc now = "Ready (☆▽☆)"%string
     ↔ beginAt tdoc - Time_day ≤ now < beginAt tdoc)
  ∧ (statusText Time_day tdoc tsdoc now = "Live..."%string
     ↔ isOngoing tdoc tsdoc now = true)
  ∧ (statusText Time_day tdoc tsdoc now = "Done"%string
     ↔ beginAt tdoc ≤ now ∧ isOngoing tdoc tsdoc now = false).
Proof.
  intros Hday. unfold statusText, isNew, isUpcoming.
  assert (Hlive : isOngoing tdoc tsdoc now = true → beginAt tdoc ≤ now).
  { unfold isOngoing. destruct (durationExhausted tdoc tsdoc now); [discriminate|].
    intros [Hb _]%andb_true_iff. by apply Z.leb_le. }
  destruct (now <? beginAt tdoc - 1 * Time_day) eqn:Hnew;
    [|destruct ((beginAt tdoc - 7 * Time_day <? now) && (now <? beginAt tdoc)) eqn:Hup;
      [|destruct (isOngoing tdoc tsdoc now) eqn:Hon]];
    rewrite ?andb_true_iff, ?andb_false_iff, ?Z.ltb_lt, ?Z.ltb_ge in *;
    repeat split; intros; try discriminate; try reflexivity;
    try (specialize (Hlive eq_refl));
    try match goal with
        | Hon : isOngoing _ _ _ = true |- _ => apply Hlive in Hon
        end;
    try lia.
Qed.
End LifecycleMore.

Lemma lifecycle_partition_witness :
  beginAt acmContest ≤ endAt acmContest
  ∧ isNotStarted acmContest 5 || isOngoing (imports := sampleImports) acmContest None 5
    || isDone (imports := sampleImports) acmContest None 5 = true.
Proof.
  assert (Horder : beginAt acmContest ≤ endAt acmContest) by (cbn; lia).
  split; [exact Horder|].
  exact (proj1 (lifecycle_partition (imports := sampleImports) acmContest None 5 Horder)).
Defined.

Lemma statusText_phases_witness :
  0 ≤ 86400000
  ∧ (statusText (imports := sampleImports) 86400000 acmContest None 5 = "Live..."%string
     ↔ isOngoing (imports := sampleImports) acmContest None 5 = true).
Proof.
  assert (Hday : 0 ≤ 86400000) by lia.
  split; [exact Hday|].
  exact (proj1 (proj2 (proj2 (statusText_phases (imports := sampleImports) 86400000
                                acmContest None 5 Hday)))).
Defined.

Section ExtendedHomework.
Context {imports : Imported}.

(** X3. When [penaltySince] is set and not before [beginAt], [isExtended]
    holds exactly when the contest is ongoing (no participant clock) and
    [penaltySince] has passed. *)
Theorem isExtended_ongoing (tdoc : Tdoc) (since now : Z) :
  penaltySince tdoc = Some since →
  beginAt tdoc ≤ since →
  isExtended tdoc now = Ok (isOngoing tdoc None now && (since <=? now)).
Proof.
  intros Hsince Hle. unfold isExtended, isOngoing. rewrite Hsince. cbn. f_equal.
  destruct (since <=? now) eqn:H1, (now <? endAt tdoc) eqn:H2,
    (beginAt tdoc <=? now) eqn:H3; try reflexivity;
    rewrite ?Z.ltb_lt, ?Z.ltb_ge, ?Z.leb_le, ?Z.leb_gt in *; lia.
Qed.
End ExtendedHomework.

Lemma isExtended_ongoing_witness :
  penaltySince (assignment 3600000) = Some 3600000
  ∧ beginAt (assignment 3600000) ≤ 3600000
  ∧ isExtended (assignment 3600000) 4000000
    = Ok (isOngoing (imports := sampleImports) (assignment 3600000) None 4000000
          && (3600000 <=? 4000000)).
Proof.
  assert (H1 : penaltySince (assignment 3600000) = Some 3600000) by reflexivity.
  assert (H2 : beginAt (assignment 3600000) ≤ 3600000) by (cbn; lia).
  split; [exact H1|]. split; [exact H2|].
  exact (isExtended_ongoing (imports := sampleImports) (assignment 3600000)
           3600000 4000000 H1 H2).
Defined.

(** ** Unlocking and visibility *)

Lemma call_check_known name data : is_Some (RULES !! name) → call_check name data = Ok tt.
Proof.
  intros Hn. apply RULES_names in Hn.
  repeat (apply elem_of_cons in Hn as [-> | Hn]); try reflexivity.
  inversion Hn.
Qed.

(** X4. For a stored contest with a known rule, [unlockScoreboard] succeeds;
    afterwards the contest is locked at no instant, its other fields and the
    other contests are as before, and unlocking again changes nothing. *)
Theorem unlockScoreboard_unlocks (st : Store) (tid : nat) (tdoc : Tdoc) :
  st !! tid = Some tdoc →
  is_Some (RULES !! rule tdoc) →
  ∃ st' tdoc',
    unlockScoreboard st tid = Ok st'
    ∧ st' !! tid = Some tdoc'
    ∧ (∀ now, isLocked tdoc' now = false)
    ∧ rule tdoc' = rule tdoc ∧ beginAt tdoc' = beginAt tdoc ∧ endAt tdoc' = endAt tdoc
    ∧ lockAt tdoc' = lockAt tdoc ∧ pids tdoc' = pids tdoc
    ∧ duration tdoc' = duration tdoc ∧ penaltySince tdoc' = penaltySince tdoc
    ∧ penaltyRules tdoc' = penaltyRules tdoc
    ∧ (∀ other, other ≠ tid → st' !! other = st !! other)
    ∧ length st' = length st
    ∧ unlockScoreboard st' tid = Ok st'.
Proof.
  intros Hst Hrule.
  unfold unlockScoreboard, edit, document_get, document_set, Store in *.
  rewrite Hst.
  destruct (lockAt tdoc) as [l|] eqn:Hl; cbn [negb orb bool_decide].
  - destruct (unlocked tdoc) eqn:Hu.
    + rewrite bool_decide_true by eauto. cbn.
      exists st, tdoc. rewrite Hst, Hl, Hu.
      rewrite bool_decide_true by eauto. cbn.
      repeat split; try done.
      intros now. unfold isLocked. rewrite Hl, Hu. apply andb_false_r.
    + rewrite bool_decide_true by eauto. cbn [negb orb unknownRule set_rule ruleOr].
      rewrite call_check_known by exact Hrule. cbn [bind].
      eexists _, _. split; [reflexivity|].
      split; [rewrite list_lookup_alter_eq, Hst; reflexivity|].
      split; [intros now; unfold isLocked; cbn; rewrite Hl; cbn; apply andb_false_r|].
      do 8 (split; [cbn; by rewrite ?Hl|]).
      split; [intros other Hne; by rewrite list_lookup_alter_ne|].
      split; [apply length_alter|].
      rewrite list_lookup_alter_eq, Hst. cbn. rewrite Hl.
      rewrite bool_decide_true by eauto. reflexivity.
  - rewrite bool_decide_false by (by intros [? ?]). cbn.
    exists st, tdoc. rewrite Hst, Hl.
    rewrite bool_decide_false by (by intros [? ?]). cbn.
    repeat split; try done.
    intros now. unfold isLocked. by rewrite Hl.
Qed.

Lemma unlockScoreboard_unlocks_witness :
  lockedStore !! 0%nat = Some (contest "acm" (Some 1000000) [1])
  ∧ is_Some (RULES !! rule (contest "acm" (Some 1000000) [1]))
  ∧ ∃ st' tdoc',
      unlockScoreboard lockedStore 0 = Ok st'
      ∧ st' !! 0%nat = Some tdoc'
      ∧ (∀ now, isLocked tdoc' now = false).
Proof.
  assert (H1 : lockedStore !! 0%nat = Some (contest "acm" (Some 1000000) [1]))
    by reflexivity.
  assert (H2 : is_Some (RULES !! rule (contest "acm" (Some 1000000) [1])))
    by (vm_compute; eauto).
  split; [exact H1|]. split; [exact H2|].
  destruct (unlockScoreboard_unlocks lockedStore 0 _ H1 H2)
    as (st' & tdoc' & Hu & Hget & Hfree & _).
  exists st', tdoc'. split; [exact Hu|]. split; [exact Hget|]. exact Hfree.
Defined.

(** X5. What each check answers under each rule of the table: records are
    shown once the contest has ended and, under [acm] and [oi] only, while it
    is not locked; the participant's own records are shown from the end under
    [oi] and always under the other rules; the scoreboard opens at the end
    under [oi] and [strictioi], at the start under [acm], [ioi] and [ledo],
    and is always open for homework.  A user who owns the contest or has the
    permission passes every check that allows the override. *)
Theorem visibility_by_rule (user : User) (tdoc : Tdoc) (allowPermOverride : bool)
    (now : Z) :
  is_Some (RULES !! rule tdoc) →
  let override := allowPermOverride && canViewHiddenScoreboard user tdoc in
  canShowRecord user tdoc allowPermOverride now
  = Ok ((endAt tdoc <? now)
        && negb (freezeHidesRecords (rule tdoc) && isLocked tdoc now)
        || override)
  ∧ canShowSelfRecord user tdoc allowPermOverride now
    = Ok ((if bool_decide (rule tdoc = "oi"%string) then endAt tdoc <? now else true)
          || override)
  ∧ canShowScoreboard user tdoc allowPermOverride now
    = Ok (boardOpensAt (rule tdoc) tdoc now || override).
Proof.
  intros Hrule override. apply RULES_names in Hrule.
  unfold canShowRecord, canShowSelfRecord, canShowScoreboard, canShow, call_show,
    freezeHidesRecords, boardOpensAt.
  repeat (apply elem_of_cons in Hrule as [Hr | Hrule]);
    [rewrite !Hr; change (RULES !! "acm"%string) with (Some 0%nat)
    |rewrite !Hr; change (RULES !! "oi"%string) with (Some 1%nat)
    |rewrite !Hr; change (RULES !! "homework"%string) with (Some 5%nat)
    |rewrite !Hr; change (RULES !! "ioi"%string) with (Some 2%nat)
    |rewrite !Hr; change (RULES !! "ledo"%string) with (Some 4%nat)
    |rewrite !Hr; change (RULES !! "strictioi"%string) with (Some 3%nat)
    |inversion Hrule];
    cbn; fold override;
    destruct (endAt tdoc <? now), (beginAt tdoc <? now), (isLocked tdoc now), override;
    repeat split.
Qed.

Lemma visibility_by_rule_witness :
  is_Some (RULES !! rule frozenContest)
  ∧ canShowRecord guest frozenContest true 20000000 = Ok false.
Proof.
  assert (H1 : is_Some (RULES !! rule frozenContest)) by (vm_compute; eauto).
  split; [exact H1|].
  exact (proj1 (visibility_by_rule guest frozenContest true 20000000 H1)).
Defined.

(** X6. Once a contest with [beginAt <= endAt] has ended and is not locked,
    records, own records and scoreboard are visible to every user under every
    rule, with or without the permission override. *)
Theorem visible_after_end (user : User) (tdoc : Tdoc) (allowPermOverride : bool)
    (now : Z) :
  is_Some (RULES !! rule tdoc) →
  beginAt tdoc ≤ endAt tdoc →
  endAt tdoc < now →
  isLocked tdoc now = false →
  canShowRecord user tdoc allowPermOverride now = Ok true
  ∧ canShowSelfRecord user tdoc allowPermOverride now = Ok true
  ∧ canShowScoreboard user tdoc allowPermOverride now = Ok true.
Proof.
  intros Hrule Horder Hend Hfree. apply RULES_names in Hrule.
  assert (He : (endAt tdoc <? now) = true) by (apply Z.ltb_lt; lia).
  assert (Hb : (beginAt tdoc <? now) = true) by (apply Z.ltb_lt; lia).
  unfold canShowRecord, canShowSelfRecord, canShowScoreboard, canShow, call_show.
  repeat (apply elem_of_cons in Hrule as [Hr | Hrule]);
    [rewrite !Hr; change (RULES !! "acm"%string) with (Some 0%nat)
    |rewrite !Hr; change (RULES !! "oi"%string) with (Some 1%nat)
    |rewrite !Hr; change (RULES !! "homework"%string) with (Some 5%nat)
    |rewrite !Hr; change (RULES !! "ioi"%string) with (Some 2%nat)
    |rewrite !Hr; change (RULES !! "ledo"%string) with (Some 4%nat)
    |rewrite !Hr; change (RULES !! "strictioi"%string) with (Some 3%nat)
    |inversion Hrule];
    cbn; rewrite ?He, ?Hb, ?Hfree; repeat split.
Qed.

Lemma visible_after_end_witness :
  is_Some (RULES !! rule acmContest)
  ∧ beginAt acmContest ≤ endAt acmContest
  ∧ endAt acmContest < 20000000
  ∧ isLocked acmContest 20000000 = false
  ∧ canShowRecord guest acmContest false 20000000 = Ok true.
Proof.
  assert (H1 : is_Some (RULES !! rule acmContest)) by (vm_compute; eauto).
  assert (H2 : beginAt acmContest ≤ endAt acmContest) by (cbn; lia).
  assert (H3 : endAt acmContest < 20000000) by (cbn; lia).
  assert (H4 : isLocked acmContest 20000000 = false) by reflexivity.
  split; [exact H1|]. split; [exact H2|]. split; [exact H3|]. split; [exact H4|].
  exact (proj1 (visible_after_end guest acmContest false 20000000 H1 H2 H3 H4)).
Defined.

(** ** Serving the scoreboard *)

Lemma rankFrom_snd {T} (equ : T → T → bool) last position (docs : list T) :
  (rankFrom equ last position docs).*2 = docs.
Proof.
  revert last position. induction docs as [|doc rest IH]; intros last position; [done|].
  cbn. by rewrite IH.
Qed.

(** ** Sorting the journal and recomputing *)

Lemma insertByTime_perm j journal : insertByTime j journal ≡ₚ j :: journal.
Proof.
  induction journal as [|x rest IH]; [reflexivity|]. cbn.
  destruct (getTimestamp (rid j) <=? getTimestamp (rid x)); [reflexivity|].
  rewrite IH. apply Permutation_swap.
Qed.

Lemma submittedAt_insertByTime t j journal :
  submittedAt t (insertByTime j journal) = submittedAt t (j :: journal).
Proof.
  unfold submittedAt. induction journal as [|x rest IH]; [reflexivity|]. cbn.
  destruct (getTimestamp (rid j) <=? getTimestamp (rid x)) eqn:Hle; [reflexivity|].
  apply Z.leb_gt in Hle. rewrite (filter_cons _ x), IH, !filter_cons.
  repeat case_decide; try reflexivity; lia.
Qed.

Lemma insertByTime_ordered j journal :
  timeOrdered (j :: journal) = true → insertByTime j journal = j :: journal.
Proof.
  destruct journal as [|x rest]; [reflexivity|]. cbn.
  intros [[Hx _]%andb_true_iff _]%andb_true_iff. by rewrite Hx.
Qed.

Lemma _getStatusJournal_ordered journal :
  timeOrdered journal = true → _getStatusJournal journal = journal.
Proof.
  induction journal as [|j rest IH]; [reflexivity|]. intros Hord.
  assert (Hrest : timeOrdered rest = true).
  { cbn in Hord. by apply andb_true_iff in Hord as [_ ?]. }
  unfold _getStatusJournal in *. cbn [foldr]. rewrite (IH Hrest).
  by apply insertByTime_ordered.
Qed.

(** X9. [_getStatusJournal] returns the entries of the journal, each as
    often as before, in the order of their submission instants; entries of
    the same instant keep their order, and sorting a second time changes
    nothing. *)
Theorem _getStatusJournal_sorts (journal : list Jdoc) :
  _getStatusJournal journal ≡ₚ journal
  ∧ timeOrdered (_getStatusJournal journal) = true
  ∧ (∀ t, submittedAt t (_getStatusJournal journal) = submittedAt t journal)
  ∧ _getStatusJournal (_getStatusJournal journal) = _getStatusJournal journal.
Proof.
  split; [|split; [apply _getStatusJournal_timeOrdered|split]].
  - unfold _getStatusJournal. induction journal as [|j rest IH]; [reflexivity|].
    cbn [foldr]. by rewrite insertByTime_perm, IH.
  - intros t. unfold _getStatusJournal.
    induction journal as [|j rest IH]; [reflexivity|].
    cbn [foldr]. rewrite submittedAt_insertByTime. unfold submittedAt in *.
    by rewrite !filter_cons, IH.
  - apply _getStatusJournal_ordered, _getStatusJournal_timeOrdered.
Qed.

Section Recalc.
Context {imports : Imported}.



End Recalc.


(** ** Creating and editing contests *)

Lemma knownRules_snoc st doc :
  knownRules st → is_Some (RULES !! rule doc) → knownRules (st ++ [doc]).
Proof. intros Hst Hdoc. apply Forall_app. split; [exact Hst|by constructor]. Qed.

Lemma Object_prototype_not_rule name : name ∈ Object_prototype → RULES !! name = None.
Proof.
  unfold Object_prototype. intros H.
  repeat (apply elem_of_cons in H as [->|H]; [vm_compute; reflexivity|]).
  by apply elem_of_nil in H.
Qed.

Lemma hasRule_known name : is_Some (RULES !! name) → hasRule name = true.
Proof. intros H. unfold hasRule. by rewrite bool_decide_true. Qed.

Lemma hasRule_inherited name : name ∈ Object_prototype → hasRule name = true.
Proof.
  intros H. unfold hasRule. rewrite (bool_decide_true (name ∈ Object_prototype)) by exact H.
  apply orb_true_r.
Qed.

Lemma hasRule_unknown name :
  RULES !! name = None → name ∉ Object_prototype → hasRule name = false.
Proof.
  intros Hnone Hno. unfold hasRule. rewrite !bool_decide_false; [reflexivity|exact Hno|].
  rewrite Hnone. by intros [? ?].
Qed.

Lemma call_check_inherited name data :
  name ∈ Object_prototype → call_check name data = Throw TypeError.
Proof. intros H. unfold call_check. by rewrite (Object_prototype_not_rule name H). Qed.

(** X11. [add] rejects a rule name that [RULES[rule]] does not find, neither
    in the table nor among the properties the table inherits, with
    [ValidationError('rule')].  A name it does find passes that test; then a
    start that is not before the end gives
    [ValidationError('beginAt', 'endAt')].  After both tests an inherited
    name such as ['constructor'] ends in a [TypeError], as it has no
    [check]; a rule of the table stores a new contest with the given rule,
    times and problems under a fresh id, where [get] finds it, and leaves
    the contests stored before untouched. *)
Theorem add_validates (st : Store) (rule_ : string) (beginAt_ endAt_ : Z)
    (pids_ : list Z) (data : Tdoc) :
  (RULES !! rule_ = None → rule_ ∉ Object_prototype →
   add st rule_ beginAt_ endAt_ pids_ data = Throw (ValidationError ["rule"%string]))
  ∧ (is_Some (RULES !! rule_) ∨ rule_ ∈ Object_prototype → endAt_ ≤ beginAt_ →
     add st rule_ beginAt_ endAt_ pids_ data
     = Throw (ValidationError ["beginAt"%string; "endAt"%string]))
  ∧ (rule_ ∈ Object_prototype → beginAt_ < endAt_ →
     add st rule_ beginAt_ endAt_ pids_ data = Throw TypeError)
  ∧ (is_Some (RULES !! rule_) → beginAt_ < endAt_ →
     ∃ st' tid doc,
       add st rule_ beginAt_ endAt_ pids_ data = Ok (st', tid)
       ∧ get st tid = Throw ContestNotFoundError
       ∧ get st' tid = Ok doc
       ∧ rule doc = rule_ ∧ beginAt doc = beginAt_ ∧ endAt doc = endAt_
       ∧ pids doc = pids_
       ∧ (∀ other tdoc, get st other = Ok tdoc → get st' other = Ok tdoc)
       ∧ (knownRules st → knownRules st')).
Proof.
  unfold add. split; [|split; [|split]].
  - intros Hnone Hno. by rewrite hasRule_unknown.
  - intros Hfound Hle.
    assert (Hr : hasRule rule_ = true)
      by (destruct Hfound; [by apply hasRule_known|by apply hasRule_inherited]).
    rewrite Hr. cbn [negb].
    assert (Hb : (endAt_ <=? beginAt_) = true) by (apply Z.leb_le; lia).
    by rewrite Hb.
  - intros Hin Hlt. rewrite hasRule_inherited by exact Hin. cbn [negb].
    assert (Hb : (endAt_ <=? beginAt_) = false) by (apply Z.leb_gt; lia).
    rewrite Hb. cbn zeta. by rewrite call_check_inherited.
  - intros Hsome Hlt. rewrite hasRule_known by exact Hsome. cbn [negb].
    assert (Hb : (endAt_ <=? beginAt_) = false) by (apply Z.leb_gt; lia).
    rewrite Hb. cbn zeta. rewrite call_check_known by exact Hsome. cbn [bind].
    unfold document_add, get, document_get, Store in *.
    eexists _, _, _. split; [reflexivity|].
    split; [by rewrite lookup_ge_None_2|].
    split; [by rewrite list_lookup_middle|].
    do 4 (split; [reflexivity|]). split.
    + intros other tdoc Hget.
      destruct (st !! other) as [t|] eqn:Ho; [|discriminate].
      by rewrite (lookup_app_l_Some _ _ _ _ Ho).
    + intros Hst. by apply knownRules_snoc.
Qed.

Lemma add_validates_witness :
  is_Some (RULES !! "ledo"%string)
  ∧ 0 < 3600000
  ∧ (∃ st' tid doc,
      add lockedStore "ledo" 0 3600000 [1; 2] storedContest = Ok (st', tid)
      ∧ get lockedStore tid = Throw ContestNotFoundError
      ∧ get st' tid = Ok doc)
  ∧ "constructor"%string ∈ Object_prototype
  ∧ add lockedStore "constructor" 0 3600000 [1; 2] storedContest = Throw TypeError.
Proof.
  assert (H1 : is_Some (RULES !! "ledo"%string)) by (vm_compute; eauto).
  assert (H2 : 0 < 3600000) by lia.
  assert (H3 : "constructor"%string ∈ Object_prototype) by (unfold Object_prototype; by left).
  split; [exact H1|]. split; [exact H2|]. split; [|split; [exact H3|]].
  - destruct (proj2 (proj2 (proj2
                (add_validates lockedStore "ledo" 0 3600000 [1; 2] storedContest)))
                H1 H2)
      as (st' & tid & doc & Hadd & Hold & Hnew & _).
    exists st', tid, doc. split; [exact Hadd|]. split; [exact Hold|]. exact Hnew.
  - exact (proj1 (proj2 (proj2
             (add_validates lockedStore "constructor" 0 3600000 [1; 2] storedContest)))
             H3 H2).
Defined.

(** X12. [edit] on a store whose contests all name rules of the table.  A
    non-empty rule name in [$set] that [RULES[$set.rule]] does not find,
    neither in the table nor among the properties the table inherits, is
    rejected with [ValidationError('rule')] before the contest is looked up.
    An inherited name such as ['constructor'] passes that test: the edit
    then fails with [ContestNotFoundError] for a missing contest and with a
    [TypeError] otherwise, the name having no [check].  With no rule in
    [$set], an empty one or a rule of the table, a missing contest gives
    [ContestNotFoundError]; otherwise the edit succeeds, the contest holds
    its fields overwritten by those of [$set], the others are as before, and
    every stored rule name is still known unless [$set.rule] is the empty
    string. *)
Theorem edit_outcomes (st : Store) (tid : nat) (upd : TdocSet) :
  knownRules st →
  (∀ name, set_rule upd = Some name → name ≠ ""%string →
     RULES !! name = None → name ∉ Object_prototype →
     edit st tid upd = Throw (ValidationError ["rule"%string]))
  ∧ (∀ name, set_rule upd = Some name → name ∈ Object_prototype →
     edit st tid upd
     = match st !! tid with
       | None => Throw ContestNotFoundError
       | Some _ => Throw TypeError
       end)
  ∧ (namesRule (set_rule upd) → st !! tid = None →
     edit st tid upd = Throw ContestNotFoundError)
  ∧ (namesRule (set_rule upd) →
     ∀ tdoc, st !! tid = Some tdoc →
       ∃ st', edit st tid upd = Ok st'
         ∧ get st' tid = Ok (assign tdoc upd)
         ∧ length st' = length st
         ∧ (∀ other, other ≠ tid → st' !! other = st !! other)
         ∧ (set_rule upd ≠ Some ""%string → knownRules st')).
Proof.
  intros Hknown.
  assert (Hpass : namesRule (set_rule upd) → unknownRule (set_rule upd) = false).
  { unfold namesRule, unknownRule. destruct (set_rule upd) as [name|]; [|done].
    intros [->|Hsome]; [reflexivity|]. rewrite hasRule_known by exact Hsome.
    apply andb_false_r. }
  unfold edit, get, document_get, document_set, Store in *.
  split; [|split; [|split]].
  - intros name Hn Hne Hnone Hno. rewrite Hn. unfold unknownRule.
    rewrite hasRule_unknown by assumption. by rewrite bool_decide_false.
  - intros name Hn Hin. rewrite Hn. unfold unknownRule.
    rewrite hasRule_inherited by exact Hin. rewrite andb_false_r.
    destruct (st !! tid) as [tdoc|]; [|reflexivity].
    assert (Hne : name ≠ ""%string).
    { intros ->. unfold Object_prototype in Hin.
      repeat (apply elem_of_cons in Hin as [Hin|Hin]; [discriminate|]).
      by apply elem_of_nil in Hin. }
    unfold ruleOr. rewrite bool_decide_false by exact Hne.
    by rewrite call_check_inherited.
  - intros Hu Hst. by rewrite (Hpass Hu), Hst.
  - intros Hu tdoc Hst. rewrite (Hpass Hu), Hst.
    assert (Hstored : is_Some (RULES !! rule tdoc)).
    { unfold knownRules in Hknown. rewrite Forall_lookup in Hknown. by eapply Hknown. }
    assert (Hset : ∀ name, set_rule upd = Some name → name ≠ ""%string →
                   is_Some (RULES !! name)).
    { intros name Hn Hne. unfold namesRule in Hu. rewrite Hn in Hu.
      by destruct Hu as [->|Hsome]. }
    assert (Hnew : set_rule upd ≠ Some ""%string →
                   is_Some (RULES !! rule (assign tdoc upd))).
    { intros Hne. change (rule (assign tdoc upd)) with (default (rule tdoc) (set_rule upd)).
      destruct (set_rule upd) as [name|] eqn:Hn; [|exact Hstored].
      change (default (rule tdoc) (Some name)) with name.
      apply Hset; [reflexivity|]. intros ->. apply Hne. reflexivity. }
    assert (Hchecked : is_Some (RULES !! ruleOr (set_rule upd) (rule tdoc))).
    { unfold ruleOr. destruct (set_rule upd) as [name|] eqn:Hn; [|exact Hstored].
      case_bool_decide as Hempty; [exact Hstored|]. by apply Hset. }
    rewrite call_check_known by exact Hchecked. cbn [bind].
    eexists. split; [reflexivity|].
    split; [by rewrite list_lookup_alter_eq, Hst|].
    split; [apply length_alter|].
    split; [intros other Hne; by rewrite list_lookup_alter_ne|].
    intros Hne. unfold knownRules in *. rewrite Forall_lookup in *.
    intros i t Hi. destruct (decide (i = tid)) as [->|Hi'].
    + rewrite list_lookup_alter_eq, Hst in Hi. injection Hi as <-. by apply Hnew.
    + rewrite list_lookup_alter_ne in Hi by done. by eapply Hknown.
Qed.

Lemma edit_outcomes_witness :
  knownRules lockedStore
  ∧ namesRule (set_rule reversingEdit)
  ∧ lockedStore !! 0%nat = Some frozenContest
  ∧ ∃ st', edit lockedStore 0 reversingEdit = Ok st'
           ∧ get st' 0 = Ok (assign frozenContest reversingEdit).
Proof.
  assert (H1 : knownRules lockedStore).
  { repeat constructor. vm_compute. eauto. }
  assert (H2 : namesRule (set_rule reversingEdit)) by exact I.
  assert (H3 : lockedStore !! 0%nat = Some frozenContest) by reflexivity.
  split; [exact H1|]. split; [exact H2|]. split; [exact H3|].
  destruct (proj2 (proj2 (proj2 (edit_outcomes lockedStore 0 reversingEdit H1))) H2 _ H3)
    as (st' & Hedit & Hget & _).
  exists st'. split; [exact Hedit|exact Hget].
Defined.

(** ** Building a rule *)

(** X13. [buildContestRule] fails, with a [TypeError], exactly when one of
    [scoreboard], [scoreboardRow], [scoreboardHeader], [stat] is supplied
    neither by the definition nor by the originals of the base rule; when it
    succeeds the new rule is the one object added, after the objects that
    were there. *)
Theorem buildContestRule_needs_functions (h : Heap) (def baseRule : RuleObj) :
  match buildContestRule h def baseRule with
  | Ok (h', a) =>
      providesFunctions def baseRule = true
      ∧ a = length h ∧ length h' = S (length h) ∧ take (length h) h' = h
  | Throw e => providesFunctions def baseRule = false ∧ e = TypeError
  end.
Proof.
  unfold buildContestRule, providesFunctions.
  destruct (orElse (r_scoreboard def) _) as [[c1|c1 t1]|];
    [| |repeat split];
    (destruct (orElse (r_scoreboardRow def) _) as [[c2|c2 t2]|];
     [| |repeat split]);
    (destruct (orElse (r_scoreboardHeader def) _) as [[c3|c3 t3]|];
     [| |repeat split]);
    (destruct (orElse (r_stat def) _) as [[c4|c4 t4]|];
     [| |repeat split]);
    cbn [bindTo bind];
    (split; [reflexivity|]); (split; [reflexivity|]);
    (split; [rewrite length_app; cbn; lia|]);
    by rewrite take_app_length.
Qed.

(** ** Statistics of a contest that is not locked *)

Lemma sumBy_perm {A} (f : A → Z) (l1 l2 : list A) :
  l1 ≡ₚ l2 → sumBy f l1 = sumBy f l2.
Proof. unfold sumBy. induction 1; cbn [foldr]; lia. Qed.

Lemma values_fmap {A B} (f : A → B) (m : gmap Z A) : values (f <$> m) ≡ₚ f <$> values m.
Proof.
  unfold values. rewrite map_to_list_fmap, <- !list_fmap_compose.
  erewrite list_fmap_ext; [reflexivity|]. by intros i [k x].
Qed.

Section Unlocked.
Context {imports : Imported}.

Lemma acm_loop_unlocked sAA tdoc journal :
  let s := acm_loop sAA tdoc None acm_init journal in
  as_display s = acm_shows <$> as_detail s.
Proof.
  induction journal as [|j journal IH] using rev_ind;
    [exact (eq_sym (fmap_empty _))|].
  unfold acm_loop in *. rewrite fold_left_app. cbn [fold_left].
  set (s := fold_left _ journal acm_init) in *. cbn zeta in *.
  unfold acm_step. cbn [afterLock].
  destruct (negb sAA && acm_displayAccepted (as_display s) (pid j)); [exact IH|].
  cbn. by rewrite fmap_insert, IH.
Qed.

Lemma oi_loop_unlocked sAA journal :
  let s := oi_loop sAA None oi_init journal in
  os_display s = oi_shows <$> os_detail s.
Proof.
  induction journal as [|j journal IH] using rev_ind;
    [exact (eq_sym (fmap_empty _))|].
  unfold oi_loop in *. rewrite fold_left_app. cbn [fold_left].
  set (s := fold_left _ journal oi_init) in *. cbn zeta in *.
  unfold oi_step. cbn [afterLock].
  destruct (improves (os_detail s) j || sAA); [|exact IH].
  cbn. by rewrite fmap_insert, IH.
Qed.

(** X14. While the contest is not locked, the [display] that [acm.stat] and
    [oi.stat] return refers, problem by problem, to exactly the record that
    [detail] holds (the same object, so also with whatever other properties
    that object carries); the ACM totals count the accepted records of
    [detail] and add up their times, and the OI total is the sum of the
    scores in [detail]. *)
Theorem display_is_detail_unlocked (sAA : bool) (tdoc : Tdoc) (now : Z)
    (journal : list Jdoc) :
  isLocked tdoc now = false →
  let a := acm_stat sAA tdoc now journal in
  let o := oi_stat sAA tdoc now journal in
  let acceptedRecords :=
    filter (fun d => isAccepted (status (ad_j d)) = true) (values (acm_detail a)) in
  aq_shown <$> acm_display a = Some <$> acm_detail a
  ∧ acm_accept a = Z.of_nat (length acceptedRecords)
  ∧ acm_time a = sumBy ad_time acceptedRecords
  ∧ oq_shown <$> oi_display o = Some <$> oi_detail o
  ∧ oi_score o = sumBy score (values (oi_detail o)).
Proof.
  intros Hfree. unfold acm_stat, oi_stat, effectiveLock. rewrite Hfree. cbn zeta.
  cbn [acm_display acm_detail acm_accept acm_time oi_display oi_detail oi_score].
  pose proof (acm_loop_unlocked sAA tdoc journal) as Ha.
  pose proof (oi_loop_unlocked sAA (inPids tdoc journal)) as Ho.
  cbn zeta in Ha, Ho.
  assert (Hshown : acm_acceptedShown (as_display (acm_loop sAA tdoc None acm_init journal))
                   ≡ₚ filter (fun d => isAccepted (status (ad_j d)) = true)
                        (values (as_detail (acm_loop sAA tdoc None acm_init journal)))).
  { unfold acm_acceptedShown. rewrite Ha. apply filter_Permutation.
    rewrite values_fmap.
    generalize (values (as_detail (acm_loop sAA tdoc None acm_init journal))).
    intros l. induction l as [|d l IH]; [reflexivity|]. cbn. by rewrite IH. }
  split; [rewrite Ha, <- map_fmap_compose; reflexivity|]. split; [by rewrite Hshown|].
  split; [by apply sumBy_perm|]. split; [rewrite Ho, <- map_fmap_compose; reflexivity|].
  rewrite Ho. rewrite (sumBy_perm _ _ _ (values_fmap _ _)).
  generalize (values (os_detail (oi_loop sAA None oi_init (inPids tdoc journal)))).
  intros l. induction l as [|d l IH]; [reflexivity|].
  rewrite fmap_cons. unfold sumBy in *. cbn [foldr]. by rewrite IH.
Qed.
End Unlocked.

Lemma display_is_detail_unlocked_witness :
  isLocked acmContest 100 = false
  ∧ aq_shown <$> acm_display (acm_stat (imports := sampleImports) false acmContest 100 journalA)
    = Some <$> acm_detail (acm_stat (imports := sampleImports) false acmContest 100 journalA).
Proof.
  assert (H1 : isLocked acmContest 100 = false) by reflexivity.
  split; [exact H1|].
  exact (proj1 (display_is_detail_unlocked (imports := sampleImports) false acmContest 100
                  journalA H1)).
Defined.

(** ** Which entry the OI family keeps *)

Lemma entriesOn_snoc p journal j :
  entriesOn p (journal ++ [j])
  = if decide (pid j = p) then entriesOn p journal ++ [j] else entriesOn p journal.
Proof.
  unfold entriesOn. rewrite filter_app, filter_cons, filter_nil.
  case_decide; [reflexivity|apply app_nil_r].
Qed.

Lemma entriesOn_inPids p tdoc journal :
  entriesOn p (inPids tdoc journal)
  = if includes (pids tdoc) p then entriesOn p journal else [].
Proof.
  unfold entriesOn, inPids. induction journal as [|j journal IH].
  - by destruct (includes (pids tdoc) p).
  - rewrite (filter_cons _ j journal). case_decide as Hin.
    + rewrite !filter_cons, IH. case_decide as Hp; [|reflexivity].
      rewrite <- Hp, Hin. reflexivity.
    + rewrite IH, filter_cons. case_decide as Hp; [|reflexivity].
      rewrite <- Hp. by destruct (includes (pids tdoc) (pid j)).
Qed.

Section Kept.
Context {imports : Imported}.

Lemma oi_step_detail sAA lock s j :
  os_detail (oi_step sAA lock s j)
  = if improves (os_detail s) j || sAA then <[pid j := j]> (os_detail s) else os_detail s.
Proof.
  unfold oi_step. destruct (improves (os_detail s) j || sAA); [|reflexivity].
  by destruct (afterLock lock j).
Qed.

Lemma oi_loop_last lock journal p :
  os_detail (oi_loop true lock oi_init journal) !! p = last (entriesOn p journal).
Proof.
  induction journal as [|j journal IH] using rev_ind; [reflexivity|].
  unfold oi_loop in *. rewrite fold_left_app. cbn [fold_left].
  rewrite oi_step_detail, orb_true_r, entriesOn_snoc. case_decide as Hp.
  - subst p. by rewrite lookup_insert_eq, last_snoc.
  - by rewrite lookup_insert_ne.
Qed.

(** The recorded entry of a problem when resubmissions only count if they
    improve: none while the journal has no entry on the problem, else the
    first entry that reaches the highest score. *)
Lemma oi_loop_best lock journal p :
  match os_detail (oi_loop false lock oi_init journal) !! p with
  | None => entriesOn p journal = []
  | Some d =>
      ∃ before after,
        entriesOn p journal = before ++ d :: after
        ∧ Forall (fun j => score j < score d) before
        ∧ Forall (fun j => score j ≤ score d) after
  end.
Proof.
  induction journal as [|j journal IH] using rev_ind; [reflexivity|].
  unfold oi_loop in *. rewrite fold_left_app. cbn [fold_left].
  set (s := fold_left _ journal oi_init) in *.
  rewrite oi_step_detail, orb_false_r, entriesOn_snoc.
  unfold improves. case_decide as Hp.
  - subst p. destruct (os_detail s !! pid j) as [d|] eqn:Hold.
    + destruct IH as (before & after & Heq & Hb & Ha).
      destruct (score d <? score j) eqn:Hlt.
      * rewrite lookup_insert_eq.
        apply Z.ltb_lt in Hlt. exists (before ++ d :: after), [].
        split; [by rewrite Heq|]. split; [|constructor].
        apply Forall_app. split.
        -- eapply Forall_impl; [exact Hb|]. cbn. lia.
        -- constructor; [exact Hlt|]. eapply Forall_impl; [exact Ha|]. cbn. lia.
      * rewrite Hold. apply Z.ltb_ge in Hlt. exists before, (after ++ [j]).
        split; [by rewrite Heq, <- app_assoc|]. split; [exact Hb|].
        apply Forall_app. split; [exact Ha|]. by repeat constructor.
    + rewrite lookup_insert_eq, IH. exists [], [].
      split; [reflexivity|]. split; constructor.
  - destruct (match os_detail s !! pid j with Some d => _ | None => _ end);
      [by rewrite lookup_insert_ne|exact IH].
Qed.

(** X15. Which entry [detail] holds for a problem of the contest: under
    [oi] the last entry of the journal on that problem; under [ioi] the
    first entry on it that reaches the highest score.  Problems outside the
    contest have no record. *)
Theorem oi_family_keeps (tdoc : Tdoc) (now : Z) (journal : list Jdoc) (p : Z) :
  ∃ o i,
    stat "oi" tdoc now journal = Ok (StatsOi o)
    ∧ stat "ioi" tdoc now journal = Ok (StatsOi i)
    ∧ oi_detail o !! p
      = (if includes (pids tdoc) p then last (entriesOn p journal) else None)
    ∧ match oi_detail i !! p with
      | None => includes (pids tdoc) p = false ∨ entriesOn p journal = []
      | Some d =>
          includes (pids tdoc) p = true
          ∧ ∃ before after,
              entriesOn p journal = before ++ d :: after
              ∧ Forall (fun j => score j < score d) before
              ∧ Forall (fun j => score j ≤ score d) after
      end.
Proof.
  eexists _, _. split; [apply stat_oi|]. split; [apply stat_ioi|].
  unfold oi_stat. cbn [oi_detail]. split.
  - rewrite oi_loop_last, entriesOn_inPids. by destruct (includes (pids tdoc) p).
  - pose proof (oi_loop_best (effectiveLock tdoc now) (inPids tdoc journal) p) as Hbest.
    rewrite entriesOn_inPids in Hbest.
    destruct (os_detail _ !! p) as [d|].
    + destruct (includes (pids tdoc) p).
      * split; [reflexivity|exact Hbest].
      * destruct Hbest as (before & after & Heq & _). by destruct before.
    + destruct (includes (pids tdoc) p); [by right|by left].
Qed.
End Kept.

(** ** The accumulator of the strict IOI rule *)

Lemma mergeSubtasks_lookup acc own i :
  mergeSubtasks acc own !! i
  = match own !! i with
    | None => acc !! i
    | Some st =>
        match acc !! i with
        | Some old => if st_score old <? st_score st then Some st else Some old
        | None => Some st
        end
    end.
Proof.
  unfold mergeSubtasks.
  apply (map_fold_weak_ind
           (fun r m => r !! i = match m !! i with
                                | None => acc !! i
                                | Some st =>
                                    match acc !! i with
                                    | Some old =>
                                        if st_score old <? st_score st then Some st
                                        else Some old
                                    | None => Some st
                                    end
                                end)).
  - by rewrite lookup_empty.
  - intros k x m r Hk Hr. destruct (decide (k = i)) as [->|Hne].
    + rewrite lookup_insert_eq. rewrite Hk in Hr.
      destruct (r !! i) as [old|] eqn:Hold; rewrite <- Hr.
      * destruct (st_score old <? st_score x); [by rewrite lookup_insert_eq|exact Hold].
      * by rewrite lookup_insert_eq.
    + rewrite (lookup_insert_ne m) by done. rewrite <- Hr.
      destruct (r !! k) as [old|]; [destruct (st_score old <? st_score x)|];
        by rewrite ?lookup_insert_ne.
Qed.

Lemma collectSubtasks_snoc acc journal j :
  collectSubtasks acc (journal ++ [j])
  = mergeSubtasks (collectSubtasks acc journal) (subtasks j).
Proof. unfold collectSubtasks. by rewrite fold_left_app. Qed.

Lemma collectSubtasks_best journal i :
  match collectSubtasks ∅ journal !! i with
  | None => ∀ j, j ∈ journal → subtasks j !! i = None
  | Some st => bestResult journal i st
  end.
Proof.
  induction journal as [|j journal IH] using rev_ind.
  - cbn. rewrite lookup_empty. intros j Hj. inversion Hj.
  - rewrite collectSubtasks_snoc, mergeSubtasks_lookup.
    destruct (subtasks j !! i) as [st|] eqn:Hj.
    + destruct (collectSubtasks ∅ journal !! i) as [old|].
      * destruct IH as [(k & Hk & Hold) Hmax].
        destruct (st_score old <? st_score st) eqn:Hlt.
        -- apply Z.ltb_lt in Hlt. split.
           ++ exists j. split; [apply elem_of_app; right; by constructor|exact Hj].
           ++ intros k' st' [Hin|Hin]%elem_of_app Hst'.
              ** specialize (Hmax k' st' Hin Hst'). lia.
              ** apply list_elem_of_singleton in Hin as ->.
                 rewrite Hj in Hst'. injection Hst' as <-. lia.
        -- apply Z.ltb_ge in Hlt. split.
           ++ exists k. split; [apply elem_of_app; by left|exact Hold].
           ++ intros k' st' [Hin|Hin]%elem_of_app Hst'.
              ** by apply (Hmax k' st').
              ** apply list_elem_of_singleton in Hin as ->.
                 rewrite Hj in Hst'. by injection Hst' as <-.
      * split.
        -- exists j. split; [apply elem_of_app; right; by constructor|exact Hj].
        -- intros k' st' [Hin|Hin]%elem_of_app Hst'.
           ++ by rewrite (IH k' Hin) in Hst'.
           ++ apply list_elem_of_singleton in Hin as ->.
              rewrite Hj in Hst'. injection Hst' as <-. lia.
    + destruct (collectSubtasks ∅ journal !! i) as [old|].
      * destruct IH as [(k & Hk & Hold) Hmax]. split.
        -- exists k. split; [apply elem_of_app; by left|exact Hold].
        -- intros k' st' [Hin|Hin]%elem_of_app Hst'.
           ++ by apply (Hmax k' st').
           ++ apply list_elem_of_singleton in Hin as ->. by rewrite Hj in Hst'.
      * intros k' [Hin|Hin]%elem_of_app; [by apply IH|].
        by apply list_elem_of_singleton in Hin as ->.
Qed.

Lemma inPids_cons tdoc j journal :
  inPids tdoc (j :: journal)
  = if includes (pids tdoc) (pid j) then j :: inPids tdoc journal else inPids tdoc journal.
Proof.
  unfold inPids. rewrite filter_cons.
  destruct (includes (pids tdoc) (pid j)); case_decide; done.
Qed.

(** What the loop of [strictioi.stat] leaves behind when started from the
    state [s]. *)
Lemma strictioi_loop_spec tdoc journal s :
  let r := strictioi_loop tdoc s journal in
  let accAt k := collectSubtasks (ss_subtasks s) (inPids tdoc (take (S k) journal)) in
  ss_subtasks r.1 = collectSubtasks (ss_subtasks s) (inPids tdoc journal)
  ∧ length r.2 = length journal
  ∧ (∀ k j j', journal !! k = Some j → r.2 !! k = Some j' →
       j' = if includes (pids tdoc) (pid j) then strictioi_rewrite (accAt k) j else j)
  ∧ (∀ p d, ss_detail r.1 !! p = Some d →
       ss_detail s !! p = Some d
       ∨ ∃ k j, journal !! k = Some j ∧ includes (pids tdoc) (pid j) = true
                ∧ pid j = p ∧ d = strictioi_rewrite (accAt k) j).
Proof.
  revert s. induction journal as [|j rest IH]; intros s.
  - cbn. split; [reflexivity|]. split; [reflexivity|]. split; [done|]. by left.
  - cbn [strictioi_loop]. cbn zeta.
    destruct (includes (pids tdoc) (pid j)) eqn:Hin.
    + unfold strictioi_step.
      set (acc := mergeSubtasks (ss_subtasks s) (subtasks j)).
      set (s1 := {| ss_detail := _; ss_subtasks := acc |}).
      specialize (IH s1). cbn zeta in IH.
      destruct (strictioi_loop tdoc s1 rest) as [s2 rest'] eqn:Hloop.
      cbn [fst snd] in *. destruct IH as (Hacc & Hlen & Hout & Hdet).
      assert (Hstep : ∀ l, collectSubtasks (ss_subtasks s) (inPids tdoc (j :: l))
                           = collectSubtasks acc (inPids tdoc l)).
      { intros l. by rewrite inPids_cons, Hin. }
      split; [by rewrite Hstep|]. split; [cbn; by rewrite Hlen|]. split.
      * intros [|k] j0 j' Hj0 Hj'.
        -- injection Hj0 as <-. injection Hj' as <-. rewrite Hin.
           change (take 1 (j :: rest)) with [j]. by rewrite inPids_cons, Hin.
        -- cbn in Hj0, Hj'. rewrite (Hout k j0 j' Hj0 Hj').
           change (take (S (S k)) (j :: rest)) with (j :: take (S k) rest).
           by rewrite Hstep.
      * intros p d Hd. destruct (Hdet p d Hd) as [Hold|(k & j0 & Hk & Hin0 & Hp & ->)].
        -- subst s1. cbn [ss_detail] in Hold.
           destruct (improves (ss_detail s) (strictioi_rewrite acc j)); [|by left].
           destruct (decide (pid j = p)) as [Hp|Hp].
           ++ subst p. rewrite lookup_insert_eq in Hold. injection Hold as <-.
              right. exists 0%nat, j. split; [reflexivity|]. split; [exact Hin|].
              split; [reflexivity|].
              change (take 1 (j :: rest)) with [j]. by rewrite inPids_cons, Hin.
           ++ rewrite lookup_insert_ne in Hold by done. by left.
        -- right. exists (S k), j0. split; [exact Hk|]. split; [exact Hin0|].
           split; [exact Hp|].
           change (take (S (S k)) (j :: rest)) with (j :: take (S k) rest).
           by rewrite Hstep.
    + specialize (IH s). cbn zeta in IH.
      destruct (strictioi_loop tdoc s rest) as [s2 rest'] eqn:Hloop.
      cbn [fst snd] in *. destruct IH as (Hacc & Hlen & Hout & Hdet).
      assert (Hstep : ∀ l, inPids tdoc (j :: l) = inPids tdoc l).
      { intros l. by rewrite inPids_cons, Hin. }
      split; [by rewrite Hstep|]. split; [cbn; by rewrite Hlen|]. split.
      * intros [|k] j0 j' Hj0 Hj'.
        -- injection Hj0 as <-. injection Hj' as <-. by rewrite Hin.
        -- cbn in Hj0, Hj'. rewrite (Hout k j0 j' Hj0 Hj').
           change (take (S (S k)) (j :: rest)) with (j :: take (S k) rest).
           by rewrite Hstep.
      * intros p d Hd. destruct (Hdet p d Hd) as [Hold|(k & j0 & Hk & Hin0 & Hp & ->)].
        -- by left.
        -- right. exists (S k), j0. split; [exact Hk|]. split; [exact Hin0|].
           split; [exact Hp|].
           change (take (S (S k)) (j :: rest)) with (j :: take (S k) rest).
           by rewrite Hstep.
Qed.

(** X16. The accumulator of [strictioi.stat] is one object for the whole
    call: it collects, per subtask id, the best result among all processed
    entries, whatever their problem.  Every processed entry is left with the
    final accumulator as its [subtasks] and, as its [score], the sum over the
    accumulator as it stood right after that entry; an entry outside the
    contest's problems is left alone, and the record of a problem is one of
    the processed entries on it. *)
Theorem strictioi_accumulates (tdoc : Tdoc) (journal : list Jdoc) :
  let processed := inPids tdoc journal in
  let final := collectSubtasks ∅ processed in
  let scoreAt k :=
    sumBy st_score (values (collectSubtasks ∅ (inPids tdoc (take (S k) journal)))) in
  let result := strictioi_stat tdoc journal in
  (∀ i, match final !! i with
        | None => ∀ j, j ∈ processed → subtasks j !! i = None
        | Some st => bestResult processed i st
        end)
  ∧ length result.2 = length journal
  ∧ (∀ k j j', journal !! k = Some j → result.2 !! k = Some j' →
       if includes (pids tdoc) (pid j)
       then rid j' = rid j ∧ pid j' = pid j ∧ subtasks j' = final ∧ score j' = scoreAt k
       else j' = j)
  ∧ (∀ p d, strict_detail result.1 !! p = Some d →
       subtasks d = final
       ∧ ∃ k j, journal !! k = Some j ∧ includes (pids tdoc) (pid j) = true
                ∧ pid j = p ∧ rid d = rid j ∧ pid d = p ∧ score d = scoreAt k).
Proof.
  cbn zeta. split; [intros i; apply collectSubtasks_best|].
  pose proof (strictioi_loop_spec tdoc journal strictioi_init) as Hspec.
  cbn zeta in Hspec. unfold strictioi_stat.
  destruct (strictioi_loop tdoc strictioi_init journal) as [s out] eqn:Hloop.
  cbn [fst snd strict_detail] in *.
  change (ss_subtasks strictioi_init) with (∅ : gmap Z SubtaskResult) in Hspec.
  destruct Hspec as (Hacc & Hlen & Hout & Hdet).
  split; [by rewrite length_fmap|]. split.
  - intros k j j' Hj Hj'. rewrite list_lookup_fmap in Hj'.
    destruct (out !! k) as [j1|] eqn:Hj1; [|discriminate]. injection Hj' as <-.
    rewrite (Hout k j j1 Hj Hj1).
    destruct (includes (pids tdoc) (pid j)) eqn:Hin; cbn [pid strictioi_rewrite].
    + rewrite Hin. cbn. by rewrite Hacc.
    + by rewrite Hin.
  - intros p d Hd. rewrite lookup_fmap in Hd.
    destruct (ss_detail s !! p) as [d1|] eqn:Hd1; [|discriminate]. injection Hd as <-.
    split; [cbn; by rewrite Hacc|].
    destruct (Hdet p d1 Hd1) as [Hold|(k & j & Hk & Hin & Hp & ->)].
    + unfold strictioi_init in Hold. cbn [ss_detail] in Hold.
      by rewrite lookup_empty in Hold.
    + exists k, j. by repeat split.
Qed.

Lemma strictioi_accumulates_witness :
  strictJournal !! 1%nat
  = Some (entry 20 2 wrongAnswer 20 [(1, {| st_score := 20; st_status := wrongAnswer |})])
  ∧ ∀ j', (strictioi_stat strictContest strictJournal).2 !! 1%nat
          = Some j' →
          subtasks j' = collectSubtasks ∅ (inPids strictContest strictJournal).
Proof.
  assert (H1 : strictJournal !! 1%nat
               = Some (entry 20 2 wrongAnswer 20
                         [(1, {| st_score := 20; st_status := wrongAnswer |})])).
  { reflexivity. }
  split; [exact H1|]. intros j' Hj'.
  exact (proj1 (proj2 (proj2
           (proj1 (proj2 (proj2 (strictioi_accumulates
                                   strictContest strictJournal)))
              1%nat _ j' H1 Hj')))).
Defined.

(** ** Bounds of the Ledo score *)

Section LedoBounds.
Context {imports : Imported}.

Lemma ledo_coefficient_floor_le (e : Z) : (double (7#10) <= ledo_coefficient e)%Q.
Proof.
  unfold ledo_coefficient, Qmax.
  destruct (Qle_bool (double (7#10)) (exponentiate (double (95#100)) e)) eqn:Hle.
  - by apply Qle_bool_iff in Hle.
  - apply Qle_refl.
Qed.

Lemma ledo_coefficient_unit (e : Z) : exponentiateOk → 0 ≤ e → (ledo_coefficient e <= 1)%Q.
Proof.
  intros Hpow He. unfold ledo_coefficient, Qmax.
  destruct (Qle_bool (double (7#10)) (exponentiate (double (95#100)) e));
    [|apply Qle_bool_imp_le; vm_compute; reflexivity].
  destruct (Hpow (double (95#100)) e decay_base_pos He) as (Hone & _ & Hhi).
  destruct (decide (e = 0)) as [->|Hne]; [by rewrite (Hone eq_refl)|].
  eapply Qle_trans; [exact Hhi|].
  apply Qle_trans with (double (95#100) ^ 1 * (1 + pow2 (-45)))%Q.
  - apply Qmult_le_compat_r; [|apply Qle_bool_imp_le; vm_compute; reflexivity].
    apply Qpower_antitone; [exact decay_base_pos|exact decay_base_unit|lia].
  - apply Qle_bool_imp_le. vm_compute. reflexivity.
Qed.

Lemma ledo_penaltyScore_bounds (valid : bool) (n : Z) (j : Jdoc) :
  0 ≤ score j < 2 ^ 53 → (valid = true → 1 ≤ n) →
  0 ≤ ledo_penaltyScore valid n j
  ∧ (valid = true →
     Math_round (fmul (double (7#10)) (inject_Z (score j))) ≤ ledo_penaltyScore valid n j)
  ∧ (exponentiateOk → ledo_penaltyScore valid n j ≤ score j).
Proof.
  intros Hs Hn. unfold ledo_penaltyScore. destruct valid; [|repeat split; [lia|done|lia]].
  pose proof (ledo_coefficient_floor_le (n - 1)) as Hlo.
  assert (Hq : (0 <= inject_Z (score j))%Q).
  { unfold Qle. cbn. lia. }
  assert (Hfloor : Math_round (fmul (double (7#10)) (inject_Z (score j)))
                   ≤ Math_round (fmul (ledo_coefficient (n - 1)) (inject_Z (score j)))).
  { apply Math_round_mono. by apply fmul_mono_l. }
  split; [|split; [intros _; exact Hfloor|]].
  - etransitivity; [|exact Hfloor].
    rewrite <- (Math_round_Z 0). apply Math_round_mono.
    change (inject_Z 0) with (double 0). apply double_mono.
    apply Qmult_le_0_compat; [|exact Hq]. apply Qle_bool_imp_le. vm_compute. reflexivity.
  - intros Hpow.
    pose proof (ledo_coefficient_unit (n - 1) Hpow ltac:(specialize (Hn eq_refl); lia)) as Hhi.
    assert (Hwhole : Math_round (fmul 1 (inject_Z (score j))) = score j).
    { unfold fmul. rewrite Qmult_1_l, double_Z by lia. apply Math_round_Z. }
    rewrite <- Hwhole at 2. apply Math_round_mono. by apply fmul_mono_l.
Qed.

(** Every record of [detail] is an entry of the journal on its problem, with
    the penalised score computed from the number of valid attempts before
    it. *)
Lemma ledo_detail_inv journal p d :
  ls_detail (ledo_loop ledo_init journal) !! p = Some d →
  ld_j d ∈ journal ∧ pid (ld_j d) = p
  ∧ ld_penaltyScore d
    = ledo_penaltyScore (ledo_valid (ld_j d)) (ld_ntry d + 1) (ld_j d)
  ∧ (ledo_valid (ld_j d) = true → 0 ≤ ld_ntry d).
Proof.
  revert d. induction journal as [|j journal IH] using rev_ind; intros d.
  - cbn. by rewrite lookup_empty.
  - rewrite ledo_loop_snoc. unfold ledo_step at 1. cbn [ls_detail].
    set (s := ledo_loop ledo_init journal) in *.
    assert (Hold : ls_detail s !! p = Some d →
                   ld_j d ∈ journal ++ [j] ∧ pid (ld_j d) = p
                   ∧ ld_penaltyScore d
                     = ledo_penaltyScore (ledo_valid (ld_j d)) (ld_ntry d + 1) (ld_j d)
                   ∧ (ledo_valid (ld_j d) = true → 0 ≤ ld_ntry d)).
    { intros Hd. destruct (IH d Hd) as (Hin & Hrest).
      split; [apply elem_of_app; by left|exact Hrest]. }
    destruct (match ls_detail s !! pid j with
              | Some d0 => ld_penaltyScore d0 <? ledo_scored s j
              | None => true
              end); [|exact Hold].
    destruct (decide (pid j = p)) as [Hp|Hp].
    + subst p. rewrite lookup_insert_eq. intros [= <-]. cbn [ld_j ld_penaltyScore ld_ntry].
      split; [apply elem_of_app; right; by constructor|]. split; [reflexivity|].
      split.
      * unfold ledo_scored. f_equal. lia.
      * intros Hv. unfold ledo_count. rewrite Hv, counter_get_incr.
        subst s. rewrite ledo_ntry_counts. unfold validAttempts. lia.
    + rewrite lookup_insert_ne by done. exact Hold.
Qed.

(** X17. With raw scores that are natural numbers (below 2^53), every Ledo
    record carries a penalised score that is not negative: 0 for a compile
    or format error, and otherwise at least what the floor coefficient gives,
    round(0.7 × raw score) computed in double precision.  With an accurate
    [**] it is at most the raw score of its entry, so the total never exceeds
    the total of the raw scores. *)
Theorem ledo_score_bounds (tdoc : Tdoc) (journal : list Jdoc) :
  Forall (fun j => 0 ≤ score j < 2 ^ 53) journal →
  let s := ledo_stat tdoc journal in
  (∀ p d, ledo_detail s !! p = Some d →
     ld_j d ∈ journal ∧ pid (ld_j d) = p
     ∧ 0 ≤ ld_penaltyScore d
     ∧ (if ledo_valid (ld_j d)
        then Math_round (fmul (double (7#10)) (inject_Z (score (ld_j d)))) ≤ ld_penaltyScore d
        else ld_penaltyScore d = 0)
     ∧ (exponentiateOk → ld_penaltyScore d ≤ score (ld_j d)))
  ∧ 0 ≤ ledo_score s
  ∧ (exponentiateOk → ledo_score s ≤ ledo_originalScore s).
Proof.
  intros Hscores. cbn zeta. unfold ledo_stat.
  cbn [ledo_detail ledo_score ledo_originalScore].
  assert (Hrec : ∀ p d, ls_detail (ledo_loop ledo_init (inPids tdoc journal)) !! p = Some d →
                 ld_j d ∈ journal ∧ pid (ld_j d) = p
                 ∧ 0 ≤ ld_penaltyScore d
                 ∧ (if ledo_valid (ld_j d)
                    then Math_round (fmul (double (7#10)) (inject_Z (score (ld_j d))))
                         ≤ ld_penaltyScore d
                    else ld_penaltyScore d = 0)
                 ∧ (exponentiateOk → ld_penaltyScore d ≤ score (ld_j d))).
  { intros p d Hd. destruct (ledo_detail_inv _ _ _ Hd) as (Hin & Hp & Hps & Hn).
    assert (Hj : ld_j d ∈ journal).
    { unfold inPids in Hin. by apply list_elem_of_filter in Hin as [_ ?]. }
    assert (Hs : 0 ≤ score (ld_j d) < 2 ^ 53).
    { rewrite Forall_forall in Hscores. by apply Hscores. }
    destruct (ledo_penaltyScore_bounds (ledo_valid (ld_j d)) (ld_ntry d + 1) (ld_j d) Hs)
      as (Hb & Hlo & Hhi).
    { intros Hv. specialize (Hn Hv). lia. }
    rewrite <- Hps in Hb, Hlo, Hhi.
    split; [exact Hj|]. split; [exact Hp|]. split; [exact Hb|]. split; [|exact Hhi].
    destruct (ledo_valid (ld_j d)) eqn:Hv; [by apply Hlo|].
    rewrite Hps. reflexivity. }
  split; [exact Hrec|].
  unfold ledo_counted.
  induction (pids tdoc) as [|p ps IH]; [cbn; split; [lia|intros _; lia]|].
  cbn [omap list_omap].
  destruct (ls_detail (ledo_loop ledo_init (inPids tdoc journal)) !! p) as [d|] eqn:Hd;
    [|exact IH].
  destruct (Hrec p d Hd) as (_ & _ & Hb & _ & Hhi). destruct IH as [IH0 IH1].
  unfold sumBy in *. cbn [foldr]. split; [lia|].
  intros Hpow. specialize (Hhi Hpow). specialize (IH1 Hpow). lia.
Qed.
End LedoBounds.

Lemma ledo_score_bounds_witness :
  Forall (fun j => 0 ≤ score j < 2 ^ 53) (threeTries ++ [fourthTry])
  ∧ exponentiateOk (imports := sampleImports)
  ∧ 0 ≤ ledo_score (ledo_stat (imports := sampleImports) ledoContest (threeTries ++ [fourthTry]))
      ≤ ledo_originalScore
          (ledo_stat (imports := sampleImports) ledoContest (threeTries ++ [fourthTry])).
Proof.
  assert (H1 : Forall (fun j => 0 ≤ score j < 2 ^ 53) (threeTries ++ [fourthTry])).
  { repeat constructor; cbn; lia. }
  split; [exact H1|]. split; [exact sampleImports_exponentiateOk|].
  destruct (ledo_score_bounds (imports := sampleImports) ledoContest
              (threeTries ++ [fourthTry]) H1) as (_ & H0 & Hle).
  split; [exact H0|exact (Hle sampleImports_exponentiateOk)].
Defined.

(** ** Homework *)

Lemma homework_effective_last tdoc journal p :
  homework_effective tdoc journal !! p
  = if includes (pids tdoc) p then last (entriesOn p journal) else None.
Proof.
  unfold homework_effective.
  induction journal as [|j journal IH] using rev_ind.
  - cbn. rewrite lookup_empty. by destruct (includes (pids tdoc) p).
  - rewrite fold_left_app. cbn [fold_left]. rewrite entriesOn_snoc.
    destruct (includes (pids tdoc) (pid j)) eqn:Hin.
    + case_decide as Hp.
      * subst p. by rewrite lookup_insert_eq, Hin, last_snoc.
      * by rewrite lookup_insert_ne.
    + case_decide as Hp; [|exact IH].
      subst p. by rewrite IH, Hin.
Qed.

Lemma insertKey_perm {A} (kv : Z * A) l : insertKey kv l ≡ₚ kv :: l.
Proof.
  induction l as [|x rest IH]; [reflexivity|]. cbn.
  destruct (fst kv <=? fst x); [reflexivity|].
  rewrite IH. apply Permutation_swap.
Qed.

Lemma entriesAscending_perm {A} (m : gmap Z A) : entriesAscending m ≡ₚ map_to_list m.
Proof.
  unfold entriesAscending. induction (map_to_list m) as [|kv l IH]; [reflexivity|].
  cbn [foldr]. by rewrite insertKey_perm, IH.
Qed.

Lemma list_to_map_entriesAscending {A} (m : gmap Z A) :
  list_to_map (entriesAscending m) = m.
Proof.
  rewrite <- (list_to_map_to_list m) at 2.
  apply list_to_map_proper; [|apply entriesAscending_perm].
  rewrite (entriesAscending_perm m). apply NoDup_fst_map_to_list.
Qed.

Lemma entriesAscending_nil {A} (m : gmap Z A) : entriesAscending m = [] → m = ∅.
Proof.
  intros Hnil. apply map_to_list_empty_iff, Permutation_nil.
  by rewrite <- (entriesAscending_perm m), Hnil.
Qed.

Lemma homework_fill_ok tdoc since rules l :
  penaltySince tdoc = Some since → penaltyRules tdoc = Some rules →
  ∃ filled,
    homework_fill tdoc l = Ok filled
    ∧ Forall2 (fun x y => y.1 = x.1 ∧ hd_j y.2 = x.2
                          ∧ hd_time y.2 = homework_time tdoc x.2
                          ∧ homework_penaltyScore tdoc x.2 = Ok (hd_penaltyScore y.2))
              l filled.
Proof.
  intros Hsince Hrules. induction l as [|[p j] l (filled & Hfill & Hall)].
  - exists []. split; [reflexivity|constructor].
  - assert (Hps : ∃ q, homework_penaltyScore tdoc j = Ok q).
    { unfold homework_penaltyScore. rewrite Hsince, Hrules.
      destruct (_ <? 0); eauto. }
    destruct Hps as [q Hq]. cbn [homework_fill]. rewrite Hq, Hfill. cbn [bind].
    eexists. split; [reflexivity|]. constructor; [|exact Hall]. done.
Qed.

(** X18. [homework.stat] keeps, for each problem of the contest, the last
    entry of the journal on it.  Without [penaltySince] it fails with a
    [TypeError] as soon as there is such an entry.  With [penaltySince] and
    [penaltyRules] it succeeds: [detail] holds exactly those entries, each
    with its time since the start and its penalised score, which is the raw
    score for an entry submitted before [penaltySince]; [score] is the sum
    of their raw scores. *)
Theorem homework_stat_outcomes (tdoc : Tdoc) (journal : list Jdoc) :
  let effective := homework_effective tdoc journal in
  (∀ p, effective !! p
        = if includes (pids tdoc) p then last (entriesOn p journal) else None)
  ∧ (penaltySince tdoc = None → effective ≠ ∅ →
     homework_stat tdoc journal = Throw TypeError)
  ∧ (∀ since rules,
       penaltySince tdoc = Some since → penaltyRules tdoc = Some rules →
       ∃ s, homework_stat tdoc journal = Ok s
            ∧ hd_j <$> hw_detail s = effective
            ∧ hw_score s = sumBy score (values effective)
            ∧ ∀ p d, hw_detail s !! p = Some d →
                hd_time d = (getTimestamp (rid (hd_j d)) - beginAt tdoc) `div` 1000
                ∧ homework_penaltyScore tdoc (hd_j d) = Ok (hd_penaltyScore d)
                ∧ (getTimestamp (rid (hd_j d)) < since →
                   hd_penaltyScore d = inject_Z (score (hd_j d)))).
Proof.
  cbn zeta. split; [apply homework_effective_last|]. split.
  - intros Hsince Hne. unfold homework_stat.
    destruct (entriesAscending (homework_effective tdoc journal)) as [|[p j] l] eqn:Hl.
    + by apply entriesAscending_nil in Hl.
    + cbn [homework_fill]. unfold homework_penaltyScore. by rewrite Hsince.
  - intros since rules Hsince Hrules. unfold homework_stat.
    destruct (homework_fill_ok tdoc since rules
                (entriesAscending (homework_effective tdoc journal)) Hsince Hrules)
      as (filled & Hfill & Hall).
    rewrite Hfill. cbn [bind]. eexists. split; [reflexivity|].
    cbn [hw_detail hw_score].
    assert (Hvals : hd_j <$> filled.*2
                    = (entriesAscending (homework_effective tdoc journal)).*2).
    { clear Hfill. induction Hall as [|x y l l' (_ & H2 & _) _ IH]; [reflexivity|].
      cbn. by rewrite H2, IH. }
    assert (Hpairs : prod_map id hd_j <$> filled
                     = entriesAscending (homework_effective tdoc journal)).
    { clear Hfill Hvals.
      induction Hall as [|[p j] [p' d] l l' (H1 & H2 & _) _ IH]; [reflexivity|].
      cbn in *. by rewrite H1, H2, IH. }
    split; [|split].
    + rewrite <- list_to_map_fmap, Hpairs. apply list_to_map_entriesAscending.
    + unfold values.
      rewrite <- (sumBy_perm score _ _
                    (fmap_Permutation snd _ _
                       (entriesAscending_perm (homework_effective tdoc journal)))).
      rewrite <- Hvals. generalize (filled.*2). intros l.
      induction l as [|d l IH]; [reflexivity|].
      rewrite fmap_cons. unfold sumBy in *. cbn [foldr]. by rewrite IH.
    + intros p d Hd. apply elem_of_list_to_map_2 in Hd.
      clear Hfill Hvals Hpairs.
      induction Hall as [|[p0 j] [p' d'] l l' (_ & H2 & H3 & H4) _ IH];
        [inversion Hd|].
      apply elem_of_cons in Hd as [[= <- <-]|Hd]; [|by apply IH].
      cbn in H2, H3, H4. subst j. split; [exact H3|]. split; [exact H4|].
      intros Hbefore. unfold homework_penaltyScore in H4. rewrite Hsince in H4.
      assert (Hneg : ((getTimestamp (rid (hd_j d)) - since) `div` 1000 <? 0) = true).
      { apply Z.ltb_lt. apply Z.div_lt_upper_bound; lia. }
      rewrite Hneg in H4. by injection H4.
Qed.

Lemma homework_stat_outcomes_witness :
  penaltySince (assignment 3600000) = Some 3600000
  ∧ penaltyRules (assignment 3600000) = Some [(1#1, 9#10)%Q; (0#1, 95#100)%Q; (24#1, 1#2)%Q]
  ∧ ∃ s, homework_stat (assignment 3600000) journalA = Ok s
         ∧ hd_j <$> hw_detail s = homework_effective (assignment 3600000) journalA.
Proof.
  assert (H1 : penaltySince (assignment 3600000) = Some 3600000) by reflexivity.
  assert (H2 : penaltyRules (assignment 3600000)
               = Some [(1#1, 9#10)%Q; (0#1, 95#100)%Q; (24#1, 1#2)%Q]) by reflexivity.
  split; [exact H1|]. split; [exact H2|].
  destruct (proj2 (proj2 (homework_stat_outcomes
                            (assignment 3600000) journalA)) _ _ H1 H2)
    as (s & Hs & Hd & _).
  exists s. split; [exact Hs|exact Hd].
Defined.

Lemma insertRule_perm kv l : insertRule kv l ≡ₚ kv :: l.
Proof.
  induction l as [|x rest IH]; [reflexivity|]. cbn.
  destruct (Qle_bool (fst kv) (fst x)); [reflexivity|].
  rewrite IH. apply Permutation_swap.
Qed.

Lemma sortRules_perm l : sortRules l ≡ₚ l.
Proof.
  unfold sortRules. induction l as [|kv l IH]; [reflexivity|].
  cbn [foldr]. by rewrite insertRule_perm, IH.
Qed.

Lemma insertRule_ascending kv l : keysAscending l → keysAscending (insertRule kv l).
Proof.
  induction l as [|x rest IH]; intros Hl; [by split|].
  destruct Hl as [Hx Hrest]. cbn [insertRule].
  destruct (Qle_bool (fst kv) (fst x)) eqn:Hle.
  - apply Qle_bool_iff in Hle. split; [|by split].
    constructor; [exact Hle|].
    eapply Forall_impl; [exact Hx|]. intros y Hy. cbn in Hy. by eapply Qle_trans.
  - assert (Hxk : (fst x <= fst kv)%Q).
    { apply Qlt_le_weak, Qnot_le_lt. intros Hc. apply Qle_bool_iff in Hc. congruence. }
    split; [|by apply IH].
    rewrite insertRule_perm. by constructor.
Qed.

Lemma sortRules_ascending l : keysAscending (sortRules l).
Proof.
  unfold sortRules. induction l as [|kv l IH]; [exact I|].
  cbn [foldr]. by apply insertRule_ascending.
Qed.

Lemma due_downward e (a b : Q * Q) : (fst a <= fst b)%Q → due e b = true → due e a = true.
Proof.
  unfold due. rewrite !Qle_bool_iff. intros Hab Hb.
  eapply Qle_trans; [|exact Hb]. by apply fmul_mono_l.
Qed.

(** The loop over an ascending table, entered with coefficient [c0]. *)
Lemma homework_coefficient_ascending e l c0 :
  keysAscending l →
  (Forall (fun kv => due e kv = false) l ∧ homework_coefficient e l c0 = c0)
  ∨ ∃ best, best ∈ l ∧ due e best = true
            ∧ homework_coefficient e l c0 = snd best
            ∧ ∀ kv, kv ∈ l → due e kv = true → (fst kv <= fst best)%Q.
Proof.
  revert c0. induction l as [|[i c] rest IH]; intros c0 Hl.
  - left. by split.
  - destruct Hl as [Hhead Hrest]. cbn [homework_coefficient].
    change (Qle_bool (fmul i 3600) (inject_Z e)) with (due e (i, c)).
    destruct (due e (i, c)) eqn:Hdue.
    + right. destruct (IH c Hrest) as [[Hnone Hc]|(best & Hin & Hb & Hc & Hmax)].
      * exists (i, c). split; [by left|]. split; [exact Hdue|]. split; [exact Hc|].
        intros kv [->|Hkv]%elem_of_cons Hkvdue; [apply Qle_refl|].
        rewrite Forall_forall in Hnone. specialize (Hnone kv Hkv). congruence.
      * exists best. split; [by right|]. split; [exact Hb|]. split; [exact Hc|].
        intros kv [->|Hkv]%elem_of_cons Hkvdue; [|by apply Hmax].
        rewrite Forall_forall in Hhead. by apply (Hhead best).
    + left. split; [|reflexivity]. constructor; [exact Hdue|].
      rewrite Forall_forall in *. intros kv Hkv.
      destruct (due e kv) eqn:Hkvdue; [|reflexivity].
      rewrite <- Hdue. symmetry. eapply due_downward; [|exact Hkvdue].
      by apply (Hhead kv).
Qed.

(** X19. The coefficient that [homework.stat] applies to an entry submitted
    [exceedSeconds] after [penaltySince], over the table as the function
    reads it (keys through [parseFloat], the product of a key with 3600
    rounded to a double): 1 when no rule of the table is due yet, and
    otherwise the multiplier of a due rule with the greatest hour offset, in
    whatever order the table lists its rules.  A rule at 1.1 hours is not
    yet due 3960 seconds late, as the double product is just above 3960; it
    is due one second later. *)
Theorem homework_coefficient_latest_due (exceedSeconds : Z) (rules : list (Q * Q)) :
  let table := parsedRules rules in
  let coefficient := homework_coefficient exceedSeconds (sortRules table) (1#1) in
  ((Forall (fun kv => due exceedSeconds kv = false) table ∧ coefficient = (1#1)%Q)
   ∨ ∃ best, best ∈ table ∧ due exceedSeconds best = true
             ∧ coefficient = snd best
             ∧ Forall (fun kv => due exceedSeconds kv = false ∨ (fst kv <= fst best)%Q) table)
  ∧ homework_coefficient 3960 (sortRules (parsedRules [(11#10, 8#10); (1#1, 9#10)]%Q)) (1#1)
    = double (9#10)
  ∧ homework_coefficient 3961 (sortRules (parsedRules [(11#10, 8#10); (1#1, 9#10)]%Q)) (1#1)
    = double (8#10).
Proof.
  cbn zeta. split; [|split; vm_compute; reflexivity].
  destruct (homework_coefficient_ascending exceedSeconds (sortRules (parsedRules rules)) (1#1)
              (sortRules_ascending (parsedRules rules)))
    as [[Hnone Hc]|(best & Hin & Hb & Hc & Hmax)].
  - left. split; [|exact Hc]. by rewrite <- (sortRules_perm (parsedRules rules)).
  - right. exists best. split; [by rewrite <- (sortRules_perm (parsedRules rules))|].
    split; [exact Hb|]. split; [exact Hc|].
    apply Forall_forall. intros kv Hkv.
    destruct (due exceedSeconds kv) eqn:Hdue; [right|by left].
    apply Hmax; [|exact Hdue]. by rewrite (sortRules_perm (parsedRules rules)).
Qed.

(** ** Failures of [stat] *)

Section StatFailures.
Context {imports : Imported}.

Lemma homework_fill_error tdoc l e :
  homework_fill tdoc l = Throw e →
  e = TypeError ∧ l ≠ [] ∧ (penaltySince tdoc = None ∨ penaltyRules tdoc = None).
Proof.
  induction l as [|[p j] l IH]; [discriminate|]. cbn [homework_fill].
  destruct (homework_penaltyScore tdoc j) as [q|e'] eqn:Hq.
  - cbn [bind]. destruct (homework_fill tdoc l) as [rest|e'']; [discriminate|].
    cbn [bind]. intros [= <-]. destruct (IH eq_refl) as (He & _ & Hmissing).
    split; [exact He|]. split; [discriminate|exact Hmissing].
  - cbn [bind]. intros [= <-]. unfold homework_penaltyScore in Hq.
    destruct (penaltySince tdoc) as [since|].
    + destruct (_ <? 0); [discriminate|].
      destruct (penaltyRules tdoc); [discriminate|].
      injection Hq as <-. split; [reflexivity|]. split; [discriminate|by right].
    + injection Hq as <-. split; [reflexivity|]. split; [discriminate|by left].
Qed.

(** X20. [stat] of a rule of the table never fails under [acm], [oi],
    [ioi], [strictioi] and [ledo], whatever the contest and the journal.
    Under [homework] it can only fail with a [TypeError], and only when
    [penaltySince] or [penaltyRules] is missing and the journal has an
    entry on a problem of the contest. *)
Theorem stat_failures (name : string) (tdoc : Tdoc) (now : Z) (journal : list Jdoc)
    (e : Error) :
  is_Some (RULES !! name) →
  stat name tdoc now journal = Throw e →
  name = "homework"%string ∧ e = TypeError
  ∧ inPids tdoc journal ≠ []
  ∧ (penaltySince tdoc = None ∨ penaltyRules tdoc = None).
Proof.
  intros Hn He. apply RULES_names in Hn.
  repeat (apply elem_of_cons in Hn as [-> | Hn]); [..|inversion Hn].
  - rewrite stat_acm in He. discriminate.
  - rewrite stat_oi in He. discriminate.
  - rewrite stat_homework in He. unfold homework_stat in He.
    destruct (homework_fill tdoc (entriesAscending (homework_effective tdoc journal)))
      as [filled|e'] eqn:Hfill; [discriminate|].
    cbn [bind] in He. injection He as <-.
    destruct (homework_fill_error _ _ _ Hfill) as (-> & Hne & Hmissing).
    split; [reflexivity|]. split; [reflexivity|]. split; [|exact Hmissing].
    intros Hempty. apply Hne.
    assert (Heff : homework_effective tdoc journal = ∅).
    { apply map_eq. intros p. rewrite homework_effective_last, lookup_empty.
      destruct (includes (pids tdoc) p) eqn:Hin; [|reflexivity].
      pose proof (entriesOn_inPids p tdoc journal) as Hp.
      rewrite Hin, Hempty in Hp. by rewrite <- Hp. }
    rewrite Heff. unfold entriesAscending. by rewrite map_to_list_empty.
  - rewrite stat_ioi in He. discriminate.
  - rewrite stat_ledo in He. discriminate.
  - rewrite stat_strictioi in He. discriminate.
Qed.
End StatFailures.

Lemma stat_failures_witness :
  is_Some (RULES !! "homework"%string)
  ∧ stat (imports := sampleImports) "homework" acmContest 0 journalA = Throw TypeError
  ∧ penaltySince acmContest = None.
Proof.
  assert (H1 : is_Some (RULES !! "homework"%string)) by (vm_compute; eauto).
  assert (H2 : stat (imports := sampleImports) "homework" acmContest 0 journalA
               = Throw TypeError) by (vm_compute; reflexivity).
  split; [exact H1|]. split; [exact H2|].
  destruct (stat_failures (imports := sampleImports) "homework" acmContest 0 journalA
              TypeError H1 H2) as (_ & _ & _ & [Hs|Hr]); [exact Hs|reflexivity].
Defined.

(** ** The cells of the scoreboard *)

Section Cells.
Context {imports : Imported} {rendering : Rendering}.

Lemma headerLoop_spec cols (k : nat) ps :
  (∀ i p d, length (cols i p d) = k) →
  ∀ i pdict columns,
    match headerLoop cols i ps pdict columns with
    | Ok (columns', pdict') =>
        Forall (fun p => is_Some (pdict !! p)) ps
        ∧ pdict' = resetCounters ps pdict
        ∧ length columns' = (length columns + k * length ps)%nat
    | Throw e => e = TypeError ∧ Exists (fun p => pdict !! p = None) ps
    end.
Proof.
  intros Hk. induction ps as [|p ps IH]; intros i pdict columns.
  - cbn. split; [constructor|]. split; [reflexivity|lia].
  - cbn [headerLoop]. destruct (pdict !! p) as [d|] eqn:Hp.
    + cbn zeta.
      set (d' := {| title := title d; nSubmit := Some 0; nAccept := Some 0 |}).
      specialize (IH (i + 1) (<[p := d']> pdict) (columns ++ cols i p d')).
      destruct (headerLoop cols (i + 1) ps (<[p := d']> pdict) (columns ++ cols i p d'))
        as [[columns' pdict']|e].
      * destruct IH as (Hall & Hpd & Hlen). split; [|split].
        -- constructor; [by rewrite Hp|].
           eapply Forall_impl; [exact Hall|]. intros q Hq. cbn in Hq.
           destruct (decide (q = p)) as [->|Hne]; [by rewrite Hp|].
           by rewrite lookup_insert_ne in Hq.
        -- rewrite Hpd. cbn. by rewrite Hp.
        -- rewrite Hlen, length_app, Hk. cbn. lia.
      * destruct IH as [He Hex]. split; [exact He|]. right.
        eapply Exists_impl; [exact Hex|]. intros q Hq. cbn in Hq.
        destruct (decide (q = p)) as [->|Hne]; [by rewrite lookup_insert_eq in Hq|].
        by rewrite lookup_insert_ne in Hq.
    + split; [reflexivity|]. by left.
Qed.

Lemma resetCounters_lookup ps pdict p :
  resetCounters ps pdict !! p
  = if includes ps p
    then (fun d => {| title := title d; nSubmit := Some 0; nAccept := Some 0 |})
           <$> pdict !! p
    else pdict !! p.
Proof.
  unfold resetCounters, includes. revert pdict.
  induction ps as [|q ps IH]; intros pdict; [reflexivity|].
  cbn [foldl]. rewrite IH. clear IH.
  destruct (decide (p = q)) as [->|Hne].
  - rewrite (bool_decide_true (q ∈ q :: ps)) by (by left).
    destruct (pdict !! q) as [d|] eqn:Hq.
    + rewrite lookup_insert_eq. by case_bool_decide.
    + rewrite Hq. by case_bool_decide.
  - assert (Hsame : match pdict !! q with
                    | Some d =>
                        <[q := {| title := title d; nSubmit := Some 0; nAccept := Some 0 |}]>
                          pdict
                    | None => pdict
                    end !! p = pdict !! p).
    { destruct (pdict !! q); [by rewrite lookup_insert_ne|reflexivity]. }
    rewrite Hsame.
    destruct (decide (p ∈ ps)) as [Hin|Hout].
    + rewrite !bool_decide_true; [reflexivity|by right|exact Hin].
    + rewrite !bool_decide_false; [reflexivity| |exact Hout].
      intros [?|?]%elem_of_cons; done.
Qed.

Lemma run_scoreboardHeader_spec (code : ScoreboardHeaderFn) (config : ScoreboardConfig)
    (tdoc : Tdoc) (pdict : gmap Z Pdoc) :
  match run_scoreboardHeader code config tdoc pdict with
  | Ok (columns, pdict') =>
      Forall (fun p => is_Some (pdict !! p)) (pids tdoc)
      ∧ length columns = headerWidth code config (length (pids tdoc))
      ∧ ∀ p, pdict' !! p
             = if includes (pids tdoc) p
               then (fun d => {| title := title d; nSubmit := Some 0; nAccept := Some 0 |})
                      <$> pdict !! p
               else pdict !! p
  | Throw e => e = TypeError ∧ Exists (fun p => pdict !! p = None) (pids tdoc)
  end.
Proof.
  destruct code; cbn [run_scoreboardHeader];
    unfold acm_scoreboardHeader_body, oi_scoreboardHeader_body,
      homework_scoreboardHeader_body; cbn zeta.
  - match goal with
    | |- context [headerLoop ?cols ?i ?ps ?pd ?columns] =>
        pose proof (headerLoop_spec cols (if isExport config then 2 else 1)%nat ps
                      ltac:(intros; by destruct (isExport config)) i pd columns) as Hspec;
        destruct (headerLoop cols i ps pd columns) as [[columns' pdict']|e]
    end; [|exact Hspec].
    destruct Hspec as (Hall & -> & Hlen). split; [exact Hall|].
    split; [|apply resetCounters_lookup].
    rewrite Hlen. unfold headerWidth, exportColumns.
    destruct (isExport config); cbn; lia.
  - match goal with
    | |- context [headerLoop ?cols ?i ?ps ?pd ?columns] =>
        pose proof (headerLoop_spec cols 1%nat ps
                      ltac:(intros; by destruct (isExport config)) i pd columns) as Hspec;
        destruct (headerLoop cols i ps pd columns) as [[columns' pdict']|e]
    end; [|exact Hspec].
    destruct Hspec as (Hall & -> & Hlen). split; [exact Hall|].
    split; [|apply resetCounters_lookup].
    rewrite Hlen. unfold headerWidth, exportColumns.
    destruct (isExport config); cbn; lia.
  - match goal with
    | |- context [headerLoop ?cols ?i ?ps ?pd ?columns] =>
        pose proof (headerLoop_spec cols (if isExport config then 3 else 1)%nat ps
                      ltac:(intros; by destruct (isExport config)) i pd columns) as Hspec;
        destruct (headerLoop cols i ps pd columns) as [[columns' pdict']|e]
    end; [|exact Hspec].
    destruct Hspec as (Hall & -> & Hlen). split; [exact Hall|].
    split; [|apply resetCounters_lookup].
    rewrite Hlen. unfold headerWidth.
    destruct (isExport config); cbn; lia.
Qed.

Lemma problemCells_length cells (k : nat) ps l :
  (∀ p here, cells p = Ok here → length here = k) →
  problemCells cells ps = Ok l → length l = (k * length ps)%nat.
Proof.
  intros Hk. revert l. induction ps as [|p ps IH]; intros l.
  - cbn. intros [= <-]. cbn. lia.
  - cbn [problemCells]. destruct (cells p) as [here|] eqn:Hp; [|discriminate].
    cbn [bind]. destruct (problemCells cells ps) as [others|]; [|discriminate].
    cbn [bind]. intros [= <-]. rewrite length_app, (Hk p here Hp), (IH others eq_refl).
    cbn. lia.
Qed.

Lemma isFirst_cell meta p doc (f : bool → ScoreboardNode) here :
  (let* isfirst := isFirst meta p doc in Ok [f isfirst]) = Ok here → length here = 1%nat.
Proof.
  destruct (isFirst meta p doc); [|discriminate]. cbn [bind]. by intros [= <-].
Qed.

Lemma run_scoreboardRow_spec code config tdoc pdict udoc rank tsdoc meta now cells pdict' :
  run_scoreboardRow code config tdoc pdict udoc rank tsdoc meta now = Ok (cells, pdict') →
  is_Some udoc
  ∧ length cells = rowWidth code config (length (pids tdoc))
  ∧ pdict' = countJournal (rowLock code config) pdict (sd_journal tsdoc).
Proof.
  destruct udoc as [udoc|]; [|by destruct code].
  destruct code; cbn [run_scoreboardRow rowLock];
    unfold acm_scoreboardRow_body, oi_scoreboardRow_body, strictioi_scoreboardRow_body,
      ledo_scoreboardRow_body, homework_scoreboardRow_body; cbn zeta;
    match goal with
    | |- context [problemCells ?f ?ps] =>
        destruct (problemCells f ps) as [l|] eqn:Hcells; [|discriminate]
    end;
    cbn [bind]; intros [= <- <-]; (split; [by eexists|]); (split; [|reflexivity]).
  - apply (problemCells_length _ (if isExport config then 2 else 1)%nat) in Hcells.
    + cbn [length]. rewrite !length_app, Hcells. unfold rowWidth, exportCells.
      destruct (isExport config); cbn; lia.
    + intros p here. unfold acm_problemCell. cbn zeta.
      destruct (isExport config); [by intros [= <-]|]. apply isFirst_cell.
  - apply (problemCells_length _ 1%nat) in Hcells.
    + cbn [length]. rewrite !length_app, Hcells. unfold rowWidth, exportCells.
      destruct (isExport config); cbn; lia.
    + intros p here. unfold oi_problemCell. cbn zeta.
      destruct (isFirst meta p _) as [[]|]; [| |discriminate]; by intros [= <-].
  - apply (problemCells_length _ 1%nat) in Hcells.
    + cbn [length]. rewrite !length_app, Hcells. unfold rowWidth, exportCells.
      destruct (isExport config); cbn; lia.
    + intros p here. unfold strictioi_problemCell. cbn zeta. apply isFirst_cell.
  - apply (problemCells_length _ 1%nat) in Hcells.
    + cbn [length]. rewrite !length_app, Hcells. unfold rowWidth, exportCells.
      destruct (isExport config); cbn; lia.
    + intros p here. unfold ledo_problemCell. cbn zeta. apply isFirst_cell.
  - apply (problemCells_length _ (if isExport config then 3 else 1)%nat) in Hcells.
    + cbn [length]. rewrite !length_app, Hcells. unfold rowWidth.
      destruct (isExport config); cbn; lia.
    + intros p here. unfold homework_problemCell. cbn zeta.
      destruct (isExport config); by intros [= <-].
Qed.

Lemma countJournal_lookup lock pdict journal p d :
  pdict !! p = Some d →
  countJournal lock pdict (Some journal) !! p
  = Some (counted d (filter (fun s => pid s = p ∧ afterLock lock s = false) journal)).
Proof.
  unfold countJournal. change (default [] (Some journal)) with journal. revert pdict d.
  induction journal as [|s journal IH]; intros pdict d Hp.
  - cbn. rewrite Hp. unfold counted. cbn. f_equal. destruct d as [t [n|] [a|]]; cbn;
      repeat f_equal; lia.
  - cbn [fold_left]. rewrite filter_cons.
    destruct (afterLock lock s) eqn:Hlock.
    + case_decide as Hd; [destruct Hd as [_ Hd]; discriminate Hd|]. by apply IH.
    + unfold countEntry. destruct (decide (pid s = p)) as [Hs|Hs].
      * rewrite decide_True by done. rewrite Hs, Hp.
        erewrite IH; [|by rewrite lookup_insert_eq].
        unfold counted. cbn [title nSubmit nAccept length]. rewrite filter_cons.
        f_equal. destruct d as [t n a]. cbn [title nSubmit nAccept]. f_equal.
        -- destruct n; cbn; [f_equal; lia|reflexivity].
        -- destruct (isAccepted (status s)) eqn:Hacc; case_decide as Hd;
             try discriminate Hd; try (by destruct Hd);
             destruct a; cbn; try reflexivity; f_equal; lia.
      * rewrite decide_False by (by intros [? _]).
        destruct (pdict !! pid s); [|by apply IH].
        apply IH. by rewrite lookup_insert_ne.
Qed.

Lemma countJournal_app lock pdict l1 l2 :
  countJournal lock (countJournal lock pdict (Some l1)) (Some l2)
  = countJournal lock pdict (Some (l1 ++ l2)).
Proof.
  unfold countJournal.
  change (default [] (Some l1)) with l1. change (default [] (Some l2)) with l2.
  change (default [] (Some (l1 ++ l2))) with (l1 ++ l2). by rewrite fold_left_app.
Qed.

Lemma countJournal_default lock pdict journal :
  countJournal lock pdict journal = countJournal lock pdict (Some (default [] journal)).
Proof. by destruct journal. Qed.

Lemma run_rows_spec code config tdoc udict meta now rs pdict rows pdict' :
  run_rows code config tdoc udict meta now rs pdict = Ok (rows, pdict') →
  length rows = length rs
  ∧ Forall (fun cells => length cells = rowWidth code config (length (pids tdoc))) rows
  ∧ pdict' = countJournal (rowLock code config) pdict
               (Some (concat ((fun r => default [] (sd_journal (snd r))) <$> rs))).
Proof.
  revert pdict rows. induction rs as [|[rank tsdoc] rs IH]; intros pdict rows.
  - cbn. intros [= <- <-]. split; [reflexivity|]. split; [constructor|reflexivity].
  - cbn [run_rows].
    destruct (run_scoreboardRow code config tdoc pdict (udict !! uid (sd_doc tsdoc)) rank
                tsdoc meta now) as [[cells pd1]|] eqn:Hrow; [|discriminate].
    cbn [bind fst snd].
    destruct (run_rows code config tdoc udict meta now rs pd1) as [[others pd2]|] eqn:Hrest;
      [|discriminate].
    cbn [bind fst snd]. intros [= <- <-].
    destruct (run_scoreboardRow_spec _ _ _ _ _ _ _ _ _ _ _ Hrow) as (_ & Hlen & ->).
    destruct (IH _ _ Hrest) as (Hn & Hall & ->).
    split; [cbn; by rewrite Hn|]. split; [by constructor|].
    rewrite (countJournal_default _ pdict). rewrite countJournal_app. reflexivity.
Qed.

Lemma headerLoop_pdict cols ps :
  ∀ i pdict columns columns' pdict',
    headerLoop cols i ps pdict columns = Ok (columns', pdict') →
    pdict' = resetCounters ps pdict.
Proof.
  induction ps as [|p ps IH]; intros i pdict columns columns' pdict' Hrun.
  - cbn in *. by injection Hrun as _ <-.
  - cbn [headerLoop] in Hrun. destruct (pdict !! p) as [d|] eqn:Hp; [|discriminate].
    cbn zeta in Hrun. rewrite (IH _ _ _ _ _ Hrun). cbn. by rewrite Hp.
Qed.

Lemma headerLoop_again cols ps :
  ∀ i pdict columns columns' pdict',
    headerLoop cols i ps pdict columns = Ok (columns', pdict') →
    headerLoop cols i ps pdict' columns = Ok (columns', pdict').
Proof.
  induction ps as [|p ps IH]; intros i pdict columns columns' pdict' Hrun.
  - cbn in *. by injection Hrun as <- <-.
  - cbn [headerLoop] in *. destruct (pdict !! p) as [d|] eqn:Hp; [|discriminate].
    cbn zeta in Hrun.
    set (d' := {| title := title d; nSubmit := Some 0; nAccept := Some 0 |}) in *.
    pose proof (headerLoop_pdict _ _ _ _ _ _ _ Hrun) as Hpd.
    pose proof (IH _ _ _ _ _ Hrun) as Hagain.
    assert (Hp' : pdict' !! p = Some d').
    { rewrite Hpd, resetCounters_lookup, lookup_insert_eq. by destruct (includes ps p). }
    rewrite Hp'. cbn zeta.
    change {| title := title d'; nSubmit := Some 0; nAccept := Some 0 |} with d'.
    by rewrite (insert_id _ _ _ Hp').
Qed.

(** X21. Each of the three header bodies fails, with a [TypeError], exactly
    when a problem of the contest is missing from [pdict].  Otherwise it
    returns its columns (as many as [headerWidth] says) and leaves [pdict]
    with the two counters of every problem of the contest set to 0 and
    everything else as it was; run again on the [pdict] it left, it returns
    the same columns and changes nothing. *)
Theorem scoreboardHeader_outcomes (code : ScoreboardHeaderFn) (config : ScoreboardConfig)
    (tdoc : Tdoc) (pdict : gmap Z Pdoc) :
  match run_scoreboardHeader code config tdoc pdict with
  | Ok (columns, pdict') =>
      Forall (fun p => is_Some (pdict !! p)) (pids tdoc)
      ∧ length columns = headerWidth code config (length (pids tdoc))
      ∧ (∀ p, pdict' !! p
              = if includes (pids tdoc) p
                then (fun d => {| title := title d; nSubmit := Some 0; nAccept := Some 0 |})
                       <$> pdict !! p
                else pdict !! p)
      ∧ run_scoreboardHeader code config tdoc pdict' = Ok (columns, pdict')
  | Throw e => e = TypeError ∧ Exists (fun p => pdict !! p = None) (pids tdoc)
  end.
Proof.
  pose proof (run_scoreboardHeader_spec code config tdoc pdict) as Hspec.
  destruct (run_scoreboardHeader code config tdoc pdict) as [[columns pdict']|e] eqn:Hrun;
    [|exact Hspec].
  destruct Hspec as (Hall & Hlen & Hreset).
  split; [exact Hall|]. split; [exact Hlen|]. split; [exact Hreset|].
  destruct code; cbn [run_scoreboardHeader] in *;
    unfold acm_scoreboardHeader_body, oi_scoreboardHeader_body,
      homework_scoreboardHeader_body in *;
    cbn zeta in *; exact (headerLoop_again _ _ _ _ _ _ _ Hrun).
Qed.

(** X22. Under every rule of the table a row has as many cells as the
    header has columns, whatever the configuration, the problem dictionary
    and the standing; rendering a row changes [pdict] by counting the
    entries of the standing's journal and nothing else. *)
Theorem row_matches_header (name : string) (config : ScoreboardConfig) (tdoc : Tdoc)
    (pdict0 pdict : gmap Z Pdoc) (udoc : option Udoc) (rank : Z) (tsdoc : Standing)
    (meta : option Meta) (now : Z) (columns cells : list ScoreboardNode)
    (pdict1 pdict' : gmap Z Pdoc) :
  is_Some (RULES !! name) →
  run_scoreboardHeader (headerOf name) config tdoc pdict0 = Ok (columns, pdict1) →
  run_scoreboardRow (rowOf name) config tdoc pdict udoc rank tsdoc meta now
  = Ok (cells, pdict') →
  length cells = length columns
  ∧ pdict' = countJournal (rowLock (rowOf name) config) pdict (sd_journal tsdoc).
Proof.
  intros Hn Hheader Hrow.
  pose proof (run_scoreboardHeader_spec (headerOf name) config tdoc pdict0) as Hh.
  rewrite Hheader in Hh. destruct Hh as (_ & Hcols & _).
  destruct (run_scoreboardRow_spec _ _ _ _ _ _ _ _ _ _ _ Hrow) as (_ & Hcells & Hpd).
  split; [|exact Hpd]. rewrite Hcols, Hcells. apply RULES_names in Hn.
  repeat (apply elem_of_cons in Hn as [-> | Hn]); [..|inversion Hn];
    cbn; by destruct (isExport config).
Qed.

(** X23. When a scoreboard is rendered (header, then one row per standing
    on the shared [pdict]), it has one row more than there are standings,
    and afterwards the counters of every problem of the contest hold the
    number of journal entries on that problem over all standings, and the
    number of accepted ones among them; the rows of [acm] and [oi] leave
    out the entries submitted after [config.lockAt]. *)
Theorem scoreboard_counters (header : ScoreboardHeaderFn) (row : ScoreboardRowFn)
    (config : ScoreboardConfig) (tdoc : Tdoc) (pdict : gmap Z Pdoc) (udict : gmap Z Udoc)
    (meta : option Meta) (now : Z) (rs : list (Z * Standing))
    (rows : list (list ScoreboardNode)) (pdict' : gmap Z Pdoc) :
  renderScoreboard header row config tdoc pdict udict meta now rs = Ok (rows, pdict') →
  length rows = S (length rs)
  ∧ ∀ p, p ∈ pids tdoc →
      ∃ d0 d, pdict !! p = Some d0 ∧ pdict' !! p = Some d
        ∧ title d = title d0
        ∧ nSubmit d = Some (Z.of_nat (length (countedEntries (rowLock row config) p rs)))
        ∧ nAccept d
          = Some (Z.of_nat (length (filter (fun s => isAccepted (status s) = true)
                                           (countedEntries (rowLock row config) p rs)))).
Proof.
  unfold renderScoreboard.
  pose proof (run_scoreboardHeader_spec header config tdoc pdict) as Hh.
  destruct (run_scoreboardHeader header config tdoc pdict) as [[columns pd1]|];
    [|discriminate].
  cbn [bind fst snd]. destruct Hh as (Hall & _ & Hreset).
  destruct (run_rows row config tdoc udict meta now rs pd1) as [[others pd2]|] eqn:Hrows;
    [|discriminate].
  cbn [bind fst snd]. intros [= <- <-].
  destruct (run_rows_spec _ _ _ _ _ _ _ _ _ _ Hrows) as (Hn & _ & ->).
  split; [cbn; by rewrite Hn|].
  intros p Hp. rewrite Forall_forall in Hall. destruct (Hall p Hp) as [d0 Hd0].
  assert (Hd1 : pd1 !! p
                = Some {| title := title d0; nSubmit := Some 0; nAccept := Some 0 |}).
  { rewrite Hreset. unfold includes. rewrite bool_decide_true by exact Hp.
    by rewrite Hd0. }
  exists d0. eexists. split; [exact Hd0|].
  split; [by apply countJournal_lookup|]. unfold counted, countedEntries. cbn.
  split; [reflexivity|]. split; reflexivity.
Qed.
End Cells.

Lemma row_matches_header_witness :
  is_Some (RULES !! "ledo"%string)
  ∧ ∃ columns cells pdict1 pdict',
      run_scoreboardHeader (rendering := sampleRendering) (headerOf "ledo") sampleConfig
        ledoContest samplePdict = Ok (columns, pdict1)
      ∧ run_scoreboardRow (imports := sampleImports) (rendering := sampleRendering)
          (rowOf "ledo") sampleConfig ledoContest pdict1 (sampleUdict !! 7) 1
          sampleStanding None 0 = Ok (cells, pdict')
      ∧ length cells = length columns.
Proof.
  assert (H1 : is_Some (RULES !! "ledo"%string)) by (vm_compute; eauto).
  split; [exact H1|].
  destruct (run_scoreboardHeader (rendering := sampleRendering) (headerOf "ledo")
              sampleConfig ledoContest samplePdict) as [[columns pdict1]|] eqn:H2;
    [|discriminate H2].
  destruct (run_scoreboardRow (imports := sampleImports) (rendering := sampleRendering)
              (rowOf "ledo") sampleConfig ledoContest pdict1 (sampleUdict !! 7) 1
              sampleStanding None 0) as [[cells pdict']|] eqn:H3;
    [|vm_compute in H2; injection H2 as <- <-; discriminate H3].
  exists columns, cells, pdict1, pdict'. split; [reflexivity|]. split; [exact H3|].
  exact (proj1 (row_matches_header (imports := sampleImports) (rendering := sampleRendering)
                  "ledo" sampleConfig ledoContest samplePdict pdict1 (sampleUdict !! 7) 1
                  sampleStanding None 0 columns cells pdict1 pdict' H1 H2 H3)).
Defined.

Lemma scoreboard_counters_witness :
  ∃ rows pdict',
    renderScoreboard (imports := sampleImports) (rendering := sampleRendering)
      acm_scoreboardHeader acm_scoreboardRow sampleConfig acmContest samplePdict sampleUdict
      None 0 [(1, sampleStanding)] = Ok (rows, pdict')
    ∧ length rows = 2%nat.
Proof.
  destruct (renderScoreboard (imports := sampleImports) (rendering := sampleRendering)
              acm_scoreboardHeader acm_scoreboardRow sampleConfig acmContest samplePdict
              sampleUdict None 0 [(1, sampleStanding)]) as [[rows pdict']|] eqn:H1;
    [|discriminate H1].
  exists rows, pdict'. split; [reflexivity|].
  exact (proj1 (scoreboard_counters (imports := sampleImports) (rendering := sampleRendering)
                  acm_scoreboardHeader acm_scoreboardRow sampleConfig acmContest samplePdict
                  sampleUdict None 0 [(1, sampleStanding)] rows pdict' H1)).
Defined.

(** ** Serving the scoreboard: the rows *)

Section ServingFacts.
Context {imports : Imported} {rendering : Rendering}.

Lemma scoreboardRows_at (a : addr) obj hc rc code config tdoc pdict q now cursor :
  rulesHeap !! a = Some obj →
  r_scoreboard obj = Some (Bound code a) →
  r_scoreboardHeader obj = Some (Bound hc a) →
  r_scoreboardRow obj = Some (Bound rc a) →
  call_scoreboardRows rulesHeap a config tdoc pdict q now cursor
  = renderScoreboard hc rc config tdoc pdict (q_udict q) (scoreboardMeta code tdoc now q) now
      (rankedStandings code cursor).
Proof.
  intros Hobj Hs Hh Hr. unfold call_scoreboardRows. rewrite Hobj, Hs. cbn [target].
  unfold run_scoreboardRows, renderScoreboard. rewrite Hobj, Hh, Hr. cbn [target fst].
  destruct (run_scoreboardHeader hc config tdoc pdict) as [hd|e]; [|reflexivity].
  cbn [bind]. destruct (rankedStandings code cursor); reflexivity.
Qed.

Lemma scoreboardRows_dispatch name a config tdoc pdict q now cursor :
  RULES !! name = Some a →
  scoreboardRows name config tdoc pdict q now cursor
  = renderScoreboard (headerOf name) (rowOf name) config tdoc pdict (q_udict q)
      (scoreboardMeta (boardOf name) tdoc now q) now (rankedStandings (boardOf name) cursor).
Proof.
  intros Ha. assert (Hn : is_Some (RULES !! name)) by eauto.
  apply RULES_names in Hn. unfold scoreboardRows. rewrite Ha.
  repeat (apply elem_of_cons in Hn as [-> | Hn]); [..|inversion Hn].
  - assert (a = 0%nat) as -> by (vm_compute in Ha; congruence).
    eapply scoreboardRows_at; vm_compute; reflexivity.
  - assert (a = 1%nat) as -> by (vm_compute in Ha; congruence).
    eapply scoreboardRows_at; vm_compute; reflexivity.
  - assert (a = 5%nat) as -> by (vm_compute in Ha; congruence).
    eapply scoreboardRows_at; vm_compute; reflexivity.
  - assert (a = 2%nat) as -> by (vm_compute in Ha; congruence).
    eapply scoreboardRows_at; vm_compute; reflexivity.
  - assert (a = 4%nat) as -> by (vm_compute in Ha; congruence).
    eapply scoreboardRows_at; vm_compute; reflexivity.
  - assert (a = 3%nat) as -> by (vm_compute in Ha; congruence).
    eapply scoreboardRows_at; vm_compute; reflexivity.
Qed.

Lemma problemCells_error cells ps e :
  (∀ p e', cells p = Throw e' → e' = TypeError) →
  problemCells cells ps = Throw e → e = TypeError.
Proof.
  intros Hcells. induction ps as [|p ps IH]; [discriminate|]. cbn [problemCells].
  destruct (cells p) as [here|e'] eqn:Hp; [|cbn; intros [= <-]; by eapply Hcells].
  cbn [bind]. destruct (problemCells cells ps) as [others|e'']; [discriminate|].
  cbn [bind]. intros [= <-]. by apply IH.
Qed.

Lemma isFirst_error meta p doc e : isFirst meta p doc = Throw e → e = TypeError.
Proof.
  unfold isFirst. destruct (accepts (c_status doc)); [|discriminate].
  destruct (c_rid doc); [discriminate|]. by intros [= <-].
Qed.

(** A row body fails with a [TypeError] only. *)
Lemma run_scoreboardRow_error code config tdoc pdict udoc rank tsdoc meta now e :
  run_scoreboardRow code config tdoc pdict udoc rank tsdoc meta now = Throw e →
  e = TypeError.
Proof.
  destruct udoc as [udoc|]; [|destruct code; by intros [= <-]].
  destruct code; cbn [run_scoreboardRow];
    unfold acm_scoreboardRow_body, oi_scoreboardRow_body, strictioi_scoreboardRow_body,
      ledo_scoreboardRow_body, homework_scoreboardRow_body; cbn zeta;
    match goal with
    | |- context [problemCells ?f ?ps] =>
        destruct (problemCells f ps) as [l|e'] eqn:Hcells; [discriminate|]
    end;
    cbn [bind]; intros [= <-]; revert Hcells; apply problemCells_error; intros p e0.
  - unfold acm_problemCell. cbn zeta. destruct (isExport config); [discriminate|].
    destruct (isFirst meta p _) eqn:Hf; [discriminate|].
    cbn [bind]. intros [= <-]. by eapply isFirst_error.
  - unfold oi_problemCell. cbn zeta.
    destruct (isFirst meta p _) as [[]|] eqn:Hf; [discriminate|discriminate|].
    cbn [bind]. intros [= <-]. by eapply isFirst_error.
  - unfold strictioi_problemCell. cbn zeta.
    destruct (isFirst meta p _) eqn:Hf; [discriminate|].
    cbn [bind]. intros [= <-]. by eapply isFirst_error.
  - unfold ledo_problemCell. cbn zeta.
    destruct (isFirst meta p _) eqn:Hf; [discriminate|].
    cbn [bind]. intros [= <-]. by eapply isFirst_error.
  - unfold homework_problemCell. cbn zeta. destruct (isExport config); discriminate.
Qed.

(** The rows fail with a [TypeError] only, and succeed only when every
    standing has its user document. *)
Lemma run_rows_outcome code config tdoc udict meta now rs pdict :
  match run_rows code config tdoc udict meta now rs pdict with
  | Ok _ => Forall (fun r => is_Some (udict !! uid (sd_doc (snd r)))) rs
  | Throw e => e = TypeError
  end.
Proof.
  revert pdict. induction rs as [|[rank tsdoc] rs IH]; intros pdict; [by constructor|].
  cbn [run_rows].
  destruct (run_scoreboardRow code config tdoc pdict (udict !! uid (sd_doc tsdoc)) rank
              tsdoc meta now) as [[cells pd1]|e] eqn:Hrow;
    [|cbn; by eapply run_scoreboardRow_error].
  cbn [bind fst snd]. specialize (IH pd1).
  destruct (run_rows code config tdoc udict meta now rs pd1) as [[others pd2]|e];
    [|exact IH].
  cbn [bind]. constructor; [|exact IH].
  by destruct (run_scoreboardRow_spec _ _ _ _ _ _ _ _ _ _ _ Hrow) as (? & _).
Qed.

(** X7. The scoreboard of a rule of the table runs the header body and then
    the row body once per ranked standing, on the shared [pdict]: the header
    and the ranking are those written for [acm], for [homework], or else for
    [oi]; the row is the rule's own, except under [ioi], which has the row
    of [oi].  It does not always return: it fails, with a [TypeError] and
    nothing else, as soon as a problem of the contest has no document in
    [pdict] or a standing of the cursor has no user document in [udict]. *)
Theorem scoreboard_by_rule (name : string) (a : addr) (config : ScoreboardConfig)
    (tdoc : Tdoc) (pdict : gmap Z Pdoc) (q : Queried) (now : Z) (cursor : list Standing) :
  RULES !! name = Some a →
  scoreboardRows name config tdoc pdict q now cursor
  = renderScoreboard (headerOf name) (rowOf name) config tdoc pdict (q_udict q)
      (scoreboardMeta (boardOf name) tdoc now q) now (rankedStandings (boardOf name) cursor)
  ∧ (rankedStandings (boardOf name) cursor).*2 = cursor
  ∧ (∀ rows pdict',
       scoreboardRows name config tdoc pdict q now cursor = Ok (rows, pdict') →
       length rows = S (length cursor)
       ∧ Forall (fun p => is_Some (pdict !! p)) (pids tdoc)
       ∧ Forall (fun tsdoc => is_Some (q_udict q !! uid (sd_doc tsdoc))) cursor)
  ∧ (∀ e, scoreboardRows name config tdoc pdict q now cursor = Throw e → e = TypeError).
Proof.
  intros Ha. rewrite (scoreboardRows_dispatch _ _ _ _ _ _ _ _ Ha).
  split; [reflexivity|].
  assert (Hrs : (rankedStandings (boardOf name) cursor).*2 = cursor) by apply rankFrom_snd.
  split; [exact Hrs|].
  set (rs := rankedStandings (boardOf name) cursor) in *. clearbody rs. subst cursor.
  unfold renderScoreboard.
  pose proof (run_scoreboardHeader_spec (headerOf name) config tdoc pdict) as Hh.
  destruct (run_scoreboardHeader (headerOf name) config tdoc pdict) as [[columns pd1]|e0];
    [|split; [discriminate|intros e [= <-]; by destruct Hh]].
  cbn [bind fst snd]. destruct Hh as (Hall & _).
  pose proof (run_rows_outcome (rowOf name) config tdoc (q_udict q)
                (scoreboardMeta (boardOf name) tdoc now q) now rs pd1) as Hrows.
  destruct (run_rows (rowOf name) config tdoc (q_udict q)
              (scoreboardMeta (boardOf name) tdoc now q) now rs pd1)
    as [[others pd2]|e0] eqn:Hrun;
    [|split; [discriminate|intros e [= <-]; exact Hrows]].
  cbn [bind fst snd]. split; [|discriminate]. intros rows pdict' [= <- <-].
  destruct (run_rows_spec _ _ _ _ _ _ _ _ _ _ Hrun) as (Hlen & _).
  split; [cbn [length]; rewrite Hlen, length_fmap; reflexivity|].
  split; [exact Hall|].
  rewrite Forall_fmap. exact Hrows.
Qed.

(** X8. [getScoreboard] on a stored contest with a known rule: the request
    is refused with [ContestScoreboardHiddenError] exactly when the rule keeps
    the scoreboard closed at that instant and the user neither owns the
    contest nor has the permission; otherwise the scoreboard of the rule is
    built, and the request returns the contest with the rows, [udict] and
    the updated [pdict], or fails with the [TypeError] that building the
    scoreboard raised. *)
Theorem getScoreboard_access (user : User) (st : Store) (tid : nat) (tdoc : Tdoc)
    (a : addr) (config : ScoreboardConfig) (pdict : gmap Z Pdoc) (q : Queried) (now : Z)
    (cursor : list Standing) :
  st !! tid = Some tdoc →
  RULES !! rule tdoc = Some a →
  getScoreboard user st tid config pdict q now cursor
  = if boardOpensAt (rule tdoc) tdoc now || canViewHiddenScoreboard user tdoc
    then match renderScoreboard (headerOf (rule tdoc)) (rowOf (rule tdoc)) config tdoc pdict
                 (q_udict q) (scoreboardMeta (boardOf (rule tdoc)) tdoc now q) now
                 (rankedStandings (boardOf (rule tdoc)) cursor) with
         | Ok (rows, pdict') => inr (tdoc, rows, q_udict q, pdict')
         | Throw _ => inl (Raised TypeError)
         end
    else inl (ContestScoreboardHiddenError tid).
Proof.
  intros Hst Ha. unfold getScoreboard, get, document_get. rewrite Hst.
  rewrite (scoreboardRows_dispatch (rule tdoc) a config tdoc pdict q now cursor Ha).
  assert (Herr : ∀ e, renderScoreboard (headerOf (rule tdoc)) (rowOf (rule tdoc)) config tdoc
                        pdict (q_udict q) (scoreboardMeta (boardOf (rule tdoc)) tdoc now q) now
                        (rankedStandings (boardOf (rule tdoc)) cursor) = Throw e →
                      e = TypeError).
  { intros e. unfold renderScoreboard.
    pose proof (run_scoreboardHeader_spec (headerOf (rule tdoc)) config tdoc pdict) as Hh.
    destruct (run_scoreboardHeader (headerOf (rule tdoc)) config tdoc pdict)
      as [[columns pd1]|e0]; [|cbn; intros [= <-]; by destruct Hh].
    cbn [bind fst snd].
    pose proof (run_rows_outcome (rowOf (rule tdoc)) config tdoc (q_udict q)
                  (scoreboardMeta (boardOf (rule tdoc)) tdoc now q) now
                  (rankedStandings (boardOf (rule tdoc)) cursor) pd1) as Hrows.
    destruct (run_rows _ _ _ _ _ _ _ pd1) as [[others pd2]|e1]; [discriminate|].
    cbn. by intros [= <-]. }
  destruct (renderScoreboard (headerOf (rule tdoc)) (rowOf (rule tdoc)) config tdoc pdict
              (q_udict q) (scoreboardMeta (boardOf (rule tdoc)) tdoc now q) now
              (rankedStandings (boardOf (rule tdoc)) cursor)) as [[rows pdict']|e] eqn:Hrender;
    [|rewrite (Herr e eq_refl)]; clear Herr Hrender.
  all: assert (Hn : is_Some (RULES !! rule tdoc)) by eauto;
    apply RULES_names in Hn;
    unfold canShowScoreboard, canShow, call_show, boardOpensAt;
    repeat (apply elem_of_cons in Hn as [Hr | Hn]);
      [rewrite !Hr; change (RULES !! "acm"%string) with (Some 0%nat)
      |rewrite !Hr; change (RULES !! "oi"%string) with (Some 1%nat)
      |rewrite !Hr; change (RULES !! "homework"%string) with (Some 5%nat)
      |rewrite !Hr; change (RULES !! "ioi"%string) with (Some 2%nat)
      |rewrite !Hr; change (RULES !! "ledo"%string) with (Some 4%nat)
      |rewrite !Hr; change (RULES !! "strictioi"%string) with (Some 3%nat)
      |inversion Hn];
      cbn;
      destruct (endAt tdoc <? now), (beginAt tdoc <? now),
        (canViewHiddenScoreboard user tdoc); reflexivity.
Qed.
End ServingFacts.

Lemma scoreboard_by_rule_witness :
  RULES !! "ledo"%string = Some 4%nat
  ∧ (∃ rows pdict',
       scoreboardRows (imports := sampleImports) (rendering := sampleRendering)
         "ledo" sampleConfig ledoContest samplePdict sampleQueried 0 [sampleStanding]
       = Ok (rows, pdict') ∧ length rows = 2%nat)
  ∧ scoreboardRows (imports := sampleImports) (rendering := sampleRendering)
      "ledo" sampleConfig ledoContest samplePdict sampleQueried 0
      [sampleStanding; strangerStanding]
    = Throw TypeError.
Proof.
  assert (H1 : RULES !! "ledo"%string = Some 4%nat) by reflexivity.
  split; [exact H1|]. split.
  - assert (Hrun : ∃ rows pdict',
               scoreboardRows (imports := sampleImports) (rendering := sampleRendering)
                 "ledo" sampleConfig ledoContest samplePdict sampleQueried 0 [sampleStanding]
               = Ok (rows, pdict'))
      by (vm_compute; eexists _, _; reflexivity).
    destruct Hrun as (rows & pdict' & Hrun). exists rows, pdict'. split; [exact Hrun|].
    exact (proj1 (proj1 (proj2 (proj2
             (scoreboard_by_rule (imports := sampleImports) (rendering := sampleRendering)
                "ledo" 4%nat sampleConfig ledoContest samplePdict sampleQueried 0
                [sampleStanding] H1))) rows pdict' Hrun)).
  - vm_compute. reflexivity.
Defined.

Lemma getScoreboard_access_witness :
  lockedStore !! 0%nat = Some frozenContest
  ∧ RULES !! rule frozenContest = Some 0%nat
  ∧ getScoreboard (imports := sampleImports) (rendering := sampleRendering)
      guest lockedStore 0 sampleConfig samplePdict sampleQueried (-5) [sampleStanding]
    = inl (ContestScoreboardHiddenError 0)
  ∧ (∃ rows pdict',
       getScoreboard (imports := sampleImports) (rendering := sampleRendering)
         owner lockedStore 0 sampleConfig samplePdict sampleQueried (-5) [sampleStanding]
       = inr (frozenContest, rows, sampleUdict, pdict'))
  ∧ getScoreboard (imports := sampleImports) (rendering := sampleRendering)
      owner lockedStore 0 sampleConfig samplePdict sampleQueried (-5) [strangerStanding]
    = inl (Raised TypeError).
Proof.
  assert (H1 : lockedStore !! 0%nat = Some frozenContest) by reflexivity.
  assert (H2 : RULES !! rule frozenContest = Some 0%nat) by reflexivity.
  split; [exact H1|]. split; [exact H2|]. split; [|split].
  - exact (getScoreboard_access (imports := sampleImports) (rendering := sampleRendering)
             guest lockedStore 0 frozenContest 0%nat sampleConfig samplePdict sampleQueried
             (-5) [sampleStanding] H1 H2).
  - rewrite (getScoreboard_access (imports := sampleImports) (rendering := sampleRendering)
               owner lockedStore 0 frozenContest 0%nat sampleConfig samplePdict sampleQueried
               (-5) [sampleStanding] H1 H2).
    vm_compute. eexists _, _. reflexivity.
  - rewrite (getScoreboard_access (imports := sampleImports) (rendering := sampleRendering)
               owner lockedStore 0 frozenContest 0%nat sampleConfig samplePdict sampleQueried
               (-5) [strangerStanding] H1 H2).
    vm_compute. reflexivity.
Defined.

(** ** The ACM row during a freeze *)

Lemma values_omap {A B} (f : A → option B) (m : gmap Z A) :
  omap f (values m) ≡ₚ values (omap f m).
Proof.
  unfold values. induction m as [|i x m Hi IH] using map_ind.
  - by rewrite omap_empty, !map_to_list_empty.
  - rewrite map_to_list_insert by exact Hi. rewrite omap_insert.
    cbn [fmap list_fmap omap list_omap snd].
    assert (Hnone : omap f m !! i = None) by (by rewrite lookup_omap, Hi).
    destruct (f x) as [y|].
    + rewrite map_to_list_insert by exact Hnone. cbn. by rewrite IH.
    + by rewrite delete_id.
Qed.

Section FrozenRow.
Context {imports : Imported} {rendering : Rendering}.

Lemma acm_acceptedShown_perm (d1 d2 : gmap Z AcmDisplay) :
  omap acm_withoutPending d1 = omap acm_withoutPending d2 →
  acm_acceptedShown d1 ≡ₚ acm_acceptedShown d2.
Proof.
  intros Heq. unfold acm_acceptedShown. apply filter_Permutation.
  rewrite !values_omap.
  assert (Hshown : omap aq_shown d1 = omap aq_shown d2); [|by rewrite Hshown].
  apply map_eq. intros p. rewrite !lookup_omap.
  assert (Hp : omap acm_withoutPending d1 !! p = omap acm_withoutPending d2 !! p)
    by (by rewrite Heq).
  rewrite !lookup_omap in Hp.
  destruct (d1 !! p) as [[[s1|] n1]|], (d2 !! p) as [[[s2|] n2]|];
    cbn in *; congruence.
Qed.

Lemma countJournal_truncate l pdict journal :
  countJournal (Some l) pdict (Some journal)
  = countJournal (Some l) pdict (Some (truncateAt l journal)).
Proof.
  unfold countJournal, truncateAt.
  change (default [] (Some journal)) with journal.
  change (default [] (Some (filter (fun j => getTimestamp (rid j) ≤ l) journal)))
    with (filter (fun j => getTimestamp (rid j) ≤ l) journal).
  revert pdict. induction journal as [|s journal IH]; intros pdict; [reflexivity|].
  cbn [fold_left]. rewrite filter_cons.
  assert (Ha : afterLock (Some l) s = (l <? getTimestamp (rid s))) by reflexivity.
  destruct (afterLock (Some l) s) eqn:Hl; symmetry in Ha.
  - apply Z.ltb_lt in Ha. rewrite decide_False by lia. apply IH.
  - apply Z.ltb_ge in Ha. rewrite decide_True by lia. cbn [fold_left].
    rewrite Hl. apply IH.
Qed.

(** The properties of a displayed record that the cells of an ACM row read,
    apart from the pending counter. *)
Lemma acm_displayCell_agree (e1 e2 : option AcmDisplay) :
  e1 ≫= acm_withoutPending = e2 ≫= acm_withoutPending →
  let c1 := default emptyCell (acm_displayCell <$> e1) in
  let c2 := default emptyCell (acm_displayCell <$> e2) in
  c_rid c1 = c_rid c2 ∧ c_status c1 = c_status c2 ∧ c_naccept c1 = c_naccept c2
  ∧ c_penalty c1 = c_penalty c2 ∧ c_real c1 = c_real c2 ∧ c_time c1 = c_time c2.
Proof.
  destruct e1 as [[[s1|] n1]|], e2 as [[[s2|] n2]|]; cbn; intros Heq;
    try discriminate Heq; try (injection Heq as <-); repeat split.
Qed.

(** Two status documents of [acm.stat] whose totals agree and whose
    displays agree up to pending counters give the same frozen rows. *)
Lemma acm_row_agree (l : Z) (export : bool) (tdoc : Tdoc) (pdict : gmap Z Pdoc)
    (udoc : option Udoc) (rank u : Z) (meta : option Meta) (j1 j2 : list Jdoc)
    (s1 s2 : AcmStats) :
  acm_accept s1 = acm_accept s2 →
  acm_time s1 = acm_time s2 →
  omap acm_withoutPending (acm_display s1) = omap acm_withoutPending (acm_display s2) →
  countJournal (Some l) pdict (Some j1) = countJournal (Some l) pdict (Some j2) →
  acm_scoreboardRow_body (frozenConfig true l) tdoc pdict udoc rank
    (acm_standing u j1 s1) meta
  = acm_scoreboardRow_body (frozenConfig true l) tdoc pdict udoc rank
      (acm_standing u j2 s2) meta
  ∧ acm_scoreboardRow_body (frozenConfig export l) tdoc pdict udoc rank
      (erasePending (acm_standing u j1 s1)) meta
    = acm_scoreboardRow_body (frozenConfig export l) tdoc pdict udoc rank
        (erasePending (acm_standing u j2 s2)) meta.
Proof.
  intros Haccept Htime Heq Hcount.
  assert (Hcell : ∀ p,
            let c1 := default emptyCell ((acm_displayCell <$> acm_display s1) !! p) in
            let c2 := default emptyCell ((acm_displayCell <$> acm_display s2) !! p) in
            c_rid c1 = c_rid c2 ∧ c_status c1 = c_status c2 ∧ c_naccept c1 = c_naccept c2
            ∧ c_penalty c1 = c_penalty c2 ∧ c_real c1 = c_real c2 ∧ c_time c1 = c_time c2).
  { intros p. rewrite !lookup_fmap. apply acm_displayCell_agree.
    assert (Hp : omap acm_withoutPending (acm_display s1) !! p
                 = omap acm_withoutPending (acm_display s2) !! p) by (by rewrite Heq).
    by rewrite !lookup_omap in Hp. }
  destruct udoc as [udoc|]; [|by split].
  unfold acm_scoreboardRow_body, acm_standing, erasePending, shownDict, rankAndUser,
    frozenConfig, acm_tsdoc.
  cbn [sd_doc sd_journal sd_detail sd_display cfg_lockAt isExport present default
       uid ts_accept ts_time fmap option_fmap option_map from_option id].
  rewrite Haccept, Htime, Hcount.
  split.
  - assert (Hcells : ∀ ps,
              problemCells (acm_problemCell {| isExport := true; cfg_lockAt := Some l |} meta
                              (acm_displayCell <$> acm_display s1)) ps
              = problemCells (acm_problemCell {| isExport := true; cfg_lockAt := Some l |} meta
                                (acm_displayCell <$> acm_display s2)) ps).
    { induction ps as [|p ps IH]; [reflexivity|]. cbn [problemCells]. rewrite IH.
      f_equal. unfold acm_problemCell. cbn zeta. cbn [isExport].
      destruct (Hcell p) as (Hrid & Hstatus & _ & Hpenalty & Hreal & _). cbn zeta in *.
      by rewrite Hrid, Hstatus, Hpenalty, Hreal. }
    by rewrite Hcells.
  - assert (Hcells : ∀ ps,
              problemCells (acm_problemCell {| isExport := export; cfg_lockAt := Some l |}
                              meta (cellWithoutPending <$> (acm_displayCell <$> acm_display s1)))
                           ps
              = problemCells (acm_problemCell {| isExport := export; cfg_lockAt := Some l |}
                                meta
                                (cellWithoutPending <$> (acm_displayCell <$> acm_display s2)))
                             ps).
    { induction ps as [|p ps IH]; [reflexivity|]. cbn [problemCells]. rewrite IH.
      f_equal. unfold acm_problemCell. cbn zeta. cbn [isExport].
      destruct (Hcell p) as (Hrid & Hstatus & Hnaccept & Hpenalty & Hreal & Htime').
      cbn zeta in *. rewrite !(lookup_fmap cellWithoutPending).
      destruct ((acm_displayCell <$> acm_display s1) !! p) as [[]|],
        ((acm_displayCell <$> acm_display s2) !! p) as [[]|];
        cbn in *; simplify_eq; reflexivity. }
    by rewrite Hcells.
Qed.

(** X24. While an ACM contest is locked at [l], the exported row of a
    participant, rendered with [config.lockAt] from the status document
    that [acm.stat] left for a journal ordered by submission instant, is the
    row of the journal cut at [l], cell by cell, and so are the counters it
    leaves in [pdict]: nothing submitted after the lock shows.  The row
    for display is that row too once the pending counters are taken out of
    [display]. *)
Theorem acm_frozen_row (tdoc : Tdoc) (now l : Z) (journal : list Jdoc)
    (export : bool) (pdict : gmap Z Pdoc) (udoc : option Udoc) (rank u : Z)
    (meta : option Meta) :
  lockAt tdoc = Some l →
  isLocked tdoc now = true →
  timeOrdered journal = true →
  let full := acm_standing u journal (acm_stat false tdoc now journal) in
  let cut := acm_standing u (truncateAt l journal)
               (acm_stat false tdoc now (truncateAt l journal)) in
  acm_scoreboardRow_body (frozenConfig true l) tdoc pdict udoc rank full meta
  = acm_scoreboardRow_body (frozenConfig true l) tdoc pdict udoc rank cut meta
  ∧ acm_scoreboardRow_body (frozenConfig export l) tdoc pdict udoc rank
      (erasePending full) meta
    = acm_scoreboardRow_body (frozenConfig export l) tdoc pdict udoc rank
        (erasePending cut) meta.
Proof.
  intros Hl Hlocked Hord. cbn zeta.
  destruct (acm_freeze false tdoc now l journal Hl Hlocked Hord) as [Heq _].
  assert (Hperm : acm_acceptedShown (acm_display (acm_stat false tdoc now journal))
                  ≡ₚ acm_acceptedShown
                       (acm_display (acm_stat false tdoc now (truncateAt l journal))))
    by (by apply acm_acceptedShown_perm).
  apply acm_row_agree.
  - unfold acm_stat in *. cbn [acm_accept acm_display] in *. by rewrite Hperm.
  - unfold acm_stat in *. cbn [acm_time acm_display] in *. by apply sumBy_perm.
  - exact Heq.
  - apply countJournal_truncate.
Qed.
End FrozenRow.

Lemma acm_frozen_row_witness :
  lockAt frozenContest = Some 1000000
  ∧ isLocked frozenContest 2000000 = true
  ∧ timeOrdered frozenJournal = true
  ∧ acm_scoreboardRow_body (imports := sampleImports) (rendering := sampleRendering)
      (frozenConfig true 1000000) frozenContest samplePdict (sampleUdict !! 7) 1
      (acm_standing 7 frozenJournal
         (acm_stat (imports := sampleImports) false frozenContest 2000000 frozenJournal))
      None
    = acm_scoreboardRow_body (imports := sampleImports) (rendering := sampleRendering)
        (frozenConfig true 1000000) frozenContest samplePdict (sampleUdict !! 7) 1
        (acm_standing 7 (truncateAt 1000000 frozenJournal)
           (acm_stat (imports := sampleImports) false frozenContest 2000000
              (truncateAt 1000000 frozenJournal)))
        None.
Proof.
  assert (H1 : lockAt frozenContest = Some 1000000) by reflexivity.
  assert (H2 : isLocked frozenContest 2000000 = true) by reflexivity.
  assert (H3 : timeOrdered frozenJournal = true) by reflexivity.
  split; [exact H1|]. split; [exact H2|]. split; [exact H3|].
  exact (proj1 (acm_frozen_row (imports := sampleImports) (rendering := sampleRendering)
                  frozenContest 2000000 1000000 frozenJournal true samplePdict
                  (sampleUdict !! 7) 1 7 None H1 H2 H3)).
Defined.

(** ** The OI row during a freeze *)

Section FrozenOiRow.
Context {imports : Imported} {rendering : Rendering}.

Lemma oi_score_agree (d1 d2 : gmap Z OiDisplay) :
  omap oi_withoutPending d1 = omap oi_withoutPending d2 →
  sumBy oi_shownScore (values d1) = sumBy oi_shownScore (values d2).
Proof.
  intros Heq.
  assert (Hsum : ∀ d : gmap Z OiDisplay,
            sumBy oi_shownScore (values d) = sumBy score (values (omap oq_shown d))).
  { intros d. rewrite <- (sumBy_perm _ _ _ (values_omap oq_shown d)).
    generalize (values d). intros l. induction l as [|[[j|] n] l IH]; [reflexivity| |].
    - cbn [omap list_omap oq_shown]. unfold sumBy in *. cbn [foldr]. by rewrite IH.
    - cbn [omap list_omap oq_shown]. unfold sumBy in *. cbn [foldr]. by rewrite IH. }
  rewrite !Hsum.
  assert (Hshown : omap oq_shown d1 = omap oq_shown d2); [|by rewrite Hshown].
  apply map_eq. intros p. rewrite !lookup_omap.
  assert (Hp : omap oi_withoutPending d1 !! p = omap oi_withoutPending d2 !! p)
    by (by rewrite Heq).
  rewrite !lookup_omap in Hp.
  destruct (d1 !! p) as [[[s1|] n1]|], (d2 !! p) as [[[s2|] n2]|];
    cbn in *; congruence.
Qed.

Lemma oi_displayCell_agree (e1 e2 : option OiDisplay) :
  e1 ≫= oi_withoutPending = e2 ≫= oi_withoutPending →
  cellWithoutPending (default emptyCell (oi_displayCell <$> e1))
  = cellWithoutPending (default emptyCell (oi_displayCell <$> e2)).
Proof.
  destruct e1 as [[[s1|] n1]|], e2 as [[[s2|] n2]|]; cbn; intros Heq;
    try discriminate Heq; try (injection Heq as <-); reflexivity.
Qed.

(** X25. While a contest under [oi] or [ioi] is locked at [l], the row of a
    participant, rendered with [config.lockAt] from the status document that
    [oi.stat] left for a journal ordered by submission instant, is, once
    the pending counters are taken out of [display], the row of the journal
    cut at [l], cell by cell and with the total score, and so are the
    counters it leaves in [pdict]. *)
Theorem oi_frozen_row (sAA : bool) (tdoc : Tdoc) (now l : Z) (journal : list Jdoc)
    (export : bool) (pdict : gmap Z Pdoc) (udoc : option Udoc) (rank u : Z)
    (meta : option Meta) (clock : Z) :
  lockAt tdoc = Some l →
  isLocked tdoc now = true →
  timeOrdered journal = true →
  let full := oi_standing u journal (oi_stat sAA tdoc now journal) in
  let cut := oi_standing u (truncateAt l journal)
               (oi_stat sAA tdoc now (truncateAt l journal)) in
  oi_scoreboardRow_body (frozenConfig export l) tdoc pdict udoc rank
    (erasePending full) meta clock
  = oi_scoreboardRow_body (frozenConfig export l) tdoc pdict udoc rank
      (erasePending cut) meta clock.
Proof.
  intros Hl Hlocked Hord. cbn zeta.
  destruct (oi_freeze sAA tdoc now l journal Hl Hlocked Hord) as [Heq _].
  assert (Hscore : oi_score (oi_stat sAA tdoc now journal)
                   = oi_score (oi_stat sAA tdoc now (truncateAt l journal))).
  { unfold oi_stat in *. cbn [oi_score oi_display] in *. by apply oi_score_agree. }
  revert Heq Hscore.
  generalize (oi_stat sAA tdoc now journal) (oi_stat sAA tdoc now (truncateAt l journal)).
  intros s1 s2 Heq Hscore.
  destruct udoc as [udoc|]; [|reflexivity].
  unfold oi_scoreboardRow_body, oi_standing, erasePending, shownDict, rankAndUser,
    frozenConfig.
  cbn [sd_doc sd_journal sd_detail sd_display cfg_lockAt isExport present default
       uid ts_score fmap option_fmap option_map from_option id].
  rewrite Hscore, (countJournal_truncate l pdict journal).
  assert (Hcells : ∀ ps,
            problemCells (oi_problemCell {| isExport := export; cfg_lockAt := Some l |} meta
                            (isDone tdoc None clock) u
                            (cellWithoutPending <$> (oi_displayCell <$> oi_display s1))) ps
            = problemCells (oi_problemCell {| isExport := export; cfg_lockAt := Some l |}
                              meta (isDone tdoc None clock) u
                              (cellWithoutPending <$> (oi_displayCell <$> oi_display s2)))
                           ps).
  { induction ps as [|p ps IH]; [reflexivity|]. cbn [problemCells]. rewrite IH.
    f_equal. unfold oi_problemCell. cbn zeta.
    assert (Hp : omap oi_withoutPending (oi_display s1) !! p
                 = omap oi_withoutPending (oi_display s2) !! p) by (by rewrite Heq).
    rewrite !lookup_omap in Hp. apply oi_displayCell_agree in Hp.
    assert (Hdef : ∀ o : option Cell,
              default emptyCell (cellWithoutPending <$> o)
              = cellWithoutPending (default emptyCell o)) by (by intros [c|]).
    rewrite !(lookup_fmap cellWithoutPending), !lookup_fmap, !Hdef, Hp. reflexivity. }
  by rewrite Hcells.
Qed.
End FrozenOiRow.

Lemma oi_frozen_row_witness :
  lockAt frozenContest = Some 1000000
  ∧ isLocked frozenContest 2000000 = true
  ∧ timeOrdered frozenJournal = true
  ∧ oi_scoreboardRow_body (imports := sampleImports) (rendering := sampleRendering)
      (frozenConfig false 1000000) frozenContest samplePdict (sampleUdict !! 7) 1
      (erasePending
         (oi_standing 7 frozenJournal
            (oi_stat true frozenContest 2000000 frozenJournal)))
      None 0
    = oi_scoreboardRow_body (imports := sampleImports) (rendering := sampleRendering)
        (frozenConfig false 1000000) frozenContest samplePdict (sampleUdict !! 7) 1
        (erasePending
           (oi_standing 7 (truncateAt 1000000 frozenJournal)
              (oi_stat true frozenContest 2000000
                 (truncateAt 1000000 frozenJournal))))
        None 0.
Proof.
  assert (H1 : lockAt frozenContest = Some 1000000) by reflexivity.
  assert (H2 : isLocked frozenContest 2000000 = true) by reflexivity.
  assert (H3 : timeOrdered frozenJournal = true) by reflexivity.
  split; [exact H1|]. split; [exact H2|]. split; [exact H3|].
  exact (oi_frozen_row (imports := sampleImports) (rendering := sampleRendering)
           true frozenContest 2000000 1000000 frozenJournal false samplePdict
           (sampleUdict !! 7) 1 7 None 0 H1 H2 H3).
Defined.
